(** * llm-anthropic-vertex: the two developer utilities and the tool-call
    threading of the adapter, embedded in Rocq.

    - [gcloud_setup.py]: the credential and environment preflight checker.
    - [scripts/check_encoded_strings.py]: the script that rewrites recorded
      HTTP test fixtures (cassettes), decompressing gzip response bodies.
    - [tests/test_anthropic.py]: the recorded test cases of the adapter.

    Conventions of the embedding.
    - A Python [str] is a Rocq [string], one character per code point, for
      code points below 256.  A Python [bytes] is a [list byte].
    - Effects are explicit: a [world] holds the file system, the process
      environment, the lines waiting on standard input and the trace of
      events the program has produced so far.  A computation ends with a
      value ([Ret]), with a raised exception ([Raise]) or with [sys.exit]
      ([Exit]), which no [except Exception] clause intercepts.
    - Functions of libraries outside the repository (gzip, PyYAML, json,
      glob, datetime, difflib) are fields of a record the programs are
      parametrised by; the theorems hold for every such library.
    - A printed line is an event [Print m text]: [m] tells which glyph
      ([print_success], [print_warning], ...) leads the line; glyphs and
      ANSI colour codes are not part of [text]. *)

From Stdlib Require Import ZArith NArith List String Ascii Bool Lia.
From Stdlib Require Import Init.Byte DecimalString.
From stdpp Require Import base option gmap strings list fin_maps.

Set Warnings "-register-all".

Local Open Scope string_scope.
Local Open Scope list_scope.

(** ** Python strings *)

Definition nl : string := String (ascii_of_nat 10) EmptyString.

(** [str.isspace] on code points below 256. *)
Definition is_space (c : ascii) : bool :=
  let n := N_of_ascii c in
  ((9 <=? n) && (n <=? 13) || (28 <=? n) && (n <=? 32)
   || (n =? 133) || (n =? 160))%N.

(** [str.lower] on one code point below 256. *)
Definition lower_char (c : ascii) : ascii :=
  let n := N_of_ascii c in
  if ((65 <=? n) && (n <=? 90)
      || (192 <=? n) && (n <=? 222) && negb (n =? 215))%N
  then ascii_of_N (n + 32) else c.

Fixpoint lower (s : string) : string :=
  match s with
  | EmptyString => EmptyString
  | String c s' => String (lower_char c) (lower s')
  end.

Fixpoint lstrip (s : string) : string :=
  match s with
  | EmptyString => EmptyString
  | String c s' => if is_space c then lstrip s' else s
  end.

Fixpoint rstrip (s : string) : string :=
  match s with
  | EmptyString => EmptyString
  | String c s' =>
      match rstrip s' with
      | EmptyString => if is_space c then EmptyString else String c EmptyString
      | r => String c r
      end
  end.

(** [s.strip()] *)
Definition strip (s : string) : string := rstrip (lstrip s).

(** Truthiness of a string: [if s:]. *)
Definition nonempty (s : string) : bool :=
  match s with EmptyString => false | _ => true end.

(** [needle in hay] for two strings. *)
Definition contains (needle hay : string) : bool :=
  match String.index 0 needle hay with
  | Some _ => true
  | None => match needle with EmptyString => true | _ => false end
  end.

(** [s in [a, b, ...]] for a list of string literals. *)
Definition in_list (s : string) (l : list string) : bool :=
  existsb (String.eqb s) l.

(** [s.count(c)] for a one-character pattern. *)
Fixpoint count_char (c : ascii) (s : string) : nat :=
  match s with
  | EmptyString => 0
  | String d s' => (if Ascii.eqb c d then 1 else 0) + count_char c s'
  end.

(** [s.split('\n')[0]] *)
Fixpoint first_line (s : string) : string :=
  match s with
  | EmptyString => EmptyString
  | String c s' =>
      if Ascii.eqb c (ascii_of_nat 10) then EmptyString
      else String c (first_line s')
  end.

(** [s.replace(c, r)] for a one-character pattern. *)
Fixpoint replace_char (c : ascii) (r : string) (s : string) : string :=
  match s with
  | EmptyString => EmptyString
  | String d s' =>
      if Ascii.eqb c d then r +:+ replace_char c r s'
      else String d (replace_char c r s')
  end.

(** ['=' * n] *)
Fixpoint repeat_string (s : string) (n : nat) : string :=
  match n with
  | O => EmptyString
  | S n' => s +:+ repeat_string s n'
  end.

(** [bytes.strip()]: ASCII whitespace only. *)
Definition is_space_byte (b : byte) : bool :=
  match b with
  | x09 | x0a | x0b | x0c | x0d | x20 => true
  | _ => false
  end.

Fixpoint lstrip_bytes (l : list byte) : list byte :=
  match l with
  | [] => []
  | b :: l' => if is_space_byte b then lstrip_bytes l' else l
  end.

Fixpoint rstrip_bytes (l : list byte) : list byte :=
  match l with
  | [] => []
  | b :: l' =>
      match rstrip_bytes l' with
      | [] => if is_space_byte b then [] else [b]
      | r => b :: r
      end
  end.

Definition strip_bytes (l : list byte) : list byte :=
  rstrip_bytes (lstrip_bytes l).

(** ** Paths ([pathlib.Path], POSIX flavour)

    A path is kept as its normalised text: repeated and trailing slashes
    and the component [.] are dropped, and the empty path is [.]. *)

Fixpoint split_on (c : ascii) (s : string) : list string :=
  match s with
  | EmptyString => [EmptyString]
  | String d s' =>
      if Ascii.eqb c d then EmptyString :: split_on c s'
      else match split_on c s' with
           | hd :: tl => String d hd :: tl
           | [] => [String d EmptyString]
           end
  end.

Definition is_component (s : string) : bool :=
  negb (String.eqb s "" || String.eqb s ".").

Definition components (s : string) : list string :=
  List.filter is_component (split_on "/" s).

Definition is_absolute (s : string) : bool :=
  match s with String "/" _ => true | _ => false end.

(** [Path(s)] *)
Definition Path (s : string) : string :=
  let body := String.concat "/" (components s) in
  if is_absolute s then "/" +:+ body
  else if nonempty body then body else ".".

(** [p / name] *)
Definition joinpath (p name : string) : string :=
  if is_absolute name then Path name else Path (p +:+ "/" +:+ name).

(** [p.name]: the last component. *)
Definition path_name (p : string) : string :=
  List.last (components p) "".

(** Position of the last occurrence of [c], counted from the start. *)
Fixpoint rfind_char (c : ascii) (s : string) : option nat :=
  match s with
  | EmptyString => None
  | String d s' =>
      match rfind_char c s' with
      | Some i => Some (S i)
      | None => if Ascii.eqb c d then Some 0 else None
      end
  end.

(** [p.suffix]: the last dot-separated part of the name, if the dot is
    neither the first nor the last character of the name. *)
Definition suffix (p : string) : string :=
  let name := path_name p in
  match rfind_char "." name with
  | Some i =>
      if Nat.ltb 0 i && Nat.ltb (S i) (String.length name)
      then String.substring i (String.length name - i) name
      else ""
  | None => ""
  end.

(** ** Worlds, events and outcomes *)

Inductive node :=
| File (content : string)
| Dir.

Inductive mark := Plain | Success | Warning | Error | Info.

(** What a run does that can be observed from outside. *)
Inductive event :=
| Print (m : mark) (text : string)
| Input (prompt : string)
| Spawn (argv : list string)
| Probe (path : string)
| OpenRead (path : string)
| OpenWrite (path : string)
| SetEnv (key value : string)
| Call (function : string)
| Return (function : string) (truthy : bool).

Record world := World {
  fs : gmap string node;
  env : gmap string string;
  stdin : list string;
  out : list event
}.

(** The exception classes the programs can meet, all below [Exception]. *)
Inductive exn_class :=
| KeyError | TypeError | AttributeError | ValueError | JSONDecodeError
| EOFError | FileNotFoundError | IsADirectoryError.

(** An exception: its class and [str(e)]. *)
Record exn := Exn { class : exn_class; message : string }.

Inductive outcome (A : Type) :=
| Ret (a : A)
| Raise (e : exn)
| Exit (code : Z).
Arguments Ret {A} a.
Arguments Raise {A} e.
Arguments Exit {A} code.

Definition M (A : Type) : Type := world -> outcome A * world.

Definition ret {A} (a : A) : M A := fun w => (Ret a, w).
Definition raise {A} (e : exn) : M A := fun w => (Raise e, w).
Definition sys_exit {A} (code : Z) : M A := fun w => (Exit code, w).

Definition bind {A B} (m : M A) (k : A -> M B) : M B :=
  fun w =>
    match m w with
    | (Ret a, w') => k a w'
    | (Raise e, w') => (Raise e, w')
    | (Exit c, w') => (Exit c, w')
    end.

Declare Scope py_scope.
Delimit Scope py_scope with py.
Notation "x <- m ;; k" := (bind m (fun x => k))
  (at level 100, m at next level, k at level 200, only parsing) : py_scope.
Notation "m ;; k" := (bind m (fun _ => k))
  (at level 100, k at level 200, only parsing) : py_scope.
Local Open Scope py_scope.

(** [try: m except <handles>: handler] *)
Definition try_except {A} (m : M A) (handles : exn -> bool)
    (handler : exn -> M A) : M A :=
  fun w =>
    match m w with
    | (Raise e, w') => if handles e then handler e w' else (Raise e, w')
    | r => r
    end.

(** [IOError] is [OSError]; both file errors are subclasses. *)
Definition is_OSError (e : exn) : bool :=
  match class e with
  | FileNotFoundError | IsADirectoryError => true
  | _ => false
  end.

(** The text [print] shows for a string between quotes. *)
Definition quoted (s : string) : string := "'" +:+ s +:+ "'".

Definition emit (e : event) : M unit :=
  fun w => (Ret tt, World (fs w) (env w) (stdin w) (out w ++ [e])).

Definition print (m : mark) (text : string) : M unit := emit (Print m text).

(** [input(prompt)]: the next line of standard input, [EOFError] at its end. *)
Definition input (prompt : string) : M string :=
  fun w =>
    let o := out w ++ [Input prompt] in
    match stdin w with
    | [] => (Raise (Exn EOFError "EOF when reading a line"),
             World (fs w) (env w) [] o)
    | l :: rest => (Ret l, World (fs w) (env w) rest o)
    end.

(** [path.exists()] *)
Definition path_exists (p : string) : M bool :=
  fun w =>
    (Ret (bool_decide (is_Some (fs w !! p))),
     World (fs w) (env w) (stdin w) (out w ++ [Probe p])).

(** [open(p, 'r').read()] *)
Definition read_file (p : string) : M string :=
  fun w =>
    let w' := World (fs w) (env w) (stdin w) (out w ++ [OpenRead p]) in
    match fs w !! p with
    | Some (File c) => (Ret c, w')
    | Some Dir =>
        (Raise (Exn IsADirectoryError
                  ("[Errno 21] Is a directory: " +:+ quoted p)), w')
    | None =>
        (Raise (Exn FileNotFoundError
                  ("[Errno 2] No such file or directory: " +:+ quoted p)), w')
    end.

(** [open(p, 'w').write(c)] *)
Definition write_file (p c : string) : M unit :=
  fun w =>
    let o := out w ++ [OpenWrite p] in
    match fs w !! p with
    | Some Dir =>
        (Raise (Exn IsADirectoryError
                  ("[Errno 21] Is a directory: " +:+ quoted p)),
         World (fs w) (env w) (stdin w) o)
    | _ => (Ret tt, World (<[p := File c]> (fs w)) (env w) (stdin w) o)
    end.

(** [os.environ.get(k)] and [os.environ[k] = v] *)
Definition getenv (k : string) : M (option string) :=
  fun w => (Ret (env w !! k), w).

Definition setenv (k v : string) : M unit :=
  fun w =>
    (Ret tt,
     World (fs w) (<[k := v]> (env w)) (stdin w) (out w ++ [SetEnv k v])).

(** Decimal text of a number, as an f-string shows it. *)
Definition str_of_nat (n : nat) : string :=
  NilZero.string_of_uint (Nat.to_uint n).

(** [sorted(set(l))]: ascending code point order, without repetitions. *)
Fixpoint insert_sorted (s : string) (l : list string) : list string :=
  match l with
  | [] => [s]
  | x :: l' =>
      match String.compare s x with
      | Lt => s :: l
      | Eq => l
      | Gt => x :: insert_sorted s l'
      end
  end.

Definition sorted_set (l : list string) : list string :=
  List.fold_right insert_sorted [] l.

(** * scripts/check_encoded_strings.py *)

Module CheckEncodedStrings.

(** What [yaml.safe_load] builds.  Keys of mappings are strings, and a
    document is a tree (no node is reached through two paths). *)
Inductive yaml :=
| YNone
| YBool (b : bool)
| YInt (n : Z)
| YStr (s : string)
| YBytes (data : list byte)
| YList (items : list yaml)
| YDict (entries : list (string * yaml)).

(** The library functions the script calls.  A failing call gives [inl]
    with the text of the exception. *)
Record library := Library {
  gzip_decompress : list byte -> string + list byte;
  decode_utf8 : list byte -> string + string;
  safe_load : string -> string + yaml;
  dump : yaml -> string;
  str_of : yaml -> string;
  unified_diff : string -> string -> string -> string -> string;
  glob : gmap string node -> string -> list string
}.

(** ** Dictionaries, in insertion order *)

Fixpoint dict_get (k : string) (d : list (string * yaml)) : option yaml :=
  match d with
  | [] => None
  | (k', v) :: d' => if String.eqb k k' then Some v else dict_get k d'
  end.

Definition has_key (k : string) (d : list (string * yaml)) : bool :=
  match dict_get k d with Some _ => true | None => false end.

(** [d[k] = v]: in place for a key that is there, at the end otherwise. *)
Fixpoint dict_set (k : string) (v : yaml) (d : list (string * yaml))
    : list (string * yaml) :=
  match d with
  | [] => [(k, v)]
  | (k', v') :: d' =>
      if String.eqb k k' then (k, v) :: d' else (k', v') :: dict_set k v d'
  end.

Fixpoint dict_del (k : string) (d : list (string * yaml))
    : list (string * yaml) :=
  match d with
  | [] => []
  | (k', v') :: d' =>
      if String.eqb k k' then d' else (k', v') :: dict_del k d'
  end.

(** ** The operators of Python the script applies to parsed values *)

Definition type_name (v : yaml) : string :=
  match v with
  | YNone => "NoneType"
  | YBool _ => "bool"
  | YInt _ => "int"
  | YStr _ => "str"
  | YBytes _ => "bytes"
  | YList _ => "list"
  | YDict _ => "dict"
  end.

Definition is_str (k : string) (v : yaml) : bool :=
  match v with YStr s => String.eqb s k | _ => false end.

(** [k in v] for a string literal [k] *)
Definition py_in (k : string) (v : yaml) : M bool :=
  match v with
  | YDict d => ret (has_key k d)
  | YList l => ret (existsb (is_str k) l)
  | YStr s => ret (contains k s)
  | YBytes _ =>
      raise (Exn TypeError "a bytes-like object is required, not 'str'")
  | _ =>
      raise (Exn TypeError
               ("argument of type " +:+ quoted (type_name v)
                +:+ " is not iterable"))
  end.

(** [v[k]] for a string literal [k] *)
Definition py_getitem (v : yaml) (k : string) : M yaml :=
  match v with
  | YDict d =>
      match dict_get k d with
      | Some x => ret x
      | None => raise (Exn KeyError (quoted k))
      end
  | YList _ =>
      raise (Exn TypeError "list indices must be integers or slices, not str")
  | YStr _ =>
      raise (Exn TypeError "string indices must be integers, not 'str'")
  | YBytes _ =>
      raise (Exn TypeError "byte indices must be integers or slices, not str")
  | _ =>
      raise (Exn TypeError
               (quoted (type_name v) +:+ " object is not subscriptable"))
  end.

(** [v[k] = x] on a value known to be a dict *)
Definition py_setitem (v : yaml) (k : string) (x : yaml) : yaml :=
  match v with
  | YDict d => YDict (dict_set k x d)
  | _ => v
  end.

(** [v[:10]] *)
Definition py_slice10 (v : yaml) : M yaml :=
  match v with
  | YStr s => ret (YStr (String.substring 0 10 s))
  | YBytes b => ret (YBytes (firstn 10 b))
  | YList l => ret (YList (firstn 10 l))
  | YDict _ => raise (Exn TypeError "unhashable type: 'slice'")
  | _ =>
      raise (Exn TypeError
               (quoted (type_name v) +:+ " object is not subscriptable"))
  end.

Fixpoint chars (s : string) : list yaml :=
  match s with
  | EmptyString => []
  | String c s' => YStr (String c EmptyString) :: chars s'
  end.

(** The elements [for x in v] visits *)
Definition py_iter (v : yaml) : M (list yaml) :=
  match v with
  | YList l => ret l
  | YDict d => ret (List.map (fun kv => YStr (fst kv)) d)
  | YStr s => ret (chars s)
  | YBytes b => ret (List.map (fun x => YInt (Z.of_N (Byte.to_N x))) b)
  | _ =>
      raise (Exn TypeError
               (quoted (type_name v) +:+ " object is not iterable"))
  end.

(** [v.pop(k)] for a string literal [k]: the value left behind *)
Definition py_pop (v : yaml) (k : string) : M yaml :=
  match v with
  | YDict d =>
      if has_key k d then ret (YDict (dict_del k d))
      else raise (Exn KeyError (quoted k))
  | YList _ =>
      raise (Exn TypeError "'str' object cannot be interpreted as an integer")
  | _ =>
      raise (Exn AttributeError
               (quoted (type_name v) +:+ " object has no attribute 'pop'"))
  end.

Section Script.

Variable L : library.

(** [decompress_gzip_string] *)
Definition decompress_gzip_string (compressed_data : list byte)
    : M (option string) :=
  match gzip_decompress L compressed_data with
  | inl e => print Plain ("Error decompressing: " +:+ e) ;; ret None
  | inr raw =>
      match decode_utf8 L raw with
      | inl e => print Plain ("Error decompressing: " +:+ e) ;; ret None
      | inr decompressed => ret (Some decompressed)
      end
  end.

(** The body of the loop of [process_yaml_file] over the interactions: the
    interaction as the loop leaves it, and whether it set [modified]. *)
Definition process_interaction (file_path : string) (interaction : yaml)
    : M (yaml * bool) :=
  has_response <- py_in "response" interaction ;;
  if negb has_response then ret (interaction, false) else
  response <- py_getitem interaction "response" ;;
  has_body <- py_in "body" response ;;
  if negb has_body then ret (interaction, false) else
  body <- py_getitem response "body" ;;
  match body with
  | YDict b =>
      match dict_get "string" b with
      | Some string_val =>
          shown <- py_slice10 string_val ;;
          print Plain (str_of L shown) ;;
          match string_val with
          | YBytes data =>
              decompressed <- decompress_gzip_string (strip_bytes data) ;;
              match decompressed with
              | Some text =>
                  if nonempty text then
                    let body' := py_setitem body "string" (YStr text) in
                    let response' := py_setitem response "body" body' in
                    headers <- py_getitem response' "headers" ;;
                    headers' <- py_pop headers "Content-Encoding" ;;
                    let response'' :=
                      py_setitem response' "headers" headers' in
                    print Success
                      ("Decompressed response body in " +:+ file_path) ;;
                    ret (py_setitem interaction "response" response'', true)
                  else ret (interaction, false)
              | None => ret (interaction, false)
              end
          | _ => ret (interaction, false)
          end
      | None => ret (interaction, false)
      end
  | _ => ret (interaction, false)
  end.

Fixpoint process_interactions (file_path : string) (l : list yaml)
    : M (list yaml * bool) :=
  match l with
  | [] => ret ([], false)
  | interaction :: rest =>
      r <- process_interaction file_path interaction ;;
      rs <- process_interactions file_path rest ;;
      ret (fst r :: fst rs, snd r || snd rs)
  end.

(** The loop [for interaction in data['interactions']] on the parsed
    document: the document as the loop leaves it and [modified]. *)
Definition process_data (file_path : string) (data : yaml)
    : M (yaml * bool) :=
  match data with
  | YDict d =>
      match dict_get "interactions" d with
      | Some v =>
          items <- py_iter v ;;
          r <- process_interactions file_path items ;;
          match v with
          | YList _ =>
              ret (YDict (dict_set "interactions" (YList (fst r)) d), snd r)
          | _ => ret (data, snd r)
          end
      | None => ret (data, false)
      end
  | _ => ret (data, false)
  end.

Definition question : string := nl +:+ "[y]es / [n]o / [q]uit? ".

(** The loop [while True: response = input(...)] of [process_yaml_file],
    over the lines waiting on standard input. *)
Fixpoint confirm (file_path new_content : string) (lines : list string)
    : M bool :=
  fun w =>
    let o := out w ++ [Input question] in
    match lines with
    | [] =>
        (Raise (Exn EOFError "EOF when reading a line"),
         World (fs w) (env w) [] o)
    | line :: rest =>
        let w1 := World (fs w) (env w) rest o in
        let response := lower (strip line) in
        if in_list response ["y"; "yes"] then
          (write_file file_path new_content ;;
           print Success ("Saved " +:+ file_path) ;;
           ret true) w1
        else if in_list response ["n"; "no"] then
          (print Error ("Skipped " +:+ file_path) ;; ret false) w1
        else if in_list response ["q"; "quit"] then
          (print Plain "Exiting..." ;; sys_exit 0) w1
        else confirm file_path new_content rest w1
    end.

Definition rule : string := repeat_string "=" 80.

(** [process_yaml_file] *)
Definition process_yaml_file (file_path : string) : M bool :=
  content <- read_file file_path ;;
  let original_content := content in
  match safe_load L content with
  | inl e => print Plain ("Error parsing YAML: " +:+ e) ;; ret false
  | inr data =>
      r <- process_data file_path data ;;
      if negb (snd r) then
        print Plain ("No gzip bodies found in " +:+ file_path) ;; ret false
      else
        let new_content := dump L (fst r) in
        print Plain (nl +:+ rule) ;;
        print Plain ("File: " +:+ file_path) ;;
        print Plain (rule +:+ nl) ;;
        print Plain
          (unified_diff L original_content new_content
             (file_path +:+ " (original)")
             (file_path +:+ " (decompressed)")) ;;
        (fun w => confirm file_path new_content (stdin w) w)
  end.

(** [expand_glob_patterns] *)
Fixpoint expand_patterns (patterns : list string) : M (list string) :=
  match patterns with
  | [] => ret []
  | pattern :: rest =>
      expanded <- (fun w => (Ret (glob L (fs w) pattern), w)) ;;
      (if match expanded with [] => true | _ => false end
       then print Warning ("No files matched: " +:+ pattern)
       else ret tt) ;;
      files <- expand_patterns rest ;;
      ret (expanded ++ files)
  end.

Definition expand_glob_patterns (patterns : list string) : M (list string) :=
  files <- expand_patterns patterns ;;
  ret (sorted_set files).

(** The loop of [main] over the files, with the counter [processed]. *)
Fixpoint main_loop (file_paths : list string) (processed : nat) : M nat :=
  match file_paths with
  | [] => ret processed
  | file_path :: rest =>
      let file_obj := Path file_path in
      present <- path_exists file_obj ;;
      if negb present then
        print Error ("File not found: " +:+ file_path) ;;
        main_loop rest processed
      else if negb (in_list (suffix file_obj) [".yaml"; ".yml"]) then
        print Warning
          ("Skipping " +:+ file_path +:+ " (not a .yaml/.yml file)") ;;
        main_loop rest processed
      else
        processed' <-
          try_except
            (saved <- process_yaml_file file_obj ;;
             ret (if saved : bool then S processed else processed))
            (fun _ => true)
            (fun e =>
               print Error
                 ("Error processing " +:+ file_path +:+ ": " +:+ message e) ;;
               ret processed) ;;
        print Plain "" ;;
        main_loop rest processed'
  end.

Definition usage : M unit :=
  print Plain "Usage: python script.py <pattern> [<pattern> ...]" ;;
  print Plain "Examples:" ;;
  print Plain "  python script.py file.yaml" ;;
  print Plain "  python script.py '*.yaml'" ;;
  print Plain "  python script.py 'tests/**/*.yaml'" ;;
  print Plain "  python script.py 'cassettes/*.yaml' 'fixtures/*.yaml'".

(** [main], given [sys.argv] *)
Definition main (argv : list string) : M unit :=
  if Nat.ltb (List.length argv) 2 then usage ;; sys_exit 1 else
  file_paths <- expand_glob_patterns (List.tl argv) ;;
  match file_paths with
  | [] =>
      print Error "No files found matching the provided patterns" ;;
      sys_exit 1
  | _ =>
      print Plain
        ("Found " +:+ str_of_nat (List.length file_paths)
         +:+ " file(s) to process" +:+ nl) ;;
      processed <- main_loop file_paths 0 ;;
      print Plain (nl +:+ rule) ;;
      print Plain
        ("Summary: " +:+ str_of_nat processed +:+ " file(s) modified") ;;
      print Plain rule
  end.

End Script.

End CheckEncodedStrings.

(** * gcloud_setup.py *)

Module GcloudSetup.

(** What [json.load] builds. *)
Inductive json :=
| JNull
| JBool (b : bool)
| JNum (n : Z)
| JStr (s : string)
| JList (items : list json)
| JDict (entries : list (string * json)).

(** A [datetime]: microseconds since the epoch, read in UTC when the value
    carries a time zone ([aware]) and on the wall clock when it does not. *)
Record datetime := Datetime { instant : Z; aware : bool }.

(** The library functions the checker calls.  A failing call gives [inl]
    with the text of the exception. *)
Record library := Library {
  json_load : string -> string + json;
  fromisoformat : string -> string + datetime
}.

(** The result of [subprocess.run(..., capture_output=True, text=True)]. *)
Record completed := Completed {
  returncode : Z;
  stdout : string;
  stderr : string
}.

(** What the checker finds around it and does not change: the platform, the
    home directory, the clock, and what a command answers when it is run
    with a given environment ([None]: no such program).  The state gcloud
    answers from is not part of the modelled file system. *)
Record host := Host {
  win32 : bool;
  home : string;
  now : Z;
  run : gmap string string -> list string -> option completed
}.

Fixpoint dict_get (k : string) (d : list (string * json)) : option json :=
  match d with
  | [] => None
  | (k', v) :: d' => if String.eqb k k' then Some v else dict_get k d'
  end.

Definition has_key (k : string) (d : list (string * json)) : bool :=
  match dict_get k d with Some _ => true | None => false end.

Definition type_name (v : json) : string :=
  match v with
  | JNull => "NoneType"
  | JBool _ => "bool"
  | JNum _ => "int"
  | JStr _ => "str"
  | JList _ => "list"
  | JDict _ => "dict"
  end.

Definition is_jstr (s : string) (v : json) : bool :=
  match v with JStr s' => String.eqb s' s | _ => false end.

Definition print_success (message : string) : M unit := print Success message.
Definition print_warning (message : string) : M unit := print Warning message.
Definition print_error (message : string) : M unit := print Error message.
Definition print_info (message : string) : M unit := print Info message.

Section Checker.

Variable H : host.
Variable L : library.

(** [subprocess.run(argv, capture_output=True, text=True, check=False)];
    [None] stands for [FileNotFoundError]. *)
Definition subprocess_run (argv : list string) : M (option completed) :=
  fun w =>
    (Ret (run H (env w) argv),
     World (fs w) (env w) (stdin w) (out w ++ [Spawn argv])).

(** [check_gcloud_installed] *)
Definition check_gcloud_installed : M bool :=
  result <- subprocess_run ["gcloud"; "--version"] ;;
  match result with
  | Some result =>
      if (returncode result =? 0)%Z then
        let version := first_line (stdout result) in
        print_success ("gcloud SDK is installed: " +:+ version) ;;
        ret true
      else
        print_error "gcloud SDK is not working properly" ;;
        ret false
  | None =>
      print_error "gcloud SDK is not installed" ;;
      print_info "Install it from: https://cloud.google.com/sdk/docs/install" ;;
      ret false
  end.

(** The default place of the credentials: [Path.home() / '.config' / ...]
    and, on Windows, [Path(os.environ.get('APPDATA', '')) / ...]. *)
Definition default_adc_path : M string :=
  if win32 H then
    appdata <- getenv "APPDATA" ;;
    ret (joinpath (joinpath (Path (default "" appdata)) "gcloud")
           "application_default_credentials.json")
  else
    ret (joinpath (joinpath (joinpath (Path (home H)) ".config") "gcloud")
           "application_default_credentials.json").

(** [get_adc_path] *)
Definition get_adc_path : M (option string) :=
  named <- getenv "GOOGLE_APPLICATION_CREDENTIALS" ;;
  found <-
    match named with
    | Some value =>
        let path := Path value in
        present <- path_exists path ;;
        ret (if present : bool then Some path else None)
    | None => ret None
    end ;;
  match found with
  | Some path => ret (Some path)
  | None =>
      default_path <- default_adc_path ;;
      present <- path_exists default_path ;;
      if present : bool then ret (Some default_path) else ret None
  end.

(** [creds.get(k, d)] *)
Definition creds_get (creds : json) (k : string) (d : json) : M json :=
  match creds with
  | JDict entries => ret (default d (dict_get k entries))
  | _ =>
      raise (Exn AttributeError
               (quoted (type_name creds) +:+ " object has no attribute 'get'"))
  end.

(** [value.replace('Z', '+00:00')] *)
Definition py_replace (value : json) : M string :=
  match value with
  | JStr s => ret (replace_char "Z" "+00:00" s)
  | _ =>
      raise (Exn AttributeError
               (quoted (type_name value)
                +:+ " object has no attribute 'replace'"))
  end.

(** [datetime.fromisoformat(text)] *)
Definition py_fromisoformat (text : string) : M datetime :=
  match fromisoformat L text with
  | inl e => raise (Exn ValueError e)
  | inr d => ret d
  end.

(** [expiry < now] where [now = datetime.now(timezone.utc)] *)
Definition before_now (expiry : datetime) : M bool :=
  if aware expiry then ret (instant expiry <? now H)%Z
  else
    raise (Exn TypeError
             "can't compare offset-naive and offset-aware datetimes").

Definition is_ValueError (e : exn) : bool :=
  match class e with
  | ValueError | JSONDecodeError => true
  | _ => false
  end.

Definition is_AttributeError (e : exn) : bool :=
  match class e with AttributeError => true | _ => false end.

Definition is_JSONDecodeError (e : exn) : bool :=
  match class e with JSONDecodeError => true | _ => false end.

(** [check_credential_expiry] *)
Definition check_credential_expiry (creds : json) : M (bool * string) :=
  credential_type <- creds_get creds "type" (JStr "unknown") ;;
  if is_jstr "service_account" credential_type then
    ret (true, "service_account")
  else if is_jstr "authorized_user" credential_type then
    expired <-
      match creds with
      | JDict entries =>
          match dict_get "expiry" entries with
          | Some value =>
              try_except
                (text <- py_replace value ;;
                 expiry <- py_fromisoformat text ;;
                 before_now expiry)
                (fun e => is_ValueError e || is_AttributeError e)
                (fun _ => ret false)
          | None => ret false
          end
      | _ => ret false
      end ;;
    if expired : bool then ret (false, "user") else ret (true, "user")
  else ret (true, "other").

(** [check_adc] *)
Definition check_adc : M (bool * option string) :=
  adc_path <- get_adc_path ;;
  match adc_path with
  | None =>
      print_error "Application Default Credentials not found" ;;
      print_info "Run one of the following commands:" ;;
      print_info
        "  For user credentials: gcloud auth application-default login" ;;
      print_info
        "  For service account: export GOOGLE_APPLICATION_CREDENTIALS=/path/to/key.json" ;;
      ret (false, None)
  | Some adc_path =>
      print_success
        ("Found Application Default Credentials at: " +:+ adc_path) ;;
      try_except
        (text <- read_file adc_path ;;
         creds <-
           match json_load L text with
           | inl e => raise (Exn JSONDecodeError e)
           | inr creds => ret creds
           end ;;
         r <- check_credential_expiry creds ;;
         let is_valid := fst r in
         let cred_type := snd r in
         if negb is_valid then
           print_error "Credentials have expired" ;;
           (if String.eqb cred_type "user" then
              print_info "Run: gcloud auth application-default login"
            else if String.eqb cred_type "service_account" then
              print_info
                "Service account key may be invalid. Check your GOOGLE_APPLICATION_CREDENTIALS"
            else ret tt) ;;
           ret (false, Some cred_type)
         else
           (if String.eqb cred_type "user" then
              print_success "User account credentials are valid"
            else if String.eqb cred_type "service_account" then
              print_success "Service account credentials are configured"
            else print_success "Credentials appear to be valid") ;;
           ret (true, Some cred_type))
        (fun e => is_JSONDecodeError e || is_OSError e)
        (fun e =>
           print_error ("Error reading credentials: " +:+ message e) ;;
           ret (false, None))
  end.

(** [get_current_project] *)
Definition get_current_project : M (option string) :=
  result <- subprocess_run ["gcloud"; "config"; "get-value"; "project"] ;;
  match result with
  | Some result =>
      if (returncode result =? 0)%Z && nonempty (strip (stdout result)) then
        let project := strip (stdout result) in
        if nonempty project && negb (String.eqb project "(unset)")
        then ret (Some project) else ret None
      else ret None
  | None => ret None
  end.

(** The closing lines of [set_project_env_var] and [get_region]: how to
    make the variable permanent, by the shell in use. *)
Definition permanent_hint (name value : string) : M unit :=
  shell <- getenv "SHELL" ;;
  let shell := default "" shell in
  if contains "bash" shell then
    print_info
      ("  echo 'export " +:+ name +:+ "=" +:+ value +:+ "' >> ~/.bashrc")
  else if contains "zsh" shell then
    print_info
      ("  echo 'export " +:+ name +:+ "=" +:+ value +:+ "' >> ~/.zshrc")
  else if contains "fish" shell then
    print_info
      ("  echo 'set -gx " +:+ name +:+ " " +:+ value
       +:+ "' >> ~/.config/fish/config.fish")
  else
    print_info
      ("  echo 'export " +:+ name +:+ "=" +:+ value
       +:+ "' >> your shell configuration file").

(** [set_project_env_var] *)
Definition set_project_env_var (project : string) : M bool :=
  existing <- getenv "GOOGLE_CLOUD_PROJECT" ;;
  keep <-
    match existing with
    | Some existing =>
        if nonempty existing then
          if String.eqb existing project then
            print_success
              ("GOOGLE_CLOUD_PROJECT already set to: " +:+ project) ;;
            ret true
          else
            print_warning
              ("GOOGLE_CLOUD_PROJECT is set to " +:+ quoted existing
               +:+ " but active project is " +:+ quoted project) ;;
            response <-
              input ("Update to " +:+ quoted project +:+ "? [Y/n]: ") ;;
            let response := lower (strip response) in
            if nonempty response && negb (String.eqb response "y") then
              print_info "Keeping existing GOOGLE_CLOUD_PROJECT value" ;;
              ret true
            else ret false
        else ret false
    | None => ret false
    end ;;
  if keep : bool then ret true else
  setenv "GOOGLE_CLOUD_PROJECT" project ;;
  print_success
    ("Set GOOGLE_CLOUD_PROJECT=" +:+ project +:+ " for this session") ;;
  print_info
    (nl +:+ "To make this permanent, add to your shell configuration:") ;;
  permanent_hint "GOOGLE_CLOUD_PROJECT" project ;;
  ret true.

Definition known_regions : list string :=
  ["us-central1"; "us-east4"; "europe-west1"; "europe-west4";
   "asia-southeast1"].

(** The loop [while True: region = input(...)] of [get_region], over the
    lines waiting on standard input. *)
Fixpoint ask_region (lines : list string) : M string :=
  fun w =>
    let o :=
      out w ++ [Input (nl +:+ "Enter your region (default: europe-west1): ")]
    in
    match lines with
    | [] =>
        (Raise (Exn EOFError "EOF when reading a line"),
         World (fs w) (env w) [] o)
    | line :: rest =>
        let w1 := World (fs w) (env w) rest o in
        let region := strip line in
        let region := if nonempty region then region else "europe-west1" in
        if Nat.leb 2 (count_char "-" region) || in_list region known_regions
        then (Ret region, w1)
        else
          (print_warning
             "Region format looks incorrect. Please use format like 'us-central1'" ;;
           ask_region rest) w1
    end.

(** [os.environ.get('GOOGLE_CLOUD_REGION') or os.environ.get('GCP_REGION')] *)
Definition region_from_env : M (option string) :=
  first <- getenv "GOOGLE_CLOUD_REGION" ;;
  match first with
  | Some r => if nonempty r then ret (Some r) else getenv "GCP_REGION"
  | None => getenv "GCP_REGION"
  end.

(** The part of [get_region] that asks gcloud: the region it answers, when
    the user accepts it. *)
Definition region_from_gcloud : M (option string) :=
  result <-
    subprocess_run ["gcloud"; "config"; "get-value"; "compute/region"] ;;
  match result with
  | Some result =>
      if (returncode result =? 0)%Z && nonempty (strip (stdout result)) then
        let region := strip (stdout result) in
        if nonempty region && negb (String.eqb region "(unset)") then
          print_success ("Using region from gcloud config: " +:+ region) ;;
          response <- input "Use this region? [Y/n]: " ;;
          let response := lower (strip response) in
          if negb (nonempty response) || String.eqb response "y"
          then ret (Some region) else ret None
        else ret None
      else ret None
  | None => ret None
  end.

(** [get_region] *)
Definition get_region : M string :=
  region <- region_from_env ;;
  match region with
  | Some (String _ _ as region) =>
      print_success ("Using region from environment: " +:+ region) ;;
      ret region
  | _ =>
      accepted <- region_from_gcloud ;;
      match accepted with
      | Some region => ret region
      | None =>
          print_info (nl +:+ "Common Vertex AI regions:") ;;
          print_info "  us-central1    (Iowa)" ;;
          print_info "  us-east4       (Virginia)" ;;
          print_info "  europe-west1   (Belgium)" ;;
          print_info "  europe-west4   (Netherlands)" ;;
          print_info "  asia-southeast1 (Singapore)" ;;
          print_info
            (nl +:+ "For the full list, see: https://cloud.google.com/vertex-ai/docs/general/locations") ;;
          region <- (fun w => ask_region (stdin w) w) ;;
          setenv "GOOGLE_CLOUD_REGION" region ;;
          print_success
            ("Set GOOGLE_CLOUD_REGION=" +:+ region +:+ " for this session") ;;
          print_info
            (nl +:+ "To make this permanent, add to your shell configuration:") ;;
          permanent_hint "GOOGLE_CLOUD_REGION" region ;;
          ret region
      end
  end.

Definition services_query (project : string) : list string :=
  ["gcloud"; "services"; "list"; "--enabled";
   "--filter=name:aiplatform.googleapis.com"; "--format=value(name)";
   "--project=" +:+ project].

(** [check_vertex_api_enabled] *)
Definition check_vertex_api_enabled (project : string) : M bool :=
  result <- subprocess_run (services_query project) ;;
  match result with
  | Some result =>
      if (returncode result =? 0)%Z then
        if contains "aiplatform.googleapis.com" (stdout result) then
          print_success "Vertex AI API is enabled" ;;
          ret true
        else
          print_warning "Vertex AI API is not enabled" ;;
          print_info "Enable it with:" ;;
          print_info
            ("  gcloud services enable aiplatform.googleapis.com --project="
             +:+ project) ;;
          print_info
            "Or visit: https://console.cloud.google.com/apis/library/aiplatform.googleapis.com" ;;
          ret false
      else
        print_warning "Could not verify if Vertex AI API is enabled" ;;
        print_info ("Error: " +:+ strip (stderr result)) ;;
        print_info
          "You may not have permission to list services, or the API might not be enabled" ;;
        ret false
  | None =>
      print_warning
        "Could not check Vertex AI API status (gcloud not available)" ;;
      ret false
  end.

(** A call of one of the functions [main] sequences, as a profiler sees
    it: the call, what the function does, and the truth value of what it
    returns; an exception leaves the call without a return. *)
Definition traced {A} (name : string) (truthy : A -> bool) (m : M A) : M A :=
  emit (Call name) ;;
  r <- m ;;
  emit (Return name (truthy r)) ;;
  ret r.

Definition truthy_opt (o : option string) : bool :=
  match o with Some s => nonempty s | None => false end.

Definition rule : string := repeat_string "=" 60.

(** [main]: the exit status it returns *)
Definition main : M Z :=
  print Plain (nl +:+ "Google Cloud Vertex AI Setup Validator" +:+ nl) ;;
  installed <- traced "check_gcloud_installed" id check_gcloud_installed ;;
  if negb installed then
    print_error (nl +:+ "Setup incomplete: gcloud SDK not found") ;;
    ret 1%Z
  else
  print Plain "" ;;
  adc <- traced "check_adc" fst check_adc ;;
  let adc_valid := fst adc in
  let cred_type := snd adc in
  if negb adc_valid then
    print_error
      (nl +:+ "Setup incomplete: Application Default Credentials not valid") ;;
    ret 1%Z
  else
  print Plain "" ;;
  project <- traced "get_current_project" truthy_opt get_current_project ;;
  if negb (truthy_opt project) then
    print_error "No active gcloud project found" ;;
    print_info "Set a project with: gcloud config set project PROJECT_ID" ;;
    print_error (nl +:+ "Setup incomplete: No project configured") ;;
    ret 1%Z
  else
  let project := default "" project in
  print_success ("Active gcloud project: " +:+ project) ;;
  exported <- traced "set_project_env_var" id (set_project_env_var project) ;;
  if negb exported then
    print_error
      (nl +:+ "Setup incomplete: Could not set project environment variable") ;;
    ret 1%Z
  else
  print Plain "" ;;
  region <- traced "get_region" nonempty get_region ;;
  if negb (nonempty region) then
    print_error (nl +:+ "Setup incomplete: No region configured") ;;
    ret 1%Z
  else
  print Plain "" ;;
  api_enabled <-
    traced "check_vertex_api_enabled" id (check_vertex_api_enabled project) ;;
  print Plain (nl +:+ rule) ;;
  print Plain "Setup Summary" ;;
  print Plain rule ;;
  print_success ("Project: " +:+ project) ;;
  print_success ("Region: " +:+ region) ;;
  print_success
    ("Credentials: "
     +:+ match cred_type with
         | Some (String _ _ as t) => t
         | _ => "configured"
         end) ;;
  if api_enabled : bool then
    print_success "Vertex AI API: enabled" ;;
    print Plain (nl +:+ "All checks passed!") ;;
    print_info (nl +:+ "You can now use llm-anthropic-vertex:") ;;
    print_info "  llm -m vertex-4.5-sonnet 'Hello!'" ;;
    ret 0%Z
  else
    print_warning "Vertex AI API: not verified/enabled" ;;
    print Plain
      (nl +:+ "Setup mostly complete, but please enable Vertex AI API") ;;
    ret 0%Z.

End Checker.

End GcloudSetup.

(** * The tool-call threading of the adapter *)

Module Adapter.

(** Modelled from the spec: the adapter (the plugin module itself) and the
    chain loop it takes part in are not among the sources; only the test
    [test_tools] is.  The spec names "multi-turn tool-call threading" and
    "mapping tool-call identifiers back to results": the calls of one
    response are run one after the other, in the order the model made
    them, and each gives one result that carries the identifier of its
    call; the results go into the follow-up prompt in that order. *)

Record tool_call := ToolCall {
  tool_call_id : string;
  name : string
}.

Record tool_result := ToolResult {
  result_call_id : string;
  result_name : string;
  output : option string
}.

(** A tool is a Python function over whatever it closes over ([store]);
    [None] stands for an exception. *)
Definition tool (store : Type) : Type := store -> option string * store.

Section Chain.

Context {store : Type}.
Variable tools : list (string * tool store).

Fixpoint find_tool (n : string) (l : list (string * tool store))
    : option (tool store) :=
  match l with
  | [] => None
  | (n', f) :: l' => if String.eqb n n' then Some f else find_tool n l'
  end.

Definition execute_tool_call (call : tool_call) (s : store)
    : tool_result * store :=
  match find_tool (name call) tools with
  | Some f =>
      let (out, s') := f s in
      (ToolResult (tool_call_id call) (name call) out, s')
  | None => (ToolResult (tool_call_id call) (name call) None, s)
  end.

Fixpoint execute_tool_calls (calls : list tool_call) (s : store)
    : list tool_result * store :=
  match calls with
  | [] => ([], s)
  | call :: rest =>
      let (r, s1) := execute_tool_call call s in
      let (rs, s2) := execute_tool_calls rest s1 in
      (r :: rs, s2)
  end.

End Chain.

(** [test_tools]: the tool [lambda: names.pop(0)] over the shared list
    [names], and the two calls of the first response. *)
Definition pelican_name_generator : tool (list string) :=
  fun names =>
    match names with
    | first :: rest => (Some first, rest)
    | [] => (None, [])
    end.

Definition test_tools_names : list string := ["Charles"; "Sammy"].

Definition test_tools_calls (id1 id2 : string) : list tool_call :=
  [ToolCall id1 "pelican_name_generator";
   ToolCall id2 "pelican_name_generator"].

End Adapter.

(** * Sample files, libraries and hosts

    The values the library functions take on the inputs used in the
    examples below; on other inputs the samples answer with an error. *)

Module Samples.

Definition lines (l : list string) : string :=
  String.concat "" (List.map (fun s => s +:+ nl) l).

Definition dq : string := String (ascii_of_nat 34) EmptyString.

Definition bytes_eqb (a b : list byte) : bool :=
  bool_decide (List.map Byte.to_N a = List.map Byte.to_N b).

(** [gzip.compress(b'hi', mtime=0)] and [gzip.compress(b'', mtime=0)] *)
Definition gz_hi : list byte :=
  [x1f; x8b; x08; x00; x00; x00; x00; x00; x02; x03; xcb; xc8; x04; x00;
   xac; x2a; x93; xd8; x02; x00; x00; x00].

Definition gz_empty : list byte :=
  [x1f; x8b; x08; x00; x00; x00; x00; x00; x02; x03; x03; x00; x00; x00;
   x00; x00; x00; x00; x00; x00].

Module Script.
Import CheckEncodedStrings.

Definition content_encoding : list (string * yaml) :=
  [("Content-Encoding", YList [YStr "gzip"])].

Definition interaction_with (body_string : yaml)
    (headers : list (string * yaml)) : yaml :=
  YDict [("response",
          YDict [("body", YDict [("string", body_string)]);
                 ("headers", YDict headers)])].

Definition cassette (interaction : yaml) : yaml :=
  YDict [("interactions", YList [interaction])].

(** A cassette in block style, with the body in base64. *)
Definition cassette_text (base64 : string) (headers : list string) : string :=
  lines (["interactions:"; "- response:"; "    body:";
          "      string: !!binary |"; "        " +:+ base64] ++ headers).

Definition with_encoding : list string :=
  ["    headers:"; "      Content-Encoding:"; "      - gzip"].
Definition without_encoding : list string := ["    headers: {}"].

Definition hi_text : string :=
  cassette_text "H4sIAAAAAAACA8vIBACsKpPYAgAAAA==" with_encoding.
Definition hi_bare_text : string :=
  cassette_text "H4sIAAAAAAACA8vIBACsKpPYAgAAAA==" without_encoding.
Definition empty_text : string :=
  cassette_text "H4sIAAAAAAACAwMAAAAAAAAAAAA=" with_encoding.
Definition empty_bare_text : string :=
  cassette_text "H4sIAAAAAAACAwMAAAAAAAAAAAA=" without_encoding.

(** The same cassette as [hi_text], in flow style on one line. *)
Definition hi_flow_text : string :=
  lines ["{'interactions': [{'response': {'body': {'string': !!binary 'H4sIAAAAAAACA8vIBACsKpPYAgAAAA=='}, 'headers': {'Content-Encoding': ['gzip']}}}]}"].

(** What [yaml.dump] writes for the cassette of [hi_text] once its body is
    decompressed. *)
Definition hi_decompressed : yaml := cassette (interaction_with (YStr "hi") []).
Definition hi_decompressed_text : string :=
  lines ["interactions:"; "- response:"; "    body:"; "      string: hi";
         "    headers: {}"].

Fixpoint yaml_eqb (a b : yaml) {struct a} : bool :=
  match a, b with
  | YNone, YNone => true
  | YBool x, YBool y => Bool.eqb x y
  | YInt x, YInt y => Z.eqb x y
  | YStr x, YStr y => String.eqb x y
  | YBytes x, YBytes y => bytes_eqb x y
  | YList x, YList y =>
      (fix all2 (x y : list yaml) : bool :=
         match x, y with
         | [], [] => true
         | a' :: x', b' :: y' => yaml_eqb a' b' && all2 x' y'
         | _, _ => false
         end) x y
  | YDict x, YDict y =>
      (fix all2 (x y : list (string * yaml)) : bool :=
         match x, y with
         | [], [] => true
         | (k, a') :: x', (k', b') :: y' =>
             String.eqb k k' && yaml_eqb a' b' && all2 x' y'
         | _, _ => false
         end) x y
  | _, _ => false
  end.

Definition sample_safe_load (s : string) : string + yaml :=
  if String.eqb s hi_text || String.eqb s hi_flow_text then
    inr (cassette (interaction_with (YBytes gz_hi) content_encoding))
  else if String.eqb s hi_bare_text then
    inr (cassette (interaction_with (YBytes gz_hi) []))
  else if String.eqb s empty_text then
    inr (cassette (interaction_with (YBytes gz_empty) content_encoding))
  else if String.eqb s empty_bare_text then
    inr (cassette (interaction_with (YBytes gz_empty) []))
  else inl "not a sample document".

Definition sample : library := {|
  gzip_decompress b :=
    if bytes_eqb b gz_hi then inr [x68; x69]
    else if bytes_eqb b gz_empty then inr []
    else inl "Not a gzipped file";
  decode_utf8 b := inr (string_of_list_byte b);
  safe_load := sample_safe_load;
  dump d := if yaml_eqb d hi_decompressed then hi_decompressed_text else "";
  str_of v := match v with YStr s => s | _ => "" end;
  unified_diff a b fromfile tofile := "";
  glob files pattern :=
    if bool_decide (is_Some (files !! pattern)) then [pattern] else []
|}.

(** A directory holding one cassette, and the answers typed at the
    prompt. *)
Definition a_yaml (content : string) (answers : list string) : world :=
  World {[ "a.yaml" := File content ]} ∅ answers [].

End Script.

Module Checker.
Import GcloudSetup.

Definition json_text (entries : list (string * string)) : string :=
  "{" +:+ String.concat ", "
            (List.map (fun kv => dq +:+ fst kv +:+ dq +:+ ": "
                                 +:+ dq +:+ snd kv +:+ dq) entries)
  +:+ "}".

Definition service_account_text : string :=
  json_text [("type", "service_account")].
Definition naive_expiry_text : string :=
  json_text [("type", "authorized_user"); ("expiry", "2020-01-01T00:00:00")].

Definition naive_expiry : json :=
  JDict [("type", JStr "authorized_user");
         ("expiry", JStr "2020-01-01T00:00:00")].

Definition sample : library := {|
  json_load s :=
    if String.eqb s service_account_text then
      inr (JDict [("type", JStr "service_account")])
    else if String.eqb s naive_expiry_text then inr naive_expiry
    else if String.eqb s Script.hi_flow_text then
      inl "Expecting property name enclosed in double quotes: line 1 column 2 (char 1)"
    else if String.eqb s Script.hi_decompressed_text then
      inl "Expecting value: line 1 column 1 (char 0)"
    else inl "not a sample document";
  fromisoformat s :=
    if String.eqb s "2020-01-01T00:00:00" then
      inr (Datetime 1577836800000000 false)
    else if String.eqb s "2020-01-01T00:00:00+00:00" then
      inr (Datetime 1577836800000000 true)
    else if String.eqb s "2040-01-01T00:00:00+00:00" then
      inr (Datetime 2208988800000000 true)
    else inl ("Invalid isoformat string: " +:+ quoted s)
|}.

(** A machine with gcloud installed and configured; [services] is what
    [gcloud services list] prints. *)
Definition answers (services : string) (argv : list string)
    : option completed :=
  match argv with
  | ["gcloud"; "--version"] =>
      Some (Completed 0 ("Google Cloud SDK 500.0.0" +:+ nl) "")
  | ["gcloud"; "config"; "get-value"; "project"] =>
      Some (Completed 0 ("demo-project" +:+ nl) "")
  | ["gcloud"; "config"; "get-value"; "compute/region"] =>
      Some (Completed 0 ("europe-west1" +:+ nl) "")
  | "gcloud" :: "services" :: "list" :: _ =>
      Some (Completed 0 services "")
  | _ => None
  end.

Definition linux (services : string) : host := {|
  win32 := false;
  home := "/home/dev";
  now := 1793750400000000;
  run _ argv := answers services argv
|}.

(** A machine without gcloud. *)
Definition bare : host := {|
  win32 := false;
  home := "/home/dev";
  now := 1793750400000000;
  run _ _ := None
|}.

Definition adc : string :=
  "/home/dev/.config/gcloud/application_default_credentials.json".

(** A home directory with service account credentials in the default
    place. *)
Definition configured (answers : list string) : world :=
  World {[ adc := File service_account_text ]} ∅ answers [].

End Checker.

End Samples.

(** * Vocabulary of the properties *)

(** [keeps R m]: every run of [m] takes a world to an [R]-related one. *)
Definition keeps {A} (R : world -> world -> Prop) (m : M A) : Prop :=
  forall w, R w (snd (m w)).

(** [stays m]: no run of [m] ends in [sys.exit]. *)
Definition stays {A} (m : M A) : Prop :=
  forall w c, fst (m w) <> Exit c.

(** The events a stretch of a run added to the trace. *)
Definition grows (Q : event -> bool) (w w' : world) : Prop :=
  exists t, out w' = out w ++ t /\ forallb Q t = true.

(** ** The fixture script *)

Module CheckEncodedStringsSpec.
Import CheckEncodedStrings.

(** [interaction['response']['body']['string']], when the three
    dictionaries are there. *)
Definition body_string (interaction : yaml) : option yaml :=
  match interaction with
  | YDict e =>
      match dict_get "response" e with
      | Some (YDict r) =>
          match dict_get "body" r with
          | Some (YDict b) => dict_get "string" b
          | _ => None
          end
      | _ => None
      end
  | _ => None
  end.

(** [interaction['response']['headers']], when it is a dictionary. *)
Definition response_headers (interaction : yaml)
    : option (list (string * yaml)) :=
  match interaction with
  | YDict e =>
      match dict_get "response" e with
      | Some (YDict r) =>
          match dict_get "headers" r with
          | Some (YDict h) => Some h
          | _ => None
          end
      | _ => None
      end
  | _ => None
  end.

(** The text a [bytes] value holds: gzip, then UTF-8. *)
Definition gunzip (L : library) (data : list byte) : option string :=
  match gzip_decompress L data with
  | inr raw =>
      match decode_utf8 L raw with
      | inr text => Some text
      | inl _ => None
      end
  | inl _ => None
  end.

(** The text the script puts in place of the body of an interaction: the
    body is [bytes] and, stripped of surrounding white space, holds a text
    that is not empty. *)
Definition compressed (L : library) (interaction : yaml) : option string :=
  match body_string interaction with
  | Some (YBytes data) =>
      match gunzip L (strip_bytes data) with
      | Some text => if nonempty text then Some text else None
      | None => None
      end
  | _ => None
  end.

Definition is_compressed (L : library) (interaction : yaml) : bool :=
  match compressed L interaction with Some _ => true | None => false end.

(** An interaction as a cassette records it: the body is a text or
    [bytes], and the response of a body the script will decompress has
    headers with a ['Content-Encoding'] entry. *)
Definition cassette_entry (L : library) (interaction : yaml) : bool :=
  match body_string interaction with
  | Some (YStr _) => true
  | Some (YBytes _) =>
      match compressed L interaction with
      | Some _ =>
          match response_headers interaction with
          | Some h => has_key "Content-Encoding" h
          | None => false
          end
      | None => true
      end
  | _ => false
  end.

(** The interaction with [value] as its body. *)
Definition set_body_string (value : yaml) (interaction : yaml) : yaml :=
  match interaction with
  | YDict e =>
      match dict_get "response" e with
      | Some (YDict r) =>
          match dict_get "body" r with
          | Some (YDict b) =>
              YDict (dict_set "response"
                       (YDict (dict_set "body"
                                 (YDict (dict_set "string" value b)) r)) e)
          | _ => interaction
          end
      | _ => interaction
      end
  | _ => interaction
  end.

(** The interaction without the header [k] of its response. *)
Definition drop_header (k : string) (interaction : yaml) : yaml :=
  match interaction with
  | YDict e =>
      match dict_get "response" e with
      | Some (YDict r) =>
          match dict_get "headers" r with
          | Some (YDict h) =>
              YDict (dict_set "response"
                       (YDict (dict_set "headers"
                                 (YDict (dict_del k h)) r)) e)
          | _ => interaction
          end
      | _ => interaction
      end
  | _ => interaction
  end.

(** What the script makes of an interaction, in the words of its
    docstring: a compressed body is replaced by its text, and the header
    that announces the compression goes. *)
Definition decompressed (L : library) (interaction : yaml) : yaml :=
  match compressed L interaction with
  | Some text =>
      drop_header "Content-Encoding"
        (set_body_string (YStr text) interaction)
  | None => interaction
  end.

(** The answer typed at the prompt is one of [answers]. *)
Definition says (answers : list string) (line : string) : bool :=
  in_list (lower (strip line)) answers.
Arguments says : simpl never.

(** An interaction the script stops at: it would decompress the body, and
    the headers of the response have no ['Content-Encoding'] entry. *)
Definition lacks_encoding (L : library) (interaction : yaml) : bool :=
  match compressed L interaction, response_headers interaction with
  | Some _, Some h => negb (has_key "Content-Encoding" h)
  | _, _ => false
  end.

(** C1 as the specification words it: in a document with a list of
    interactions, every body that is [bytes] and valid gzip is replaced by
    its text, and every body that is a text is kept. *)
Definition replaces_every_gzip_body (L : library) : Prop :=
  forall file_path w d items,
    dict_get "interactions" d = Some (YList items) ->
    exists items' modified w',
      process_data L file_path (YDict d) w
      = (Ret (YDict (dict_set "interactions" (YList items') d), modified),
         w') /\
      Forall2
        (fun i i' =>
           (forall data text,
              body_string i = Some (YBytes data) ->
              gunzip L data = Some text ->
              body_string i' = Some (YStr text)) /\
           (forall s, body_string i = Some (YStr s) ->
                      body_string i' = Some (YStr s)))
        items items'.

(** C4 as the specification words it: a body that is [bytes] and
    decompresses, in a response whose headers have no ['Content-Encoding']
    entry, makes [process_yaml_file] raise [KeyError]. *)
Definition missing_header_raises (L : library) : Prop :=
  forall file_path w content d items i data text h,
    fs w !! file_path = Some (File content) ->
    safe_load L content = inr (YDict d) ->
    dict_get "interactions" d = Some (YList items) ->
    In i items ->
    body_string i = Some (YBytes data) ->
    gunzip L data = Some text ->
    response_headers i = Some h ->
    has_key "Content-Encoding" h = false ->
    exists msg w',
      process_yaml_file L file_path w = (Raise (Exn KeyError msg), w').

Definition is_print (e : event) : bool :=
  match e with Print _ _ => true | _ => false end.

Definition no_prompt (e : event) : bool :=
  match e with Input _ | OpenWrite _ => false | _ => true end.

(** A stretch of a run that leaves the files, the environment and the
    standard input alone. *)
Definition looks (Q : event -> bool) (w w' : world) : Prop :=
  fs w' = fs w /\ env w' = env w /\ stdin w' = stdin w /\ grows Q w w'.

Definition is_yaml (p : string) : bool :=
  in_list (suffix p) [".yaml"; ".yml"].

(** Two file systems with the same paths, and the same content on the
    paths that are not YAML files. *)
Definition same_but_yaml (f f' : gmap string node) : Prop :=
  forall p, (is_Some (f' !! p) <-> is_Some (f !! p)) /\
            (is_yaml p = false -> f' !! p = f !! p).

End CheckEncodedStringsSpec.

(** ** The checker *)

Module GcloudSetupSpec.

(** The queries of gcloud that change nothing. *)
Definition read_only_query (argv : list string) : bool :=
  match argv with
  | ["gcloud"; "--version"] => true
  | ["gcloud"; "config"; "get-value"; _] => true
  | "gcloud" :: "services" :: "list" :: _ => true
  | _ => false
  end.

Definition own_variable (k : string) : bool :=
  String.eqb k "GOOGLE_CLOUD_PROJECT" || String.eqb k "GOOGLE_CLOUD_REGION".

(** What the checker may do: print, read, ask, run a read-only query, set
    one of its two environment variables; never write a file. *)
Definition harmless (e : event) : bool :=
  match e with
  | Spawn argv => read_only_query argv
  | OpenWrite _ => false
  | SetEnv k _ => own_variable k
  | _ => true
  end.

Definition is_call (e : event) : bool :=
  match e with
  | Call _ | Return _ _ => true
  | _ => false
  end.

(** What the functions [main] sequences may do themselves. *)
Definition inner (e : event) : bool := harmless e && negb (is_call e).

(** The calls and returns in a trace. *)
Definition log (t : list event) : list event := List.filter is_call t.

(** A stretch of a run of the checker. *)
Definition checker_step (Q : event -> bool) (w w' : world) : Prop :=
  fs w' = fs w /\
  stdin w' `suffix_of` stdin w /\
  (forall k, own_variable k = false -> env w' !! k = env w !! k) /\
  grows Q w w'.

(** The functions [main] sequences, in the order of the source: the SDK,
    the credentials, the project (found, then exported), the region, the
    Vertex AI API. *)
Definition order : list string :=
  ["check_gcloud_installed"; "check_adc"; "get_current_project";
   "set_project_env_var"; "get_region"; "check_vertex_api_enabled"].

(** The runs of a sequence of checks: each check is called when all before
    it have returned a true value; the first false value of a check other
    than the last ends the run with status 1, an exception ends it there,
    and the last check ends it with status 0 whatever it returns. *)
Inductive run_of : list string -> list event -> outcome Z -> Prop :=
| run_pass f rest l r :
    rest <> [] -> run_of rest l r ->
    run_of (f :: rest) (Call f :: Return f true :: l) r
| run_fail f rest :
    rest <> [] -> run_of (f :: rest) [Call f; Return f false] (Ret 1%Z)
| run_raise f rest e :
    rest <> [] -> run_of (f :: rest) [Call f] (Raise e)
| run_last f b : run_of [f] [Call f; Return f b] (Ret 0%Z).

(** The default place of the credentials file, given the environment. *)
Definition default_location (H : GcloudSetup.host) (e : gmap string string)
    : string :=
  if GcloudSetup.win32 H then
    joinpath (joinpath (Path (default "" (e !! "APPDATA"))) "gcloud")
      "application_default_credentials.json"
  else
    joinpath (joinpath (joinpath (Path (GcloudSetup.home H)) ".config")
                "gcloud")
      "application_default_credentials.json".

Definition is_probe (e : event) : bool :=
  match e with Probe _ => true | _ => false end.

(** [m], run from [w], goes through the checks [checks] as [run_of] says. *)
Definition runs (checks : list string) (m : M Z) (w : world) : Prop :=
  exists t, out (snd (m w)) = out w ++ t /\
            run_of checks (log t) (fst (m w)).

(** [m], run from [w], returns [a] without any call of a check. *)
Definition ends_with {A} (a : A) (m : M A) (w : world) : Prop :=
  fst (m w) = Ret a /\
  exists t, out (snd (m w)) = out w ++ t /\ log t = [].

(** [m] always returns a value. *)
Definition returns {A} (m : M A) : Prop :=
  forall w, exists a, fst (m w) = Ret a.

End GcloudSetupSpec.

(** ** The two programs side by side *)

Module Independence.

(** The modules each program imports ([import] and [from ... import]). *)
Definition gcloud_setup_imports : list string :=
  ["json"; "os"; "subprocess"; "sys"; "datetime"; "pathlib"; "typing"].

Definition check_encoded_strings_imports : list string :=
  ["sys"; "gzip"; "base64"; "glob"; "pathlib"; "yaml"; "difflib"].

(** A run of a program in a process of its own, on the files [disk]: how it
    ends, what it shows, and the files it leaves.  The two programs meet
    nowhere but on the disk. *)
Definition run_checker (H : GcloudSetup.host) (L : GcloudSetup.library)
    (e : gmap string string) (typed : list string) (disk : gmap string node)
    : outcome Z * list event * gmap string node :=
  let r := GcloudSetup.main H L (World disk e typed []) in
  (fst r, out (snd r), fs (snd r)).

Definition run_script (L : CheckEncodedStrings.library) (argv : list string)
    (typed : list string) (disk : gmap string node)
    : outcome unit * list event * gmap string node :=
  let r := CheckEncodedStrings.main L argv (World disk ∅ typed []) in
  (fst r, out (snd r), fs (snd r)).

(** What a run shows: how it ends and its trace. *)
Definition shown {A} (r : outcome A * list event * gmap string node)
    : outcome A * list event :=
  fst r.

Definition disk_after {A} (r : outcome A * list event * gmap string node)
    : gmap string node :=
  snd r.

(** C10 as the specification words it: neither program imports the other,
    and what either run shows is the same whether or not the other has
    run before it. *)
Definition unaffected_by_each_other : Prop :=
  ~ In "check_encoded_strings" gcloud_setup_imports /\
  ~ In "gcloud_setup" check_encoded_strings_imports /\
  forall H Lc Ls e typed_c argv typed_s disk,
    shown (run_checker H Lc e typed_c
             (disk_after (run_script Ls argv typed_s disk)))
    = shown (run_checker H Lc e typed_c disk) /\
    run_script Ls argv typed_s
      (disk_after (run_checker H Lc e typed_c disk))
    = run_script Ls argv typed_s disk.

(** The places the checker can take its credentials from are not YAML
    files. *)
Definition credentials_not_yaml (H : GcloudSetup.host)
    (e : gmap string string) : Prop :=
  (forall v, e !! "GOOGLE_APPLICATION_CREDENTIALS" = Some v ->
             CheckEncodedStringsSpec.is_yaml (Path v) = false) /\
  CheckEncodedStringsSpec.is_yaml (GcloudSetupSpec.default_location H e)
  = false.

(** Two worlds the checker cannot tell apart. *)
Definition aligned (H : GcloudSetup.host) (w1 w2 : world) : Prop :=
  CheckEncodedStringsSpec.same_but_yaml (fs w1) (fs w2) /\
  env w1 = env w2 /\ stdin w1 = stdin w2 /\ out w1 = out w2 /\
  credentials_not_yaml H (env w1).

(** [m] does the same in worlds the checker cannot tell apart, and gives
    values that satisfy [P]. *)
Definition blind {A} (H : GcloudSetup.host) (P : A -> Prop) (m : M A)
    : Prop :=
  forall w1 w2, aligned H w1 w2 ->
    fst (m w1) = fst (m w2) /\ aligned H (snd (m w1)) (snd (m w2)) /\
    forall a, fst (m w1) = Ret a -> P a.

End Independence.

(** [ends V E X m]: a run of [m] returns a value in [V], raises an
    exception in [E] or exits with a status in [X]. *)
Definition ends {A} (V : A -> Prop) (E : exn -> Prop) (X : Z -> Prop)
    (m : M A) : Prop :=
  forall w,
    match fst (m w) with
    | Ret a => V a
    | Raise e => E e
    | Exit c => X c
    end.

(** ** More of the checker *)

Module GcloudSetupMoreSpec.

(** The exceptions that leave the checker: the end of the standard input
    at a prompt, credentials that are not a JSON object, and an expiry
    without a time zone. *)
Definition escapes (e : exn) : Prop :=
  class e = EOFError \/ class e = AttributeError \/ class e = TypeError.

Definition credential_types : list string :=
  ["user"; "service_account"; "other"].

(** The region [get_region] makes of a line typed at its prompt, and
    whether its format check lets it through. *)
Definition region_of (line : string) : string :=
  if nonempty (strip line) then strip line else "europe-west1".

Definition accepted (line : string) : bool :=
  Nat.leb 2 (count_char "-" (region_of line))
  || in_list (region_of line) GcloudSetup.known_regions.

Definition is_warning (e : event) : bool :=
  match e with Print Warning _ => true | _ => false end.

Definition is_input (e : event) : bool :=
  match e with Input _ => true | _ => false end.

Definition is_spawn (e : event) : bool :=
  match e with Spawn _ => true | _ => false end.

Definition not_input (e : event) : bool := negb (is_input e).

(** [m], started in an environment where [P] holds, takes nothing from the
    standard input and does not prompt; when it returns [a], it leaves an
    environment where [Q a] holds. *)
Definition unattended {A} (P : gmap string string -> Prop) (m : M A)
    (Q : A -> gmap string string -> Prop) : Prop :=
  forall w, P (env w) ->
    stdin (snd (m w)) = stdin w /\
    grows not_input w (snd (m w)) /\
    match fst (m w) with
    | Ret a => Q a (env (snd (m w)))
    | _ => True
    end.

(** The environment of a run that needs no answer: no project exported
    yet, and a region. *)
Definition ready (r : string) (e : gmap string string) : Prop :=
  default "" (e !! "GOOGLE_CLOUD_PROJECT") = "" /\
  e !! "GOOGLE_CLOUD_REGION" = Some r /\ nonempty r = true.

Definition has_region (r : string) (e : gmap string string) : Prop :=
  e !! "GOOGLE_CLOUD_REGION" = Some r /\ nonempty r = true.

End GcloudSetupMoreSpec.

(** ** More of the fixture script *)

Module CheckEncodedStringsMoreSpec.
Import CheckEncodedStrings CheckEncodedStringsSpec.

(** Strictly ascending in code point order: sorted, and no path twice. *)
Fixpoint ascending (l : list string) : bool :=
  match l with
  | x :: (y :: _) as l' =>
      match String.compare x y with Lt => ascending l' | _ => false end
  | _ => true
  end.

(** A pattern [glob.glob] finds no file for. *)
Definition unmatched (L : library) (files : gmap string node)
    (pattern : string) : bool :=
  match glob L files pattern with [] => true | _ => false end.

Definition no_match (pattern : string) : event :=
  Print Warning ("No files matched: " +:+ pattern).

Definition is_write (e : event) : bool :=
  match e with OpenWrite _ => true | _ => false end.

(** How many times a stretch of a run opened a file for writing. *)
Definition writes (t : list event) : nat :=
  List.length (List.filter is_write t).

(** The only file a stretch of a run opens is [p]. *)
Definition opens_only (p : string) (e : event) : bool :=
  match e with
  | OpenRead q | OpenWrite q => String.eqb q p
  | _ => true
  end.

(** The files a run opens are YAML files. *)
Definition opens_yaml (e : event) : bool :=
  match e with
  | OpenRead p | OpenWrite p => is_yaml p
  | _ => true
  end.

(** [v[k1][k2]...], when every step is a dictionary with the key. *)
Fixpoint at_path (keys : list string) (v : yaml) : option yaml :=
  match keys with
  | [] => Some v
  | k :: keys' =>
      match v with
      | YDict d =>
          match dict_get k d with
          | Some x => at_path keys' x
          | None => None
          end
      | _ => None
      end
  end.

(** A document [process_yaml_file] finds nothing to do in without looking
    at any interaction: it is not a mapping, or has no ['interactions']
    key. *)
Definition no_interactions (data : yaml) : bool :=
  match data with
  | YDict d => negb (has_key "interactions" d)
  | _ => true
  end.

(** An answer none of the three branches of the prompt takes. *)
Definition unrecognised (line : string) : bool :=
  negb (says ["y"; "yes"] line) && negb (says ["n"; "no"] line)
  && negb (says ["q"; "quit"] line).

(** The outcome of [m] does not depend on the world it runs in. *)
Definition pure_result {A} (m : M A) : Prop :=
  forall w1 w2, fst (m w1) = fst (m w2).

End CheckEncodedStringsMoreSpec.

(** A PyYAML that also reads the empty document and the cassette of
    [Samples.Script.hi_decompressed_text]. *)
Module MoreSamples.
Import CheckEncodedStrings Samples.Script.

Definition rereading : library := {|
  gzip_decompress := gzip_decompress sample;
  decode_utf8 := decode_utf8 sample;
  safe_load s :=
    if String.eqb s EmptyString then inr YNone
    else if String.eqb s hi_decompressed_text then inr hi_decompressed
    else sample_safe_load s;
  dump := dump sample;
  str_of := str_of sample;
  unified_diff := unified_diff sample;
  glob := glob sample
|}.

End MoreSamples.

(** * Properties *)

(** ** Reasoning about computations *)

Section Combinators.

Context {A B : Type}.
Variable R : world -> world -> Prop.
Context `{!PreOrder R}.

Lemma keeps_ret (a : A) : keeps R (ret a).
Proof. intros w. simpl. reflexivity. Qed.

Lemma keeps_raise (e : exn) : keeps R (@raise A e).
Proof. intros w. simpl. reflexivity. Qed.

Lemma keeps_exit (c : Z) : keeps R (@sys_exit A c).
Proof. intros w. simpl. reflexivity. Qed.

Lemma keeps_bind (m : M A) (k : A -> M B) :
  keeps R m -> (forall a, keeps R (k a)) -> keeps R (bind m k).
Proof.
  intros Hm Hk w. unfold bind. specialize (Hm w).
  destruct (m w) as [[a | e | c] w1]; simpl in *; auto.
  etransitivity; [exact Hm | apply Hk].
Qed.

Lemma keeps_try (m : M A) (handles : exn -> bool) (h : exn -> M A) :
  keeps R m -> (forall e, keeps R (h e)) -> keeps R (try_except m handles h).
Proof.
  intros Hm Hh w. unfold try_except. specialize (Hm w).
  destruct (m w) as [[a | e | c] w1]; simpl in *; auto.
  destruct (handles e); simpl; auto.
  etransitivity; [exact Hm | apply Hh].
Qed.

End Combinators.

Section Stays.

Context {A B : Type}.

Lemma stays_ret (a : A) : stays (ret a).
Proof. intros w c. discriminate. Qed.

Lemma stays_raise (e : exn) : stays (@raise A e).
Proof. intros w c. discriminate. Qed.

Lemma stays_bind (m : M A) (k : A -> M B) :
  stays m -> (forall a, stays (k a)) -> stays (bind m k).
Proof.
  intros Hm Hk w c. unfold bind. specialize (Hm w).
  destruct (m w) as [[a | e | c'] w1]; simpl in *.
  - apply Hk.
  - discriminate.
  - exfalso. exact (Hm c' eq_refl).
Qed.

Lemma stays_try (m : M A) (handles : exn -> bool) (h : exn -> M A) :
  stays m -> (forall e, stays (h e)) -> stays (try_except m handles h).
Proof.
  intros Hm Hh w c. unfold try_except. specialize (Hm w).
  destruct (m w) as [[a | e | c'] w1]; simpl in *.
  - discriminate.
  - destruct (handles e); [apply Hh | discriminate].
  - exfalso. exact (Hm c' eq_refl).
Qed.

End Stays.

Lemma stays_emit e : stays (emit e).
Proof. intros w c. discriminate. Qed.

Lemma stays_print m s : stays (print m s).
Proof. apply stays_emit. Qed.

Lemma stays_input p : stays (input p).
Proof. intros w c. unfold input. destruct (stdin w); discriminate. Qed.

Lemma stays_path_exists p : stays (path_exists p).
Proof. intros w c. discriminate. Qed.

Lemma stays_read_file p : stays (read_file p).
Proof.
  intros w c. unfold read_file. destruct (fs w !! p) as [[|]|]; discriminate.
Qed.

Lemma stays_getenv k : stays (getenv k).
Proof. intros w c. discriminate. Qed.

Lemma stays_setenv k v : stays (setenv k v).
Proof. intros w c. discriminate. Qed.

Create HintDb py discriminated.
#[export] Hint Resolve stays_emit stays_print stays_input stays_path_exists
  stays_read_file stays_getenv stays_setenv : py.

(** Walks through a computation built from binds, handlers and case
    distinctions, leaving the calls it has no lemma for. *)
Ltac walk :=
  repeat first
    [ apply keeps_ret; solve [ typeclasses eauto ]
    | apply keeps_raise; solve [ typeclasses eauto ]
    | apply keeps_exit; solve [ typeclasses eauto ]
    | apply stays_ret | apply stays_raise
    | solve [ auto with py ]
    | apply keeps_bind; [ solve [ typeclasses eauto ] | | intros ? ]
    | apply keeps_try; [ solve [ typeclasses eauto ] | | intros ? ]
    | apply stays_bind; [ | intros ? ]
    | apply stays_try; [ | intros ? ]
    | progress cbv zeta
    | match goal with
      | |- keeps _ (match ?x with _ => _ end) => destruct x
      | |- stays (match ?x with _ => _ end) => destruct x
      end ].

(** The same walk, by the shape of the computation only; [t] closes the
    calls. *)
Ltac steps t :=
  repeat first
    [ match goal with
      | |- keeps _ (ret _) => apply keeps_ret; solve [ typeclasses eauto ]
      | |- keeps _ (raise _) => apply keeps_raise; solve [ typeclasses eauto ]
      | |- keeps _ (bind _ _) =>
          apply keeps_bind; [ solve [ typeclasses eauto ] | | intros ? ]
      | |- stays (ret _) => apply stays_ret
      | |- stays (raise _) => apply stays_raise
      | |- stays (bind _ _) => apply stays_bind; [ | intros ? ]
      | |- keeps _ (match ?x with _ => _ end) => destruct x
      | |- stays (match ?x with _ => _ end) => destruct x
      end
    | progress cbv zeta
    | solve [ t ] ].

Lemma grows_refl Q w : grows Q w w.
Proof. exists []. split; [symmetry; apply app_nil_r | reflexivity]. Qed.

Lemma grows_trans Q w1 w2 w3 :
  grows Q w1 w2 -> grows Q w2 w3 -> grows Q w1 w3.
Proof.
  intros (t1 & E1 & F1) (t2 & E2 & F2). exists (t1 ++ t2). split.
  - rewrite E2, E1. symmetry. apply app_assoc.
  - rewrite forallb_app, F1, F2. reflexivity.
Qed.

Lemma grows_weaken (Q Q' : event -> bool) w w' :
  (forall e, Q e = true -> Q' e = true) -> grows Q w w' -> grows Q' w w'.
Proof.
  intros HQ (t & E & F). exists t. split; [exact E |].
  rewrite forallb_forall in *. auto.
Qed.

(** ** The checker: what every function it sequences does *)

Module GcloudSetupFacts.
Import GcloudSetup GcloudSetupSpec.

#[export] Instance checker_step_preorder Q : PreOrder (checker_step Q).
Proof.
  split.
  - intros w. split; [reflexivity |]. split; [reflexivity |].
    split; [auto | apply grows_refl].
  - intros w1 w2 w3 (F1 & S1 & E1 & G1) (F2 & S2 & E2 & G2).
    repeat split.
    + congruence.
    + etransitivity; eassumption.
    + intros k Hk. rewrite E2, E1 by assumption. reflexivity.
    + eapply grows_trans; eassumption.
Qed.

Lemma checker_step_weaken (Q Q' : event -> bool) w w' :
  (forall e, Q e = true -> Q' e = true) ->
  checker_step Q w w' -> checker_step Q' w w'.
Proof.
  intros HQ (F & S & E & G). repeat split; auto.
  eapply grows_weaken; eassumption.
Qed.

Lemma inner_harmless e : inner e = true -> harmless e = true.
Proof. unfold inner. intros [? _]%andb_prop. assumption. Qed.

Lemma one_event Q e w f v s :
  Q e = true -> fs w = f -> env w = v -> s `suffix_of` stdin w ->
  checker_step Q w (World f v s (out w ++ [e])).
Proof.
  intros HQ <- <- Hs. repeat split; simpl; auto.
  exists [e]. split; [reflexivity |]. simpl. rewrite HQ. reflexivity.
Qed.

Lemma keeps_emit Q e : Q e = true -> keeps (checker_step Q) (emit e).
Proof. intros HQ w. simpl. apply one_event; auto. Qed.

Lemma keeps_print m s : keeps (checker_step inner) (print m s).
Proof. apply keeps_emit. reflexivity. Qed.

Lemma keeps_input p : keeps (checker_step inner) (input p).
Proof.
  intros w. unfold input. destruct (stdin w) as [| l rest] eqn:E; simpl.
  - apply one_event; auto. rewrite E. reflexivity.
  - apply one_event; auto. rewrite E. apply suffix_cons_r. reflexivity.
Qed.

Lemma keeps_path_exists p : keeps (checker_step inner) (path_exists p).
Proof. intros w. simpl. apply one_event; auto. Qed.

Lemma keeps_read_file p : keeps (checker_step inner) (read_file p).
Proof.
  intros w. unfold read_file.
  destruct (fs w !! p) as [[|]|]; simpl; apply one_event; auto.
Qed.

Lemma keeps_getenv k : keeps (checker_step inner) (getenv k).
Proof. intros w. simpl. reflexivity. Qed.

Lemma keeps_setenv k v :
  own_variable k = true -> keeps (checker_step inner) (setenv k v).
Proof.
  intros Hk w. simpl. repeat split; simpl; auto.
  - intros k' Hk'. apply lookup_insert_ne. intros ->. congruence.
  - exists [SetEnv k v]. split; [reflexivity |].
    unfold inner. simpl. rewrite Hk. reflexivity.
Qed.

Lemma keeps_print_success s : keeps (checker_step inner) (print_success s).
Proof. apply keeps_print. Qed.
Lemma keeps_print_warning s : keeps (checker_step inner) (print_warning s).
Proof. apply keeps_print. Qed.
Lemma keeps_print_error s : keeps (checker_step inner) (print_error s).
Proof. apply keeps_print. Qed.
Lemma keeps_print_info s : keeps (checker_step inner) (print_info s).
Proof. apply keeps_print. Qed.

Lemma stays_print_success s : stays (print_success s).
Proof. apply stays_print. Qed.
Lemma stays_print_warning s : stays (print_warning s).
Proof. apply stays_print. Qed.
Lemma stays_print_error s : stays (print_error s).
Proof. apply stays_print. Qed.
Lemma stays_print_info s : stays (print_info s).
Proof. apply stays_print. Qed.

#[export] Hint Resolve keeps_print keeps_input keeps_path_exists
  keeps_read_file keeps_getenv keeps_print_success keeps_print_warning
  keeps_print_error keeps_print_info stays_print_success stays_print_warning
  stays_print_error stays_print_info : py.

Lemma keeps_creds_get creds k d : keeps (checker_step inner) (creds_get creds k d).
Proof. unfold creds_get. walk. Qed.
Lemma stays_creds_get creds k d : stays (creds_get creds k d).
Proof. unfold creds_get. walk. Qed.

Lemma keeps_py_replace v : keeps (checker_step inner) (py_replace v).
Proof. unfold py_replace. walk. Qed.
Lemma stays_py_replace v : stays (py_replace v).
Proof. unfold py_replace. walk. Qed.

Lemma keeps_py_fromisoformat L s :
  keeps (checker_step inner) (py_fromisoformat L s).
Proof. unfold py_fromisoformat. walk. Qed.
Lemma stays_py_fromisoformat L s : stays (py_fromisoformat L s).
Proof. unfold py_fromisoformat. walk. Qed.

Lemma keeps_before_now H d : keeps (checker_step inner) (before_now H d).
Proof. unfold before_now. walk. Qed.
Lemma stays_before_now H d : stays (before_now H d).
Proof. unfold before_now. walk. Qed.

#[export] Hint Resolve keeps_creds_get stays_creds_get keeps_py_replace
  stays_py_replace keeps_py_fromisoformat stays_py_fromisoformat
  keeps_before_now stays_before_now : py.

Section Functions.

Variable H : host.
Variable L : library.

Lemma keeps_subprocess_run argv :
  read_only_query argv = true ->
  keeps (checker_step inner) (subprocess_run H argv).
Proof.
  intros Hq w. simpl. apply one_event; auto.
  unfold inner. simpl. rewrite Hq. reflexivity.
Qed.

Lemma stays_subprocess_run argv : stays (subprocess_run H argv).
Proof. intros w c. discriminate. Qed.

Lemma keeps_check_gcloud_installed :
  keeps (checker_step inner) (check_gcloud_installed H).
Proof.
  unfold check_gcloud_installed. walk.
  apply keeps_subprocess_run. reflexivity.
Qed.

Lemma stays_check_gcloud_installed : stays (check_gcloud_installed H).
Proof.
  unfold check_gcloud_installed. walk. apply stays_subprocess_run.
Qed.

Lemma keeps_default_adc_path : keeps (checker_step inner) (default_adc_path H).
Proof. unfold default_adc_path. walk. Qed.

Lemma stays_default_adc_path : stays (default_adc_path H).
Proof. unfold default_adc_path. walk. Qed.

Lemma keeps_get_adc_path : keeps (checker_step inner) (get_adc_path H).
Proof. unfold get_adc_path. walk. apply keeps_default_adc_path. Qed.

Lemma stays_get_adc_path : stays (get_adc_path H).
Proof. unfold get_adc_path. walk. apply stays_default_adc_path. Qed.

Lemma keeps_check_credential_expiry creds :
  keeps (checker_step inner) (check_credential_expiry H L creds).
Proof.
  unfold check_credential_expiry. walk.
Qed.

Lemma stays_check_credential_expiry creds :
  stays (check_credential_expiry H L creds).
Proof.
  unfold check_credential_expiry. walk.
Qed.

Lemma keeps_check_adc : keeps (checker_step inner) (check_adc H L).
Proof.
  unfold check_adc. walk;
    auto using keeps_default_adc_path, keeps_check_credential_expiry.
Qed.

Lemma stays_check_adc : stays (check_adc H L).
Proof.
  unfold check_adc. walk;
    auto using stays_default_adc_path, stays_check_credential_expiry.
Qed.

Lemma keeps_get_current_project :
  keeps (checker_step inner) (get_current_project H).
Proof.
  unfold get_current_project. walk. apply keeps_subprocess_run. reflexivity.
Qed.

Lemma stays_get_current_project : stays (get_current_project H).
Proof. unfold get_current_project. walk. apply stays_subprocess_run. Qed.

Lemma keeps_permanent_hint n v : keeps (checker_step inner) (permanent_hint n v).
Proof. unfold permanent_hint. walk. Qed.

Lemma stays_permanent_hint n v : stays (permanent_hint n v).
Proof. unfold permanent_hint. walk. Qed.

Lemma keeps_set_project_env_var project :
  keeps (checker_step inner) (set_project_env_var project).
Proof.
  unfold set_project_env_var. walk;
    auto using keeps_permanent_hint, keeps_setenv.
Qed.

Lemma stays_set_project_env_var project : stays (set_project_env_var project).
Proof. unfold set_project_env_var. walk; auto using stays_permanent_hint. Qed.

Lemma ask_region_step lines w :
  stdin w = lines -> checker_step inner w (snd (ask_region lines w)).
Proof.
  revert w. induction lines as [| line rest IH]; intros w E; simpl.
  - apply one_event; auto. rewrite E. reflexivity.
  - assert (S1 : checker_step inner w
                   (World (fs w) (env w) rest
                      (out w ++ [Input (nl +:+
                         "Enter your region (default: europe-west1): ")]))).
    { apply one_event; auto. rewrite E. apply suffix_cons_r. reflexivity. }
    match goal with |- context [if ?c then _ else _] => destruct c end;
      simpl; [exact S1 |].
    etransitivity; [exact S1 |].
    unfold bind. simpl. etransitivity; [| apply IH; reflexivity].
    apply one_event; auto; reflexivity.
Qed.

Lemma ask_region_stays lines w c : fst (ask_region lines w) <> Exit c.
Proof.
  revert w. induction lines as [| line rest IH]; intros w; simpl.
  - discriminate.
  - match goal with |- context [if ?c then _ else _] => destruct c end;
      simpl; [discriminate |].
    unfold bind. simpl.
    match goal with |- context [ask_region rest ?w1] =>
      specialize (IH w1); destruct (ask_region rest w1) as [[?|?|?] ?]
    end; simpl in *; auto; discriminate.
Qed.

Lemma keeps_region_from_env : keeps (checker_step inner) region_from_env.
Proof. unfold region_from_env. walk. Qed.

Lemma stays_region_from_env : stays region_from_env.
Proof. unfold region_from_env. walk. Qed.

Lemma keeps_region_from_gcloud :
  keeps (checker_step inner) (region_from_gcloud H).
Proof.
  unfold region_from_gcloud. walk. apply keeps_subprocess_run. reflexivity.
Qed.

Lemma stays_region_from_gcloud : stays (region_from_gcloud H).
Proof. unfold region_from_gcloud. walk. apply stays_subprocess_run. Qed.

Lemma keeps_get_region : keeps (checker_step inner) (get_region H).
Proof.
  unfold get_region.
  steps ltac:(auto using keeps_region_from_env, keeps_region_from_gcloud,
                keeps_permanent_hint, keeps_setenv with py).
  all: intros w; apply ask_region_step; reflexivity.
Qed.

Lemma stays_get_region : stays (get_region H).
Proof.
  unfold get_region.
  steps ltac:(auto using stays_region_from_env, stays_region_from_gcloud,
                stays_permanent_hint with py).
  all: intros w c; apply ask_region_stays.
Qed.

Lemma keeps_check_vertex_api_enabled project :
  keeps (checker_step inner) (check_vertex_api_enabled H project).
Proof.
  unfold check_vertex_api_enabled. walk.
  apply keeps_subprocess_run. reflexivity.
Qed.

Lemma stays_check_vertex_api_enabled project :
  stays (check_vertex_api_enabled H project).
Proof.
  unfold check_vertex_api_enabled. walk. apply stays_subprocess_run.
Qed.

Lemma returns_check_vertex_api_enabled project :
  returns (check_vertex_api_enabled H project).
Proof.
  intros w. unfold check_vertex_api_enabled, bind, subprocess_run. simpl.
  destruct (run H (env w) (services_query project)) as [r |]; simpl;
    [| eauto].
  destruct (returncode r =? 0)%Z; simpl; [| eauto].
  destruct (contains _ _); simpl; eauto.
Qed.

(** The checker spawns read-only queries, writes no file, and sets its two
    variables only. *)
Lemma keeps_traced {A} n (tr : A -> bool) (m : M A) :
  keeps (checker_step inner) m ->
  keeps (checker_step harmless) (traced n tr m).
Proof.
  intros Hm. unfold traced.
  apply keeps_bind; [typeclasses eauto | apply keeps_emit; reflexivity |].
  intros _. apply keeps_bind; [typeclasses eauto | |].
  - intros w. eapply checker_step_weaken; [apply inner_harmless | apply Hm].
  - intros a. apply keeps_bind; [typeclasses eauto | |].
    + apply keeps_emit. reflexivity.
    + intros _. apply keeps_ret. typeclasses eauto.
Qed.

Lemma keeps_main : keeps (checker_step harmless) (main H L).
Proof.
  unfold main.
  repeat first
    [ match goal with
      | |- keeps _ (traced _ _ _) =>
          apply keeps_traced;
          solve [ auto using keeps_check_gcloud_installed, keeps_check_adc,
                    keeps_get_current_project, keeps_set_project_env_var,
                    keeps_get_region, keeps_check_vertex_api_enabled ]
      | |- keeps _ (bind _ _) =>
          apply keeps_bind; [ solve [ typeclasses eauto ] | | intros ? ]
      | |- keeps _ (ret _) => apply keeps_ret; solve [ typeclasses eauto ]
      | |- keeps _ (match ?x with _ => _ end) => destruct x
      end
    | progress cbv zeta
    | apply keeps_emit; reflexivity ].
Qed.

(** C5: every subprocess of the checker is one of the read-only queries
    [gcloud --version], [gcloud config get-value ...] and
    [gcloud services list ...]; the checker writes no file, leaves the file
    system as it found it, and changes its environment only at
    [GOOGLE_CLOUD_PROJECT] and [GOOGLE_CLOUD_REGION]. *)
Theorem checker_runs_read_only_queries w :
  let w' := snd (main H L w) in
  fs w' = fs w /\
  (forall k, k <> "GOOGLE_CLOUD_PROJECT" -> k <> "GOOGLE_CLOUD_REGION" ->
             env w' !! k = env w !! k) /\
  exists t, out w' = out w ++ t /\
    (forall argv, In (Spawn argv) t -> read_only_query argv = true) /\
    (forall p, ~ In (OpenWrite p) t) /\
    (forall k v, In (SetEnv k v) t ->
                 k = "GOOGLE_CLOUD_PROJECT" \/ k = "GOOGLE_CLOUD_REGION").
Proof.
  destruct (keeps_main w) as (F & _ & E & t & O & Q).
  simpl. split; [exact F |]. split.
  - intros k K1 K2. apply E. unfold own_variable.
    apply orb_false_intro; apply String.eqb_neq; assumption.
  - exists t. split; [exact O |].
    rewrite forallb_forall in Q. repeat split.
    + intros argv I. exact (Q _ I).
    + intros p I. specialize (Q _ I). discriminate.
    + intros k v I. specialize (Q _ I). simpl in Q. unfold own_variable in Q.
      apply orb_prop in Q. destruct Q as [Q | Q];
        apply String.eqb_eq in Q; auto.
Qed.


Lemma log_app t1 t2 : log (t1 ++ t2) = log t1 ++ log t2.
Proof. apply List.filter_app. Qed.

Lemma log_inner t : forallb inner t = true -> log t = [].
Proof.
  induction t as [| e t IH]; simpl; [reflexivity |].
  intros [He Ht]%andb_prop. unfold inner in He.
  apply andb_prop in He as [_ He]. destruct (is_call e); [discriminate |].
  auto.
Qed.

Lemma runs_print mk s (k : unit -> M Z) checks w :
  runs checks (k tt) (snd (print mk s w)) ->
  runs checks (bind (print mk s) k) w.
Proof.
  unfold runs, bind. simpl. intros (t & O & R).
  exists (Print mk s :: t). split; [| exact R].
  rewrite O, <- app_assoc. reflexivity.
Qed.

Lemma runs_step {A} n rest (tr : A -> bool) (m : M A) (k : A -> M Z) w :
  rest <> [] ->
  keeps (checker_step inner) m -> stays m ->
  (forall a w1, tr a = false -> ends_with 1%Z (k a) w1) ->
  (forall a w1, tr a = true -> runs rest (k a) w1) ->
  runs (n :: rest) (bind (traced n tr m) k) w.
Proof.
  intros Hrest Hm Hs Hfail Hpass. unfold runs, traced, bind. simpl.
  set (w0 := World (fs w) (env w) (stdin w) (out w ++ [Call n])).
  destruct (Hm w0) as (_ & _ & _ & t1 & O1 & Q1).
  specialize (Hs w0). apply log_inner in Q1.
  destruct (m w0) as [[a | e | c] w1]; simpl in *.
  - destruct (tr a) eqn:T.
    + destruct (Hpass a (World (fs w1) (env w1) (stdin w1)
                           (out w1 ++ [Return n true])) T) as (t2 & O2 & R2).
      simpl in O2.
      exists ([Call n] ++ t1 ++ [Return n true] ++ t2). split.
      * rewrite O2, O1. rewrite <- !app_assoc. reflexivity.
      * rewrite !log_app, Q1. simpl. apply run_pass; assumption.
    + destruct (Hfail a (World (fs w1) (env w1) (stdin w1)
                           (out w1 ++ [Return n false])) T)
        as (E2 & t2 & O2 & Q2).
      simpl in O2.
      exists ([Call n] ++ t1 ++ [Return n false] ++ t2). split.
      * rewrite O2, O1. rewrite <- !app_assoc. reflexivity.
      * rewrite !log_app, Q1, Q2, E2. simpl. apply run_fail; assumption.
  - exists ([Call n] ++ t1). split.
    + rewrite O1, <- app_assoc. reflexivity.
    + rewrite log_app, Q1. simpl. apply run_raise; assumption.
  - exfalso. exact (Hs c eq_refl).
Qed.

Lemma runs_last {A} n (tr : A -> bool) (m : M A) (k : A -> M Z) w :
  keeps (checker_step inner) m -> returns m ->
  (forall a w1, ends_with 0%Z (k a) w1) ->
  runs [n] (bind (traced n tr m) k) w.
Proof.
  intros Hm Hr Hend. unfold runs, traced, bind. simpl.
  set (w0 := World (fs w) (env w) (stdin w) (out w ++ [Call n])).
  destruct (Hm w0) as (_ & _ & _ & t1 & O1 & Q1).
  destruct (Hr w0) as (a & Ea). apply log_inner in Q1.
  destruct (m w0) as [r w1]; simpl in *. subst r. simpl.
  destruct (Hend a (World (fs w1) (env w1) (stdin w1)
                      (out w1 ++ [Return n (tr a)])))
    as (E2 & t2 & O2 & Q2).
  simpl in O2.
  exists ([Call n] ++ t1 ++ [Return n (tr a)] ++ t2). split.
  - rewrite O2, O1. rewrite <- !app_assoc. reflexivity.
  - rewrite !log_app, Q1, Q2, E2. simpl. apply run_last.
Qed.

Lemma ends_with_ret {A} (a : A) w : ends_with a (ret a) w.
Proof.
  split; [reflexivity |]. exists []. split; [| reflexivity].
  simpl. symmetry. apply app_nil_r.
Qed.

Lemma ends_with_print {A} mk s (k : unit -> M A) (a : A) w :
  ends_with a (k tt) (snd (print mk s w)) ->
  ends_with a (bind (print mk s) k) w.
Proof.
  unfold ends_with, bind. simpl. intros (E & t & O & Q).
  split; [exact E |]. exists (Print mk s :: t). split; [| exact Q].
  rewrite O, <- app_assoc. reflexivity.
Qed.

Ltac finish := repeat apply ends_with_print; apply ends_with_ret.

(** C3: [main] goes through its checks in the fixed order gcloud SDK,
    credentials, project (found, then exported), region, Vertex AI API: the
    calls in its trace are those [run_of order] allows.  A check before the
    last that returns a false value ends the run with status 1 and nothing
    is called after it; once the checks before the last have passed the
    status is 0, whatever the Vertex AI API check returns. *)
Theorem main_runs_checks_in_order w :
  exists t, out (snd (main H L w)) = out w ++ t /\
            run_of order (log t) (fst (main H L w)).
Proof.
  change (runs order (main H L) w). unfold main, order.
  apply runs_print.
  apply runs_step;
    [discriminate | apply keeps_check_gcloud_installed
    | apply stays_check_gcloud_installed | |];
    intros installed w1 T; unfold id in T; subst installed; cbn [negb];
    [finish |].
  apply runs_print.
  apply runs_step;
    [discriminate | apply keeps_check_adc | apply stays_check_adc | |];
    intros [adc_valid cred_type] w2 T; simpl in T; subst adc_valid;
    cbn [negb fst snd]; [finish |].
  apply runs_print.
  apply runs_step;
    [discriminate | apply keeps_get_current_project
    | apply stays_get_current_project | |];
    intros project w3 T; rewrite T; cbn [negb]; [finish |].
  apply runs_print.
  apply runs_step;
    [discriminate | apply keeps_set_project_env_var
    | apply stays_set_project_env_var | |];
    intros exported w4 T'; unfold id in T'; subst exported; cbn [negb];
    [finish |].
  apply runs_print.
  apply runs_step;
    [discriminate | apply keeps_get_region | apply stays_get_region | |];
    intros region w5 T'; rewrite T'; cbn [negb]; [finish |].
  apply runs_print.
  apply runs_last;
    [apply keeps_check_vertex_api_enabled
    | apply returns_check_vertex_api_enabled |].
  intros [|] w6; finish.
Qed.

Lemma default_adc_path_spec w :
  default_adc_path H w = (Ret (default_location H (env w)), w).
Proof.
  unfold default_adc_path, default_location.
  destruct (win32 H); reflexivity.
Qed.


(** The cases of [check_credential_expiry] that come out as its docstring
    says: service accounts, other types, and user credentials whose
    ['expiry'] is missing, is not a string, does not parse, or parses to a
    time with a time zone. *)
Lemma check_credential_expiry_service_account entries w :
  dict_get "type" entries = Some (JStr "service_account") ->
  check_credential_expiry H L (JDict entries) w
  = (Ret (true, "service_account"), w).
Proof.
  intros T. unfold check_credential_expiry, bind, creds_get. simpl.
  rewrite T. reflexivity.
Qed.

Lemma check_credential_expiry_other entries w :
  (forall t, dict_get "type" entries = Some (JStr t) ->
             t <> "service_account" /\ t <> "authorized_user") ->
  check_credential_expiry H L (JDict entries) w = (Ret (true, "other"), w).
Proof.
  intros T. unfold check_credential_expiry, bind, creds_get. simpl.
  destruct (dict_get "type" entries) as [[| | | t | |] |]; simpl; auto.
  destruct (T t eq_refl) as [T1 T2].
  apply String.eqb_neq in T1, T2. rewrite T1, T2. reflexivity.
Qed.

Lemma check_credential_expiry_no_expiry entries w :
  dict_get "type" entries = Some (JStr "authorized_user") ->
  dict_get "expiry" entries = None ->
  check_credential_expiry H L (JDict entries) w = (Ret (true, "user"), w).
Proof.
  intros T E. unfold check_credential_expiry, bind, creds_get. simpl.
  rewrite T, E. reflexivity.
Qed.

Lemma check_credential_expiry_unparseable entries value w :
  dict_get "type" entries = Some (JStr "authorized_user") ->
  dict_get "expiry" entries = Some value ->
  (forall s d, value = JStr s ->
               fromisoformat L (replace_char "Z" "+00:00" s) <> inr d) ->
  check_credential_expiry H L (JDict entries) w = (Ret (true, "user"), w).
Proof.
  intros T E P.
  unfold check_credential_expiry, bind, creds_get, try_except, py_replace,
    py_fromisoformat.
  simpl. rewrite T, E. simpl.
  destruct value as [| | | s | |]; simpl; try reflexivity.
  destruct (fromisoformat L (replace_char "Z" "+00:00" s)) as [e | d] eqn:F;
    simpl; [reflexivity |].
  exfalso. exact (P s d eq_refl F).
Qed.

Lemma check_credential_expiry_aware entries s d w :
  dict_get "type" entries = Some (JStr "authorized_user") ->
  dict_get "expiry" entries = Some (JStr s) ->
  fromisoformat L (replace_char "Z" "+00:00" s) = inr d ->
  aware d = true ->
  check_credential_expiry H L (JDict entries) w
  = (Ret (negb (instant d <? now H)%Z, "user"), w).
Proof.
  intros T E F A.
  unfold check_credential_expiry, bind, creds_get, try_except, py_replace,
    py_fromisoformat, before_now.
  simpl. rewrite T, E. simpl. rewrite F. simpl. rewrite A. simpl.
  destruct (instant d <? now H)%Z; reflexivity.
Qed.

(** The case that does not: an ['expiry'] that parses to a time without a
    time zone cannot be compared with the current time, and the [TypeError]
    of the comparison is not among the exceptions the function handles. *)
Lemma check_credential_expiry_naive entries s d w :
  dict_get "type" entries = Some (JStr "authorized_user") ->
  dict_get "expiry" entries = Some (JStr s) ->
  fromisoformat L (replace_char "Z" "+00:00" s) = inr d ->
  aware d = false ->
  check_credential_expiry H L (JDict entries) w
  = (Raise (Exn TypeError
              "can't compare offset-naive and offset-aware datetimes"), w).
Proof.
  intros T E F A.
  unfold check_credential_expiry, bind, creds_get, try_except, py_replace,
    py_fromisoformat, before_now.
  simpl. rewrite T, E. simpl. rewrite F. simpl. rewrite A. reflexivity.
Qed.

End Functions.

(** C6, at the credentials
    [{'type': 'authorized_user', 'expiry': '2020-01-01T00:00:00'}]: the
    timestamp parses and lies in the past, and [check_credential_expiry]
    returns neither [(False, 'user')] nor [(True, 'user')]: it raises
    [TypeError]. *)
Theorem naive_expiry_raises w :
  check_credential_expiry (Samples.Checker.linux "") Samples.Checker.sample
    Samples.Checker.naive_expiry w
  = (Raise (Exn TypeError
              "can't compare offset-naive and offset-aware datetimes"), w).
Proof.
  apply check_credential_expiry_naive
    with (s := "2020-01-01T00:00:00") (d := Datetime 1577836800000000 false);
    reflexivity.
Qed.

(** Three runs of [main]: without gcloud, the first check fails and ends
    the run with status 1; on a configured machine the run ends with
    status 0, with the Vertex AI API enabled and without. *)
Example main_without_gcloud :
  let r := main Samples.Checker.bare Samples.Checker.sample
             (Samples.Checker.configured []) in
  fst r = Ret 1%Z /\
  log (out (snd r))
  = [Call "check_gcloud_installed"; Return "check_gcloud_installed" false].
Proof. vm_compute. split; reflexivity. Qed.

Example main_with_api_enabled :
  fst (main (Samples.Checker.linux "aiplatform.googleapis.com")
         Samples.Checker.sample (Samples.Checker.configured [""]))
  = Ret 0%Z.
Proof. vm_compute. reflexivity. Qed.

Example main_with_api_disabled :
  let r := main (Samples.Checker.linux "") Samples.Checker.sample
             (Samples.Checker.configured [""]) in
  fst r = Ret 0%Z /\
  List.last (log (out (snd r))) (Call "")
  = Return "check_vertex_api_enabled" false.
Proof. vm_compute. split; reflexivity. Qed.

End GcloudSetupFacts.

(** ** The fixture script *)

Module CheckEncodedStringsFacts.
Import CheckEncodedStrings CheckEncodedStringsSpec.

Lemma dict_get_set_eq k v d : dict_get k (dict_set k v d) = Some v.
Proof.
  induction d as [| [k' v'] d IH]; simpl.
  - rewrite String.eqb_refl. reflexivity.
  - destruct (String.eqb k k') eqn:E; simpl.
    + rewrite String.eqb_refl. reflexivity.
    + rewrite E. exact IH.
Qed.

Lemma dict_get_set_ne k k' v d :
  k <> k' -> dict_get k (dict_set k' v d) = dict_get k d.
Proof.
  intros N. induction d as [| [k0 v0] d IH]; simpl.
  - apply String.eqb_neq in N. rewrite N. reflexivity.
  - destruct (String.eqb k' k0) eqn:E; simpl.
    + apply String.eqb_eq in E. subst k0.
      apply String.eqb_neq in N. rewrite N. reflexivity.
    + destruct (String.eqb k k0); [reflexivity | exact IH].
Qed.

Lemma dict_set_set k v v' d : dict_set k v (dict_set k v' d) = dict_set k v d.
Proof.
  induction d as [| [k0 v0] d IH]; simpl.
  - rewrite String.eqb_refl. reflexivity.
  - destruct (String.eqb k k0) eqn:E; simpl.
    + rewrite String.eqb_refl. reflexivity.
    + rewrite E, IH. reflexivity.
Qed.

#[export] Instance looks_preorder Q : PreOrder (looks Q).
Proof.
  split.
  - intros w. repeat split; try reflexivity. apply grows_refl.
  - intros w1 w2 w3 (F1 & E1 & S1 & G1) (F2 & E2 & S2 & G2).
    repeat split; try congruence. eapply grows_trans; eassumption.
Qed.

Lemma looks_weaken (Q Q' : event -> bool) w w' :
  (forall e, Q e = true -> Q' e = true) -> looks Q w w' -> looks Q' w w'.
Proof.
  intros HQ (F & E & S & G). repeat split; auto.
  eapply grows_weaken; eassumption.
Qed.

Lemma looks_event Q e w :
  Q e = true ->
  looks Q w (World (fs w) (env w) (stdin w) (out w ++ [e])).
Proof.
  intros HQ. repeat split. exists [e]. split; [reflexivity |].
  simpl. rewrite HQ. reflexivity.
Qed.

Lemma looks_print m s : keeps (looks is_print) (print m s).
Proof. intros w. apply looks_event. reflexivity. Qed.

Lemma looks_py_in k v : keeps (looks is_print) (py_in k v).
Proof. unfold py_in. walk. Qed.
Lemma stays_py_in k v : stays (py_in k v).
Proof. unfold py_in. walk. Qed.

Lemma looks_py_getitem v k : keeps (looks is_print) (py_getitem v k).
Proof. unfold py_getitem. walk. Qed.
Lemma stays_py_getitem v k : stays (py_getitem v k).
Proof. unfold py_getitem. walk. Qed.

Lemma looks_py_slice10 v : keeps (looks is_print) (py_slice10 v).
Proof. unfold py_slice10. walk. Qed.
Lemma stays_py_slice10 v : stays (py_slice10 v).
Proof. unfold py_slice10. walk. Qed.

Lemma looks_py_iter v : keeps (looks is_print) (py_iter v).
Proof. unfold py_iter. walk. Qed.
Lemma stays_py_iter v : stays (py_iter v).
Proof. unfold py_iter. walk. Qed.

Lemma looks_py_pop v k : keeps (looks is_print) (py_pop v k).
Proof. unfold py_pop. walk. Qed.
Lemma stays_py_pop v k : stays (py_pop v k).
Proof. unfold py_pop. walk. Qed.

#[export] Hint Resolve looks_print looks_py_in stays_py_in looks_py_getitem
  stays_py_getitem looks_py_slice10 stays_py_slice10 looks_py_iter
  stays_py_iter looks_py_pop stays_py_pop : py.

Section Functions.

Variable L : library.

Lemma looks_decompress_gzip_string data :
  keeps (looks is_print) (decompress_gzip_string L data).
Proof. unfold decompress_gzip_string. walk. Qed.

Lemma stays_decompress_gzip_string data :
  stays (decompress_gzip_string L data).
Proof. unfold decompress_gzip_string. walk. Qed.

Lemma looks_process_interaction p i :
  keeps (looks is_print) (process_interaction L p i).
Proof.
  unfold process_interaction. walk; apply looks_decompress_gzip_string.
Qed.

Lemma stays_process_interaction p i : stays (process_interaction L p i).
Proof.
  unfold process_interaction. walk; apply stays_decompress_gzip_string.
Qed.

Lemma looks_process_interactions p l :
  keeps (looks is_print) (process_interactions L p l).
Proof.
  induction l as [| i l IH]; simpl.
  - apply keeps_ret. typeclasses eauto.
  - apply keeps_bind;
      [typeclasses eauto | apply looks_process_interaction | intros r].
    apply keeps_bind; [typeclasses eauto | exact IH | intros rs].
    apply keeps_ret. typeclasses eauto.
Qed.

Lemma stays_process_interactions p l : stays (process_interactions L p l).
Proof.
  induction l as [| i l IH]; simpl.
  - apply stays_ret.
  - apply stays_bind; [apply stays_process_interaction | intros r].
    apply stays_bind; [exact IH | intros rs]. apply stays_ret.
Qed.

Lemma looks_process_data p data :
  keeps (looks is_print) (process_data L p data).
Proof. unfold process_data. walk; apply looks_process_interactions. Qed.

Lemma stays_process_data p data : stays (process_data L p data).
Proof. unfold process_data. walk; apply stays_process_interactions. Qed.

End Functions.

Lemma says_yes_not_no line :
  says ["y"; "yes"] line = true ->
  says ["n"; "no"] line = false /\ says ["q"; "quit"] line = false.
Proof.
  unfold says, in_list. simpl. intros Hy.
  destruct (String.eqb_spec (lower (strip line)) "y") as [-> | _];
    [split; reflexivity |].
  destruct (String.eqb_spec (lower (strip line)) "yes") as [-> | _];
    [split; reflexivity | discriminate].
Qed.

Lemma says_no_not_quit line :
  says ["n"; "no"] line = true -> says ["q"; "quit"] line = false.
Proof.
  unfold says, in_list. simpl. intros Hn.
  destruct (String.eqb_spec (lower (strip line)) "n") as [-> | _];
    [reflexivity |].
  destruct (String.eqb_spec (lower (strip line)) "no") as [-> | _];
    [reflexivity | discriminate].
Qed.

Lemma confirm_cons p new line rest w :
  confirm p new (line :: rest) w
  = let w1 := World (fs w) (env w) rest (out w ++ [Input question]) in
    if says ["y"; "yes"] line then
      (write_file p new ;; print Success ("Saved " +:+ p) ;; ret true)%py w1
    else if says ["n"; "no"] line then
      (print Error ("Skipped " +:+ p) ;; ret false)%py w1
    else if says ["q"; "quit"] line then
      (print Plain "Exiting..." ;; sys_exit 0)%py w1
    else confirm p new rest w1.
Proof. reflexivity. Qed.

(** The four ways the prompt loop ends. *)
Lemma confirm_cases p new lines w :
  let r := fst (confirm p new lines w) in
  let w' := snd (confirm p new lines w) in
  exists used, lines = used ++ stdin w' /\
    ((exists pre line, used = pre ++ [line] /\
        says ["y"; "yes"] line = true /\
        ((r = Ret true /\ fs w' = <[p := File new]> (fs w)) \/
         (fs w !! p = Some Dir /\ fs w' = fs w /\ exists e, r = Raise e))) \/
     (exists pre line, used = pre ++ [line] /\
        says ["y"; "yes"] line = false /\ says ["n"; "no"] line = true /\
        r = Ret false /\ fs w' = fs w) \/
     (exists pre line, used = pre ++ [line] /\
        says ["y"; "yes"] line = false /\ says ["n"; "no"] line = false /\
        says ["q"; "quit"] line = true /\
        r = Exit 0 /\ fs w' = fs w) \/
     (Forall (fun line => says ["y"; "yes"; "n"; "no"; "q"; "quit"] line
                          = false) used /\
      fs w' = fs w /\ exists e, r = Raise e)).
Proof.
  revert w. induction lines as [| line rest IH]; intros w.
  - exists []. split; [reflexivity |]. right. right. right.
    simpl. repeat split; eauto.
  - cbv zeta. rewrite confirm_cons. cbv zeta.
    destruct (says ["y"; "yes"] line) eqn:Y.
    { exists [line]. unfold bind, write_file. simpl.
      destruct (fs w !! p) as [[c |] |] eqn:F; simpl;
        (split; [reflexivity |]); left; exists [], line;
        repeat split; auto.
      right. repeat split; eauto. }
    destruct (says ["n"; "no"] line) eqn:N.
    { exists [line]. simpl. split; [reflexivity |]. right. left.
      exists [], line. repeat split; auto. }
    destruct (says ["q"; "quit"] line) eqn:Q.
    { exists [line]. simpl. split; [reflexivity |]. right. right. left.
      exists [], line. repeat split; auto. }
    set (w1 := World (fs w) (env w) rest (out w ++ [Input question])).
    destruct (IH w1) as (used & E & C). exists (line :: used).
    split; [simpl; congruence |].
    destruct C as [(pre & l & U & Yl & C) | [(pre & l & U & Yl & Nl & C)
      | [(pre & l & U & Yl & Nl & Ql & C) | (U & C)]]].
    + left. exists (line :: pre), l. subst used. repeat split; auto.
    + right. left. exists (line :: pre), l. subst used. repeat split; tauto.
    + right. right. left. exists (line :: pre), l. subst used.
      repeat split; tauto.
    + right. right. right. split; [| exact C]. constructor; [| exact U].
      unfold says, in_list in *. simpl in *.
      repeat match goal with
             | H : (_ || _)%bool = false |- _ =>
                 apply orb_false_elim in H; destruct H
             end.
      repeat match goal with
             | H : _ = false |- _ => rewrite H
             end. reflexivity.
Qed.


Lemma body_string_inv i v :
  body_string i = Some v ->
  exists e r b, i = YDict e /\ dict_get "response" e = Some (YDict r) /\
                dict_get "body" r = Some (YDict b) /\
                dict_get "string" b = Some v.
Proof.
  unfold body_string. intros B.
  destruct i as [| | | | | | e]; try discriminate.
  destruct (dict_get "response" e) as [[| | | | | | r] |] eqn:R;
    try discriminate.
  destruct (dict_get "body" r) as [[| | | | | | b] |] eqn:Bd;
    try discriminate.
  exists e, r, b. auto.
Qed.

(** On an interaction of a cassette, the body of the loop of
    [process_yaml_file] does what [decompressed] says, and only prints. *)
Lemma process_interaction_entry L p i w :
  cassette_entry L i = true ->
  exists t,
    process_interaction L p i w
    = (Ret (decompressed L i, is_compressed L i),
       World (fs w) (env w) (stdin w) (out w ++ t)) /\
    forallb is_print t = true.
Proof.
  unfold cassette_entry, decompressed, is_compressed, compressed, gunzip.
  destruct (body_string i) as [v |] eqn:B; [| discriminate].
  destruct (body_string_inv i v B) as (e & r & b & -> & R & Bd & S).
  assert (R' : has_key "response" e = true) by (unfold has_key; now rewrite R).
  assert (Bd' : has_key "body" r = true) by (unfold has_key; now rewrite Bd).
  unfold process_interaction, bind, py_in, py_getitem,
    decompress_gzip_string.
  simpl. rewrite R'. simpl. rewrite R. simpl. rewrite Bd'. simpl.
  rewrite Bd. simpl. rewrite S.
  destruct v as [| | | s | data | |]; try discriminate; simpl.
  - intros _. eexists. split; [reflexivity | reflexivity].
  - destruct (gzip_decompress L (strip_bytes data)) as [err | raw]; simpl.
    { intros _. eexists. split; [rewrite <- app_assoc |]; reflexivity. }
    destruct (decode_utf8 L raw) as [err | text]; simpl.
    { intros _. eexists. split; [rewrite <- app_assoc |]; reflexivity. }
    destruct (nonempty text); simpl.
    2:{ intros _. eexists. split; reflexivity. }
    rewrite dict_get_set_eq.
    rewrite !(dict_get_set_ne "headers" "body") by discriminate.
    destruct (dict_get "headers" r) as [[| | | | | | h] |]; try discriminate.
    intros K. simpl. rewrite K. simpl. rewrite dict_set_set.
    eexists. split; [rewrite <- app_assoc |]; reflexivity.
Qed.

Lemma process_interactions_entries L p items w :
  forallb (cassette_entry L) items = true ->
  exists t,
    process_interactions L p items w
    = (Ret (List.map (decompressed L) items,
            existsb (is_compressed L) items),
       World (fs w) (env w) (stdin w) (out w ++ t)) /\
    forallb is_print t = true.
Proof.
  revert w. induction items as [| i items IH]; intros w; simpl.
  - intros _. exists []. rewrite app_nil_r. destruct w. auto.
  - intros [Hi Hitems]%andb_prop.
    destruct (process_interaction_entry L p i w Hi) as (t1 & E1 & P1).
    unfold bind. rewrite E1.
    destruct (IH (World (fs w) (env w) (stdin w) (out w ++ t1)) Hitems)
      as (t2 & E2 & P2).
    rewrite E2. simpl. exists (t1 ++ t2). rewrite app_assoc.
    split; [reflexivity |]. rewrite forallb_app, P1, P2. reflexivity.
Qed.

Lemma process_interaction_lacks L p i w :
  lacks_encoding L i = true ->
  exists t,
    process_interaction L p i w
    = (Raise (Exn KeyError (quoted "Content-Encoding")),
       World (fs w) (env w) (stdin w) (out w ++ t)) /\
    forallb is_print t = true.
Proof.
  unfold lacks_encoding, compressed, gunzip.
  destruct (body_string i) as [v |] eqn:B; [| discriminate].
  destruct (body_string_inv i v B) as (e & r & b & -> & R & Bd & S).
  assert (R' : has_key "response" e = true) by (unfold has_key; now rewrite R).
  assert (Bd' : has_key "body" r = true) by (unfold has_key; now rewrite Bd).
  unfold process_interaction, bind, py_in, py_getitem,
    decompress_gzip_string.
  simpl. rewrite R'. simpl. rewrite R. simpl. rewrite Bd'. simpl.
  rewrite Bd. simpl. rewrite S.
  destruct v as [| | | s | data | |]; try discriminate; simpl.
  destruct (gzip_decompress L (strip_bytes data)) as [err | raw];
    [discriminate |].
  destruct (decode_utf8 L raw) as [err | text]; [discriminate |]. simpl.
  destruct (nonempty text); [| discriminate]. simpl.
  rewrite !(dict_get_set_ne "headers" "body") by discriminate.
  destruct (dict_get "headers" r) as [[| | | | | | h] |]; try discriminate.
  intros K%negb_true_iff. simpl. rewrite K. simpl.
  eexists. split; reflexivity.
Qed.

Lemma process_interactions_lacks L p pre i post w :
  forallb (cassette_entry L) pre = true ->
  lacks_encoding L i = true ->
  exists t,
    process_interactions L p (pre ++ i :: post) w
    = (Raise (Exn KeyError (quoted "Content-Encoding")),
       World (fs w) (env w) (stdin w) (out w ++ t)) /\
    forallb is_print t = true.
Proof.
  intros Hpre Hi. revert w. induction pre as [| j pre IH]; intros w; simpl.
  - destruct (process_interaction_lacks L p i w Hi) as (t & E & P).
    unfold bind. rewrite E. eauto.
  - simpl in Hpre. apply andb_prop in Hpre as [Hj Hpre].
    destruct (process_interaction_entry L p j w Hj) as (t1 & E1 & P1).
    unfold bind. rewrite E1.
    destruct (IH Hpre (World (fs w) (env w) (stdin w) (out w ++ t1)))
      as (t2 & E2 & P2).
    unfold bind in E2. simpl in E2. rewrite E2. simpl.
    exists (t1 ++ t2). rewrite app_assoc.
    split; [reflexivity |]. rewrite forallb_app, P1, P2. reflexivity.
Qed.

Lemma decompressed_body L i data text :
  body_string i = Some (YBytes data) ->
  gunzip L (strip_bytes data) = Some text ->
  nonempty text = true ->
  body_string (decompressed L i) = Some (YStr text).
Proof.
  intros B G N. unfold decompressed, compressed. rewrite B, G, N.
  destruct (body_string_inv i _ B) as (e & r & b & -> & R & Bd & S).
  unfold set_body_string. rewrite R, Bd.
  unfold drop_header. rewrite dict_get_set_eq.
  rewrite (dict_get_set_ne "headers" "body") by discriminate.
  destruct (dict_get "headers" r) as [[| | | | | | h] |];
    unfold body_string;
    rewrite ?dict_get_set_eq, ?(dict_get_set_ne "body" "headers")
      by discriminate;
    rewrite ?dict_get_set_eq; reflexivity.
Qed.

Lemma decompressed_text L i s :
  body_string i = Some (YStr s) -> decompressed L i = i.
Proof. intros B. unfold decompressed, compressed. rewrite B. reflexivity. Qed.


Lemma process_yaml_file_lacks L p w content d pre i post :
  fs w !! p = Some (File content) ->
  safe_load L content = inr (YDict d) ->
  dict_get "interactions" d = Some (YList (pre ++ i :: post)) ->
  forallb (cassette_entry L) pre = true ->
  lacks_encoding L i = true ->
  exists t,
    process_yaml_file L p w
    = (Raise (Exn KeyError "'Content-Encoding'"),
       World (fs w) (env w) (stdin w) (out w ++ t)) /\
    forallb no_prompt t = true.
Proof.
  intros F SL I Pre Lacks.
  unfold process_yaml_file, bind, read_file. rewrite F. simpl.
  rewrite SL. simpl. unfold process_data, bind. rewrite I. simpl.
  match goal with
  | |- context [process_interactions L p _ ?w0] =>
      destruct (process_interactions_lacks L p pre i post w0 Pre Lacks)
        as (t & E & P)
  end.
  rewrite E. simpl. rewrite <- app_assoc. eexists. split; [reflexivity |].
  simpl. rewrite forallb_forall in *. intros e He.
  specialize (P e He). destruct e; auto; discriminate.
Qed.

Lemma main_loop_cons L file_path rest processed :
  main_loop L (file_path :: rest) processed
  = (present <- path_exists (Path file_path) ;;
     if negb present then
       print Error ("File not found: " +:+ file_path) ;;
       main_loop L rest processed
     else if negb (is_yaml (Path file_path)) then
       print Warning
         ("Skipping " +:+ file_path +:+ " (not a .yaml/.yml file)") ;;
       main_loop L rest processed
     else
       processed' <-
         try_except
           (saved <- process_yaml_file L (Path file_path) ;;
            ret (if saved : bool then S processed else processed))
           (fun _ => true)
           (fun e =>
              print Error
                ("Error processing " +:+ file_path +:+ ": " +:+ message e) ;;
              ret processed) ;;
       print Plain "" ;;
       main_loop L rest processed')%py.
Proof. reflexivity. Qed.


(** *** The theorems at the sample cassettes *)


(** What that run leaves in the file. *)
Example hi_cassette_after :
  fs (snd (process_yaml_file Samples.Script.sample "a.yaml"
             (Samples.Script.a_yaml Samples.Script.hi_text ["y"])))
  !! "a.yaml"
  = Some (File Samples.Script.hi_decompressed_text).
Proof. vm_compute. reflexivity. Qed.




(** The answers [n] and [q] on the cassette of [hi_text]. *)
Example hi_cassette_declined :
  let w := Samples.Script.a_yaml Samples.Script.hi_text ["n"] in
  let r := process_yaml_file Samples.Script.sample "a.yaml" w in
  fst r = Ret false /\ fs (snd r) = fs w.
Proof. vm_compute. split; reflexivity. Qed.

Example hi_cassette_quit :
  let w := Samples.Script.a_yaml Samples.Script.hi_text ["what?"; " Q "] in
  let r := process_yaml_file Samples.Script.sample "a.yaml" w in
  fst r = Exit 0 /\ fs (snd r) = fs w.
Proof. vm_compute. split; reflexivity. Qed.

End CheckEncodedStringsFacts.

(** ** The tool-call threading of the adapter *)

Module AdapterFacts.
Import Adapter.

Section Chain.

Context {store : Type}.
Variable tools : list (string * tool store).

Lemma execute_tool_call_id call (s : store) :
  result_call_id (fst (execute_tool_call tools call s)) = tool_call_id call /\
  result_name (fst (execute_tool_call tools call s)) = name call.
Proof.
  unfold execute_tool_call.
  destruct (find_tool (name call) tools) as [f |]; [destruct (f s) |];
    split; reflexivity.
Qed.

Lemma execute_tool_calls_app pre post (s : store) :
  execute_tool_calls tools (pre ++ post) s
  = (fst (execute_tool_calls tools pre s)
     ++ fst (execute_tool_calls tools post
               (snd (execute_tool_calls tools pre s))),
     snd (execute_tool_calls tools post
            (snd (execute_tool_calls tools pre s)))).
Proof.
  revert s. induction pre as [| call pre IH]; intros s; simpl.
  - destruct (execute_tool_calls tools post s). reflexivity.
  - destruct (execute_tool_call tools call s) as [r s1].
    rewrite IH.
    destruct (execute_tool_calls tools pre s1) as [rs s2]. simpl.
    destruct (execute_tool_calls tools post s2). reflexivity.
Qed.

Lemma execute_tool_calls_length calls (s : store) :
  length (fst (execute_tool_calls tools calls s)) = length calls.
Proof.
  revert s. induction calls as [| call calls IH]; intros s; simpl.
  - reflexivity.
  - destruct (execute_tool_call tools call s) as [r s1].
    specialize (IH s1).
    destruct (execute_tool_calls tools calls s1). simpl in *. congruence.
Qed.

Lemma execute_tool_calls_ids calls (s : store) :
  List.map result_call_id (fst (execute_tool_calls tools calls s))
  = List.map tool_call_id calls.
Proof.
  revert s. induction calls as [| call calls IH]; intros s; simpl.
  - reflexivity.
  - pose proof (execute_tool_call_id call s) as [Hid _].
    destruct (execute_tool_call tools call s) as [r s1].
    specialize (IH s1).
    destruct (execute_tool_calls tools calls s1). simpl in *. congruence.
Qed.

End Chain.


End AdapterFacts.

(** ** The two programs side by side *)

Module IndependenceFacts.
Import GcloudSetup GcloudSetupSpec CheckEncodedStringsSpec Independence.

Section Blind.

Variable H : host.

Lemma aligned_parts w1 w2 :
  aligned H w1 w2 ->
  forall f1 f2 v s o,
    f1 = fs w1 -> f2 = fs w2 -> v = env w1 ->
    aligned H (World f1 v s o) (World f2 v s o).
Proof.
  intros (F & E & S & O & C) f1 f2 v s o -> -> ->.
  split; [exact F |]. simpl. auto.
Qed.

Lemma blind_ret {A} (P : A -> Prop) a : P a -> blind H P (ret a).
Proof.
  intros Pa w1 w2 Al. simpl. split; [reflexivity |]. split; [exact Al |].
  intros a' [= <-]. exact Pa.
Qed.

Lemma blind_raise {A} (P : A -> Prop) e : blind H P (@raise A e).
Proof.
  intros w1 w2 Al. simpl. split; [reflexivity |]. split; [exact Al |].
  intros a' [=].
Qed.

Lemma blind_bind {A B} (P : A -> Prop) (Q : B -> Prop) (m : M A)
    (k : A -> M B) :
  blind H P m -> (forall a, P a -> blind H Q (k a)) -> blind H Q (bind m k).
Proof.
  intros Hm Hk w1 w2 Al. unfold bind.
  destruct (Hm w1 w2 Al) as (E & Al' & Pa).
  destruct (m w1) as [[a | e | c] w1'], (m w2) as [r2 w2']; simpl in *;
    subst r2.
  - apply Hk; auto.
  - split; [reflexivity |]. split; [exact Al' |]. intros a [=].
  - split; [reflexivity |]. split; [exact Al' |]. intros a [=].
Qed.

Lemma blind_bind_any {A B} (Q : B -> Prop) (m : M A) (k : A -> M B) :
  blind H (fun _ => True) m -> (forall a, blind H Q (k a)) ->
  blind H Q (bind m k).
Proof. intros Hm Hk. apply blind_bind with (P := fun _ => True); auto. Qed.

Lemma blind_try {A} (P : A -> Prop) (m : M A) handles (h : exn -> M A) :
  blind H P m -> (forall e, blind H P (h e)) ->
  blind H P (try_except m handles h).
Proof.
  intros Hm Hh w1 w2 Al. unfold try_except.
  destruct (Hm w1 w2 Al) as (E & Al' & Pa).
  destruct (m w1) as [[a | e | c] w1'], (m w2) as [r2 w2']; simpl in *;
    subst r2.
  - split; [reflexivity |]. split; [exact Al' | exact Pa].
  - destruct (handles e).
    + apply Hh; auto.
    + split; [reflexivity |]. split; [exact Al' | exact Pa].
  - split; [reflexivity |]. split; [exact Al' | exact Pa].
Qed.

Lemma blind_emit e : blind H (fun _ => True) (emit e).
Proof.
  intros w1 w2 Al. pose proof Al as (F & E & S & O & C). simpl.
  split; [reflexivity |]. split; [| auto].
  rewrite <- E, <- S, <- O. eapply aligned_parts; eauto.
Qed.

Lemma blind_print m s : blind H (fun _ => True) (print m s).
Proof. apply blind_emit. Qed.

Lemma blind_input p : blind H (fun _ => True) (input p).
Proof.
  intros w1 w2 Al. pose proof Al as (F & E & S & O & C).
  unfold input. rewrite <- S, <- O, <- E.
  destruct (stdin w1); simpl;
    (split; [reflexivity |]; split; [| auto]);
    eapply aligned_parts; eauto.
Qed.

Lemma blind_getenv k : blind H (fun _ => True) (getenv k).
Proof.
  intros w1 w2 Al. pose proof Al as (F & E & S & O & C).
  unfold getenv. simpl. rewrite E. auto.
Qed.

Lemma credentials_not_yaml_insert e k v :
  own_variable k = true ->
  credentials_not_yaml H e -> credentials_not_yaml H (<[k := v]> e).
Proof.
  intros Hk [C1 C2].
  assert (N1 : k <> "GOOGLE_APPLICATION_CREDENTIALS")
    by (intros ->; discriminate).
  assert (N2 : k <> "APPDATA") by (intros ->; discriminate).
  split.
  - intros v'. rewrite lookup_insert_ne by assumption. apply C1.
  - unfold default_location in *.
    rewrite lookup_insert_ne by assumption. exact C2.
Qed.

Lemma blind_setenv k v :
  own_variable k = true -> blind H (fun _ => True) (setenv k v).
Proof.
  intros Hk w1 w2 Al. pose proof Al as (F & E & S & O & C).
  unfold setenv. simpl. rewrite <- E, <- S, <- O.
  split; [reflexivity |]. split; [| auto].
  split; [exact F |]. simpl.
  auto using credentials_not_yaml_insert.
Qed.

Lemma blind_path_exists p : blind H (fun _ => True) (path_exists p).
Proof.
  intros w1 w2 Al. pose proof Al as (F & E & S & O & C).
  unfold path_exists. simpl. rewrite <- E, <- S, <- O.
  split; [| split; [| auto]].
  - f_equal. apply bool_decide_ext. destruct (F p) as [Fe _].
    symmetry. exact Fe.
  - eapply aligned_parts; eauto.
Qed.

Lemma blind_read_file p :
  is_yaml p = false -> blind H (fun _ => True) (read_file p).
Proof.
  intros Hp w1 w2 Al. pose proof Al as (F & E & S & O & C).
  unfold read_file. destruct (F p) as [_ Fp]. rewrite (Fp Hp).
  rewrite <- E, <- S, <- O.
  destruct (fs w1 !! p) as [[c |] |]; simpl;
    (split; [reflexivity |]; split; [| auto]);
    eapply aligned_parts; eauto.
Qed.

Lemma blind_subprocess_run argv :
  blind H (fun _ => True) (subprocess_run H argv).
Proof.
  intros w1 w2 Al. pose proof Al as (F & E & S & O & C).
  unfold subprocess_run. simpl. rewrite <- E, <- S, <- O.
  split; [reflexivity |]. split; [| auto].
  eapply aligned_parts; eauto.
Qed.

Lemma blind_print_success s : blind H (fun _ => True) (print_success s).
Proof. apply blind_print. Qed.
Lemma blind_print_warning s : blind H (fun _ => True) (print_warning s).
Proof. apply blind_print. Qed.
Lemma blind_print_error s : blind H (fun _ => True) (print_error s).
Proof. apply blind_print. Qed.
Lemma blind_print_info s : blind H (fun _ => True) (print_info s).
Proof. apply blind_print. Qed.

Ltac blinds t :=
  repeat first
    [ match goal with
      | |- blind _ _ (ret _) => apply blind_ret; exact I
      | |- blind _ _ (raise _) => apply blind_raise
      | |- blind _ _ (bind _ _) => apply blind_bind_any; [ | intros ? ]
      | |- blind _ _ (try_except _ _ _) => apply blind_try; [ | intros ? ]
      | |- blind _ _ (match ?x with _ => _ end) => destruct x
      end
    | progress cbv zeta
    | solve [ t ] ].

Ltac leaves :=
  auto using blind_print, blind_input, blind_getenv, blind_setenv,
    blind_path_exists, blind_subprocess_run, blind_print_success,
    blind_print_warning, blind_print_error, blind_print_info.

Variable L : library.

Lemma blind_check_gcloud_installed :
  blind H (fun _ => True) (check_gcloud_installed H).
Proof. unfold check_gcloud_installed. blinds leaves. Qed.

Lemma blind_default_adc_path : blind H (fun _ => True) (default_adc_path H).
Proof. unfold default_adc_path. blinds leaves. Qed.

Lemma get_adc_path_candidates w p :
  fst (get_adc_path H w) = Ret (Some p) ->
  (exists v, env w !! "GOOGLE_APPLICATION_CREDENTIALS" = Some v /\
             p = Path v) \/
  p = default_location H (env w).
Proof.
  unfold get_adc_path, bind, getenv, path_exists. simpl.
  destruct (env w !! "GOOGLE_APPLICATION_CREDENTIALS") as [v |]; simpl.
  - destruct (bool_decide _); simpl.
    + intros [= <-]. eauto.
    + rewrite GcloudSetupFacts.default_adc_path_spec. simpl.
      destruct (bool_decide _); simpl; intros [= <-]. auto.
  - rewrite GcloudSetupFacts.default_adc_path_spec. simpl.
    destruct (bool_decide _); simpl; intros [= <-]. auto.
Qed.

Lemma blind_get_adc_path :
  blind H (fun found => forall p, found = Some p -> is_yaml p = false)
    (get_adc_path H).
Proof.
  assert (B : blind H (fun _ => True) (get_adc_path H)).
  { unfold get_adc_path.
    blinds ltac:(auto using blind_default_adc_path, blind_getenv,
                   blind_path_exists). }
  intros w1 w2 Al. destruct (B w1 w2 Al) as (E & Al' & _).
  split; [exact E |]. split; [exact Al' |].
  intros found R p ->. destruct Al as (_ & _ & _ & _ & C1 & C2).
  destruct (get_adc_path_candidates w1 p R) as [(v & N & ->) | ->]; auto.
Qed.

Lemma blind_check_credential_expiry creds :
  blind H (fun _ => True) (check_credential_expiry H L creds).
Proof.
  unfold check_credential_expiry, creds_get, py_replace, py_fromisoformat,
    before_now.
  blinds leaves.
Qed.

Lemma blind_check_adc : blind H (fun _ => True) (check_adc H L).
Proof.
  unfold check_adc.
  eapply blind_bind; [apply blind_get_adc_path |].
  intros [adc_path |] Hp; [| blinds leaves].
  specialize (Hp adc_path eq_refl).
  blinds ltac:(auto using blind_read_file, blind_check_credential_expiry,
                 blind_print, blind_print_success, blind_print_error,
                 blind_print_info).
Qed.

Lemma blind_get_current_project :
  blind H (fun _ => True) (get_current_project H).
Proof. unfold get_current_project. blinds leaves. Qed.

Lemma blind_permanent_hint n v : blind H (fun _ => True) (permanent_hint n v).
Proof. unfold permanent_hint. blinds leaves. Qed.

Lemma blind_set_project_env_var project :
  blind H (fun _ => True) (set_project_env_var project).
Proof.
  unfold set_project_env_var.
  blinds ltac:(auto using blind_permanent_hint, blind_print, blind_input,
                 blind_getenv, blind_setenv, blind_print_success,
                 blind_print_warning, blind_print_info).
Qed.

Lemma blind_ask_region lines w1 w2 :
  aligned H w1 w2 ->
  fst (ask_region lines w1) = fst (ask_region lines w2) /\
  aligned H (snd (ask_region lines w1)) (snd (ask_region lines w2)).
Proof.
  revert w1 w2. induction lines as [| line rest IH]; intros w1 w2 Al;
    pose proof Al as (F & E & S & O & C); simpl; rewrite <- E, <- O.
  - split; [reflexivity |]. eapply aligned_parts; eauto.
  - match goal with |- context [if ?c then _ else _] => destruct c end;
      simpl.
    + split; [reflexivity |]. eapply aligned_parts; eauto.
    + unfold bind. simpl. apply IH. eapply aligned_parts; eauto.
Qed.

Lemma blind_region_from_env : blind H (fun _ => True) region_from_env.
Proof. unfold region_from_env. blinds leaves. Qed.

Lemma blind_region_from_gcloud :
  blind H (fun _ => True) (region_from_gcloud H).
Proof. unfold region_from_gcloud. blinds leaves. Qed.

Lemma blind_get_region : blind H (fun _ => True) (get_region H).
Proof.
  unfold get_region.
  blinds ltac:(auto using blind_region_from_env, blind_region_from_gcloud,
                 blind_permanent_hint, blind_print, blind_setenv,
                 blind_print_success, blind_print_info).
  all: intros w1 w2 Al; pose proof Al as (_ & _ & S & _);
    rewrite <- S;
    destruct (blind_ask_region (stdin w1) w1 w2 Al) as [E Al'];
    split; [exact E | split; [exact Al' | auto]].
Qed.

Lemma blind_check_vertex_api_enabled project :
  blind H (fun _ => True) (check_vertex_api_enabled H project).
Proof. unfold check_vertex_api_enabled. blinds leaves. Qed.

Lemma blind_traced {A} n (tr : A -> bool) (m : M A) :
  blind H (fun _ => True) m -> blind H (fun _ => True) (traced n tr m).
Proof.
  intros Hm. unfold traced. blinds ltac:(auto using blind_emit).
Qed.

Lemma blind_main : blind H (fun _ => True) (main H L).
Proof.
  unfold main.
  repeat first
    [ match goal with
      | |- blind _ _ (traced _ _ _) =>
          apply blind_traced;
          solve [ auto using blind_check_gcloud_installed, blind_check_adc,
                    blind_get_current_project, blind_set_project_env_var,
                    blind_get_region, blind_check_vertex_api_enabled ]
      | |- blind _ _ (ret _) => apply blind_ret; exact I
      | |- blind _ _ (bind _ _) => apply blind_bind_any; [ | intros ? ]
      | |- blind _ _ (match ?x with _ => _ end) => destruct x
      end
    | progress cbv zeta
    | solve [ leaves ] ].
Qed.

End Blind.

Section Frame.

Import CheckEncodedStrings CheckEncodedStringsFacts.
Variable L : CheckEncodedStrings.library.

Lemma same_but_yaml_refl f : same_but_yaml f f.
Proof. intros p. split; [reflexivity | reflexivity]. Qed.

Lemma same_but_yaml_trans f1 f2 f3 :
  same_but_yaml f1 f2 -> same_but_yaml f2 f3 -> same_but_yaml f1 f3.
Proof.
  intros A B p. destruct (A p) as [A1 A2], (B p) as [B1 B2]. split.
  - rewrite B1. exact A1.
  - intros Y. rewrite (B2 Y). exact (A2 Y).
Qed.

Lemma same_but_yaml_write f p c new :
  f !! p = Some (File c) -> is_yaml p = true ->
  same_but_yaml f (<[p := File new]> f).
Proof.
  intros F Y q. destruct (decide (p = q)) as [<- | N].
  - rewrite lookup_insert_eq, F. split; [split; eauto | congruence].
  - rewrite lookup_insert_ne by assumption. split; reflexivity.
Qed.

(** A run of [process_yaml_file] leaves the files alone or rewrites the
    file it was given, which was there. *)
Lemma process_yaml_file_fs p w :
  fs (snd (process_yaml_file L p w)) = fs w \/
  exists c new, fs w !! p = Some (File c) /\
                fs (snd (process_yaml_file L p w))
                = <[p := File new]> (fs w).
Proof.
  unfold process_yaml_file, bind, read_file.
  destruct (fs w !! p) as [[content |] |] eqn:F; simpl; auto.
  destruct (safe_load L content) as [e | data]; simpl; auto.
  set (w0 := World (fs w) (env w) (stdin w) (out w ++ [OpenRead p])).
  destruct (CheckEncodedStringsFacts.looks_process_data L p data w0)
    as (F1 & _ & _ & _).
  destruct (process_data L p data w0) as [[[data' modified] | e | c] w1];
    simpl in *; auto.
  destruct modified; simpl; auto.
  match goal with
  | |- context [confirm ?p ?new ?lines ?w5] =>
      destruct (CheckEncodedStringsFacts.confirm_cases p new lines w5)
        as (used & _ & C);
      destruct (confirm p new lines w5) as [r w']
  end.
  simpl in *. rewrite F1 in C.
  destruct C as [(_ & _ & _ & _ & [[_ Fw] | (_ & Fw & _)])
    | [(_ & _ & _ & _ & _ & _ & Fw)
    | [(_ & _ & _ & _ & _ & _ & _ & Fw) | (_ & Fw & _)]]]; eauto.
Qed.

Lemma main_loop_frame files processed w :
  same_but_yaml (fs w) (fs (snd (main_loop L files processed w))).
Proof.
  revert processed w. induction files as [| file_path rest IH];
    intros processed w.
  - apply same_but_yaml_refl.
  - rewrite CheckEncodedStringsFacts.main_loop_cons.
    unfold bind, try_except, path_exists, print, emit, ret. cbv beta.
    set (w1 := World (fs w) (env w) (stdin w)
                 (out w ++ [Probe (Path file_path)])).
    destruct (bool_decide (is_Some (fs w !! Path file_path))); cbn [negb].
    2:{ eapply same_but_yaml_trans; [| apply IH]. apply same_but_yaml_refl. }
    destruct (is_yaml (Path file_path)) eqn:Y; cbn [negb].
    2:{ eapply same_but_yaml_trans; [| apply IH]. apply same_but_yaml_refl. }
    pose proof (process_yaml_file_fs (Path file_path) w1) as Fs.
    assert (Fw : same_but_yaml (fs w)
                   (fs (snd (process_yaml_file L (Path file_path) w1)))).
    { destruct Fs as [-> | (c & new & F & ->)];
        [apply same_but_yaml_refl | eapply same_but_yaml_write; eauto]. }
    clear Fs.
    destruct (process_yaml_file L (Path file_path) w1)
      as [[saved | e | c] w2]; cbn [fst snd] in *.
    + eapply same_but_yaml_trans; [exact Fw |].
      match goal with
      | |- same_but_yaml _ (fs (snd (main_loop L rest ?n ?w3))) =>
          exact (IH n w3)
      end.
    + eapply same_but_yaml_trans; [exact Fw |].
      match goal with
      | |- same_but_yaml _ (fs (snd (main_loop L rest ?n ?w3))) =>
          exact (IH n w3)
      end.
    + exact Fw.
Qed.

Lemma expand_patterns_looks patterns :
  keeps (looks is_print) (expand_patterns L patterns).
Proof.
  induction patterns as [| pattern rest IH]; simpl.
  - apply keeps_ret. typeclasses eauto.
  - apply keeps_bind; [typeclasses eauto | | intros expanded].
    + intros w. simpl. reflexivity.
    + apply keeps_bind; [typeclasses eauto | | intros _].
      * destruct expanded; [apply CheckEncodedStringsFacts.looks_print |].
        apply keeps_ret. typeclasses eauto.
      * apply keeps_bind; [typeclasses eauto | exact IH | intros files].
        apply keeps_ret. typeclasses eauto.
Qed.

Lemma main_frame argv w :
  same_but_yaml (fs w) (fs (snd (CheckEncodedStrings.main L argv w))).
Proof.
  unfold CheckEncodedStrings.main.
  destruct (Nat.ltb (List.length argv) 2); [apply same_but_yaml_refl |].
  unfold expand_glob_patterns, bind at 1. unfold bind at 1.
  destruct (expand_patterns_looks (List.tl argv) w) as (F & _ & _ & _).
  destruct (expand_patterns L (List.tl argv) w) as [[files | e | c] w1];
    simpl in *; try (rewrite F; apply same_but_yaml_refl).
  destruct (sorted_set files) as [| f fs'] eqn:Sorted.
  { simpl. rewrite F. apply same_but_yaml_refl. }
  unfold bind at 1. cbn [print emit fst snd].
  rewrite <- F. unfold bind at 1.
  match goal with
  | |- context [main_loop L ?l ?n ?w2] =>
      pose proof (main_loop_frame l n w2) as Fl;
      destruct (main_loop L l n w2) as [[processed | e | c] w3]
  end; simpl in *; exact Fl.
Qed.

End Frame.

(** *** The default place of the credentials is not a YAML file *)

Lemma split_on_nonempty c s : split_on c s <> [].
Proof.
  destruct s as [| d s]; simpl; [discriminate |].
  destruct (Ascii.eqb c d); [discriminate |].
  destruct (split_on c s); discriminate.
Qed.

Lemma split_on_app c a b :
  split_on c (a +:+ String c b) = split_on c a ++ split_on c b.
Proof.
  induction a as [| d a IH]; simpl.
  - rewrite Ascii.eqb_refl. reflexivity.
  - destruct (Ascii.eqb c d); [rewrite IH; reflexivity |].
    rewrite IH. pose proof (split_on_nonempty c a) as N.
    destruct (split_on c a); [contradiction | reflexivity].
Qed.

Lemma components_app a b :
  components (a +:+ "/" +:+ b) = components a ++ components b.
Proof.
  unfold components. change ("/" +:+ b) with (String "/" b).
  rewrite split_on_app. apply List.filter_app.
Qed.

(** The pieces [split_on] gives hold no separator. *)
Lemma split_on_pieces c s :
  Forall (fun x => split_on c x = [x]) (split_on c s).
Proof.
  induction s as [| d s IH]; simpl.
  - constructor; [reflexivity | constructor].
  - destruct (Ascii.eqb c d) eqn:E.
    + constructor; [reflexivity | exact IH].
    + pose proof (split_on_nonempty c s) as N.
      destruct (split_on c s) as [| hd tl]; [contradiction |].
      inversion IH as [| ? ? Hhd Htl]; subst.
      constructor; [| exact Htl]. simpl. rewrite E, Hhd. reflexivity.
Qed.

Lemma components_pieces s :
  Forall (fun x => split_on "/" x = [x] /\ is_component x = true)
    (components s).
Proof.
  unfold components. pose proof (split_on_pieces "/" s) as P.
  induction P as [| x l Hx _ IH]; simpl; [constructor |].
  destruct (is_component x) eqn:C; [constructor; auto | exact IH].
Qed.

Lemma components_concat l :
  Forall (fun x => split_on "/" x = [x] /\ is_component x = true) l ->
  components (String.concat "/" l) = l.
Proof.
  induction 1 as [| x l [Hx Cx] Hl IH]; [reflexivity |].
  destruct l as [| y l].
  - simpl. unfold components. rewrite Hx. simpl. rewrite Cx. reflexivity.
  - change (String.concat "/" (x :: y :: l))
      with (x +:+ "/" +:+ String.concat "/" (y :: l)).
    rewrite components_app, IH. unfold components. rewrite Hx. simpl.
    rewrite Cx. reflexivity.
Qed.

Lemma components_Path s : components (Path s) = components s.
Proof.
  unfold Path. pose proof (components_concat _ (components_pieces s)) as C.
  destruct (is_absolute s).
  - change ("/" +:+ String.concat "/" (components s))
      with ("" +:+ "/" +:+ String.concat "/" (components s)).
    rewrite components_app, C. reflexivity.
  - destruct (String.concat "/" (components s)) eqn:B; simpl.
    + rewrite <- C. reflexivity.
    + exact C.
Qed.

Lemma default_location_not_yaml H e : is_yaml (default_location H e) = false.
Proof.
  assert (J : forall p, is_yaml (joinpath p
                "application_default_credentials.json") = false).
  { intros p. unfold joinpath. simpl is_absolute. cbv iota.
    unfold is_yaml, suffix, path_name.
    rewrite components_Path, components_app.
    change (components "application_default_credentials.json")
      with ["application_default_credentials.json"].
    rewrite List.last_last. reflexivity. }
  unfold default_location. destruct (win32 H); apply J.
Qed.

(** C10, amended: neither program imports the other; what the fixture
    script shows and leaves on the disk is the same whether or not the
    checker has run before it; and what the checker shows is the same
    whether or not the script has run before it, as long as the file named
    by [GOOGLE_APPLICATION_CREDENTIALS] is not one with the suffix [.yaml]
    or [.yml], the files the script rewrites.  The disk is the one thing
    the two programs share. *)
Theorem runs_do_not_interfere H Lc Ls e typed_c argv typed_s disk :
  (forall v, e !! "GOOGLE_APPLICATION_CREDENTIALS" = Some v ->
             is_yaml (Path v) = false) ->
  ~ In "check_encoded_strings" gcloud_setup_imports /\
  ~ In "gcloud_setup" check_encoded_strings_imports /\
  shown (run_checker H Lc e typed_c
           (disk_after (run_script Ls argv typed_s disk)))
  = shown (run_checker H Lc e typed_c disk) /\
  run_script Ls argv typed_s (disk_after (run_checker H Lc e typed_c disk))
  = run_script Ls argv typed_s disk.
Proof.
  intros Named.
  split; [simpl; intuition discriminate |].
  split; [simpl; intuition discriminate |].
  split.
  - unfold shown, run_checker, run_script, disk_after. simpl.
    set (w := World disk ∅ typed_s []).
    pose proof (main_frame Ls argv w) as Fr. simpl in Fr.
    assert (Al : aligned H
                   (World (fs (snd (CheckEncodedStrings.main Ls argv w)))
                      e typed_c [])
                   (World disk e typed_c [])).
    { split; [| simpl; repeat split; auto using default_location_not_yaml].
      simpl. intros p. destruct (Fr p) as [F1 F2]. split.
      - symmetry. exact F1.
      - intros Y. symmetry. exact (F2 Y). }
    destruct (blind_main H Lc _ _ Al) as (E & (_ & _ & _ & O & _) & _).
    rewrite E, O. reflexivity.
  - unfold run_checker, disk_after. simpl.
    destruct (GcloudSetupFacts.keeps_main H Lc (World disk e typed_c []))
      as (F & _).
    simpl in F. rewrite F. reflexivity.
Qed.

(** The theorem on a disk with a cassette and service account
    credentials, the checker being pointed at a key file that is not
    there. *)
Lemma runs_do_not_interfere_witness :
  let H := Samples.Checker.linux "" in
  let Lc := Samples.Checker.sample in
  let Ls := Samples.Script.sample in
  let e : gmap string string :=
    {[ "GOOGLE_APPLICATION_CREDENTIALS" := "/home/dev/key.json" ]} in
  let disk : gmap string node :=
    {[ "a.yaml" := File Samples.Script.hi_text;
       Samples.Checker.adc := File Samples.Checker.service_account_text ]} in
  (forall v, e !! "GOOGLE_APPLICATION_CREDENTIALS" = Some v ->
             is_yaml (Path v) = false) /\
  shown (run_checker H Lc e [""]
           (disk_after (run_script Ls ["script.py"; "a.yaml"] ["y"] disk)))
  = shown (run_checker H Lc e [""] disk) /\
  run_script Ls ["script.py"; "a.yaml"] ["y"]
    (disk_after (run_checker H Lc e [""] disk))
  = run_script Ls ["script.py"; "a.yaml"] ["y"] disk.
Proof.
  intros H Lc Ls e disk.
  assert (Named : forall v, e !! "GOOGLE_APPLICATION_CREDENTIALS" = Some v ->
                            is_yaml (Path v) = false).
  { intros v. unfold e. rewrite lookup_singleton_eq. intros [= <-].
    vm_compute. reflexivity. }
  split; [exact Named |].
  destruct (runs_do_not_interfere H Lc Ls e [""] ["script.py"; "a.yaml"]
              ["y"] disk Named) as (_ & _ & A & B).
  split; assumption.
Defined.

(** C10 as worded fails when the checker is pointed at a cassette: the
    script rewrites the file, and the checker, which cannot read either
    version as JSON, reports a different error before and after. *)
Lemma credentials_in_a_cassette :
  let H := Samples.Checker.linux "" in
  let Lc := Samples.Checker.sample in
  let Ls := Samples.Script.sample in
  let e : gmap string string :=
    {[ "GOOGLE_APPLICATION_CREDENTIALS" := "creds.yaml" ]} in
  let disk : gmap string node :=
    {[ "creds.yaml" := File Samples.Script.hi_flow_text ]} in
  let after :=
    disk_after (run_script Ls ["script.py"; "creds.yaml"] ["y"] disk) in
  after !! "creds.yaml" = Some (File Samples.Script.hi_decompressed_text) /\
  In (Print Error
        "Error reading credentials: Expecting property name enclosed in double quotes: line 1 column 2 (char 1)")
     (snd (shown (run_checker H Lc e [] disk))) /\
  In (Print Error
        "Error reading credentials: Expecting value: line 1 column 1 (char 0)")
     (snd (shown (run_checker H Lc e [] after))) /\
  shown (run_checker H Lc e [] after) <> shown (run_checker H Lc e [] disk) /\
  ~ unaffected_by_each_other.
Proof.
  intros H Lc Ls e disk after.
  assert (D : shown (run_checker H Lc e [] after)
              <> shown (run_checker H Lc e [] disk)).
  { vm_compute. intros E. discriminate E. }
  split; [vm_compute; reflexivity |].
  split; [vm_compute; tauto |].
  split; [vm_compute; tauto |].
  split; [exact D |].
  intros (_ & _ & Claim). apply D.
  exact (proj1 (Claim H Lc Ls e [] ["script.py"; "creds.yaml"] ["y"] disk)).
Qed.

End IndependenceFacts.

(** * More of the two programs *)

(** ** How computations end *)

Section Ends.

Context {A B : Type}.
Variable E : exn -> Prop.
Variable X : Z -> Prop.

Lemma ends_ret (V : A -> Prop) a : V a -> ends V E X (ret a).
Proof. intros Va w. exact Va. Qed.

Lemma ends_raise (V : A -> Prop) e : E e -> ends V E X (@raise A e).
Proof. intros Ee w. exact Ee. Qed.

Lemma ends_exit (V : A -> Prop) c : X c -> ends V E X (@sys_exit A c).
Proof. intros Xc w. exact Xc. Qed.

Lemma ends_bind (V : A -> Prop) (V' : B -> Prop) (m : M A) (k : A -> M B) :
  ends V E X m -> (forall a, V a -> ends V' E X (k a)) ->
  ends V' E X (bind m k).
Proof.
  intros Hm Hk w. unfold bind. specialize (Hm w).
  destruct (m w) as [[a | e | c] w1]; simpl in *; auto.
  apply Hk. exact Hm.
Qed.

Lemma ends_bind_any (V' : B -> Prop) (m : M A) (k : A -> M B) :
  ends (fun _ => True) E X m -> (forall a, ends V' E X (k a)) ->
  ends V' E X (bind m k).
Proof. intros Hm Hk. eapply ends_bind; [exact Hm | auto]. Qed.

Lemma ends_try (V : A -> Prop) (E' : exn -> Prop) (m : M A) handles
    (h : exn -> M A) :
  ends V E' X m ->
  (forall e, E' e -> handles e = true -> ends V E X (h e)) ->
  (forall e, E' e -> handles e = false -> E e) ->
  ends V E X (try_except m handles h).
Proof.
  intros Hm Hh He w. unfold try_except. specialize (Hm w).
  destruct (m w) as [[a | e | c] w1]; simpl in *; auto.
  destruct (handles e) eqn:Hd; simpl; [apply Hh | apply He]; auto.
Qed.

Lemma ends_weaken (V V' : A -> Prop) (m : M A) :
  (forall a, V a -> V' a) -> ends V E X m -> ends V' E X m.
Proof.
  intros HV Hm w. specialize (Hm w).
  destruct (fst (m w)); auto.
Qed.

End Ends.

Lemma ends_emit E X e : ends (fun _ => True) E X (emit e).
Proof. intros w. exact I. Qed.

Lemma ends_print E X m s : ends (fun _ => True) E X (print m s).
Proof. intros w. exact I. Qed.

Lemma ends_getenv E X k : ends (fun _ => True) E X (getenv k).
Proof. intros w. exact I. Qed.

Lemma ends_setenv E X k v : ends (fun _ => True) E X (setenv k v).
Proof. intros w. exact I. Qed.

Lemma ends_path_exists E X p : ends (fun _ => True) E X (path_exists p).
Proof. intros w. exact I. Qed.

Lemma ends_input (E : exn -> Prop) X p :
  (forall msg, E (Exn EOFError msg)) -> ends (fun _ => True) E X (input p).
Proof. intros HE w. unfold input. destruct (stdin w); simpl; auto. Qed.

Lemma ends_read_file (E : exn -> Prop) X p :
  (forall msg, E (Exn FileNotFoundError msg)) ->
  (forall msg, E (Exn IsADirectoryError msg)) ->
  ends (fun _ => True) E X (read_file p).
Proof.
  intros H1 H2 w. unfold read_file.
  destruct (fs w !! p) as [[c |] |]; simpl; auto.
Qed.

Lemma ends_write_file (E : exn -> Prop) X p c :
  (forall msg, E (Exn IsADirectoryError msg)) ->
  ends (fun _ => True) E X (write_file p c).
Proof.
  intros H2 w. unfold write_file.
  destruct (fs w !! p) as [[c' |] |]; simpl; auto.
Qed.

(** Walks through a computation, by its shape; [t] closes the calls. *)
Ltac endings t :=
  repeat first
    [ match goal with
      | |- ends _ _ _ (ret _) => apply ends_ret; try exact I
      | |- ends _ _ _ (raise _) => apply ends_raise
      | |- ends _ _ _ (sys_exit _) => apply ends_exit
      | |- ends _ _ _ (bind _ _) => apply ends_bind_any; [ | intros ? ]
      | |- ends _ _ _ (match ?x with _ => _ end) => destruct x
      end
    | progress cbv zeta
    | solve [ t ] ].

(** ** More of the checker *)

Module GcloudSetupMore.
Import GcloudSetup GcloudSetupSpec GcloudSetupMoreSpec.

Lemma escapes_EOFError msg : escapes (Exn EOFError msg).
Proof. left. reflexivity. Qed.

Lemma escapes_AttributeError msg : escapes (Exn AttributeError msg).
Proof. right. left. reflexivity. Qed.

Lemma escapes_TypeError msg : escapes (Exn TypeError msg).
Proof. right. right. reflexivity. Qed.

Lemma ends_print_success E X s : ends (fun _ => True) E X (print_success s).
Proof. intros w. exact I. Qed.
Lemma ends_print_warning E X s : ends (fun _ => True) E X (print_warning s).
Proof. intros w. exact I. Qed.
Lemma ends_print_error E X s : ends (fun _ => True) E X (print_error s).
Proof. intros w. exact I. Qed.
Lemma ends_print_info E X s : ends (fun _ => True) E X (print_info s).
Proof. intros w. exact I. Qed.

Section Functions.

Variable H : host.
Variable L : library.

Lemma ends_subprocess_run E X argv :
  ends (fun _ => True) E X (subprocess_run H argv).
Proof. intros w. exact I. Qed.

Ltac quiet :=
  auto using ends_print, ends_getenv, ends_setenv, ends_path_exists,
    ends_subprocess_run, ends_emit, ends_print_success, ends_print_warning,
    ends_print_error, ends_print_info.

Lemma ends_check_gcloud_installed E X :
  ends (fun _ => True) E X (check_gcloud_installed H).
Proof. unfold check_gcloud_installed. endings quiet. Qed.

Lemma ends_get_adc_path E X : ends (fun _ => True) E X (get_adc_path H).
Proof. unfold get_adc_path, default_adc_path. endings quiet. Qed.

Lemma ends_get_current_project E X :
  ends (fun o => truthy_opt o = true -> exists p, o = Some p) E X
    (get_current_project H).
Proof.
  unfold get_current_project.
  apply ends_bind_any; [apply ends_subprocess_run | intros result].
  endings ltac:(first [discriminate | eauto]).
Qed.

Lemma ends_permanent_hint E X n v :
  ends (fun _ => True) E X (permanent_hint n v).
Proof. unfold permanent_hint. endings quiet. Qed.

(** [check_credential_expiry]: the type it reports is one of three, and
    the credentials it calls expired are those of a user. *)
Lemma ends_check_credential_expiry creds :
  ends (fun r => (fst r = false -> snd r = "user") /\
                 In (snd r) credential_types)
    (fun e => class e = AttributeError \/ class e = TypeError)
    (fun _ => False)
    (check_credential_expiry H L creds).
Proof.
  unfold check_credential_expiry.
  eapply ends_bind with (V := fun _ => True).
  { unfold creds_get. destruct creds; try (apply ends_raise; left; reflexivity).
    apply ends_ret. exact I. }
  intros credential_type _.
  destruct (is_jstr "service_account" credential_type).
  { apply ends_ret. simpl. split; [discriminate | tauto]. }
  destruct (is_jstr "authorized_user" credential_type).
  2:{ apply ends_ret. simpl. split; [discriminate | tauto]. }
  eapply ends_bind with (V := fun _ => True).
  2:{ intros [|] _; apply ends_ret; simpl; split;
        try discriminate; try reflexivity; tauto. }
  destruct creds as [| | | | | entries]; try (apply ends_ret; exact I).
  destruct (dict_get "expiry" entries) as [value |];
    [| apply ends_ret; exact I].
  eapply ends_try
    with (E' := fun e => class e = AttributeError \/ class e = ValueError
                         \/ class e = TypeError).
  - eapply ends_bind with (V := fun _ => True).
    { unfold py_replace. destruct value;
        try (apply ends_raise; left; reflexivity).
      apply ends_ret. exact I. }
    intros text _. eapply ends_bind with (V := fun _ => True).
    { unfold py_fromisoformat. destruct (fromisoformat L text).
      - apply ends_raise. right. left. reflexivity.
      - apply ends_ret. exact I. }
    intros expiry _. unfold before_now. destruct (aware expiry).
    + apply ends_ret. exact I.
    + apply ends_raise. right. right. reflexivity.
  - intros e _ _. apply ends_ret. exact I.
  - intros [c msg] He Hh. unfold is_ValueError, is_AttributeError in Hh.
    simpl in *. destruct He as [-> | [-> | ->]]; try discriminate. tauto.
Qed.

(** [check_adc] *)
Lemma ends_check_adc :
  ends (fun r => (fst r = true ->
                  exists t, snd r = Some t /\ In t credential_types) /\
                 (fst r = false -> snd r = None \/ snd r = Some "user"))
    (fun e => class e = AttributeError \/ class e = TypeError)
    (fun _ => False)
    (check_adc H L).
Proof.
  unfold check_adc.
  apply ends_bind_any; [apply ends_get_adc_path | intros adc_path].
  destruct adc_path as [adc_path |].
  2:{ endings quiet. simpl. split; [discriminate | tauto]. }
  apply ends_bind_any; [apply ends_print | intros _].
  eapply ends_try
    with (E' := fun e => (class e = AttributeError \/ class e = TypeError)
                         \/ is_JSONDecodeError e = true
                         \/ is_OSError e = true).
  - apply ends_bind_any.
    { apply ends_read_file; intros msg; right; right; reflexivity. }
    intros text. eapply ends_bind with (V := fun _ => True).
    { destruct (json_load L text).
      - apply ends_raise. right. left. reflexivity.
      - apply ends_ret. exact I. }
    intros creds _. eapply ends_bind.
    { pose proof (ends_check_credential_expiry creds) as C.
      intros w. specialize (C w).
      destruct (fst (check_credential_expiry H L creds w));
        [exact C | left; exact C | exact C]. }
    intros [is_valid cred_type] [Hu Ht]. simpl in *. cbv zeta.
    destruct is_valid; simpl.
    + apply ends_bind_any.
      { destruct (String.eqb cred_type "user"); [apply ends_print |].
        destruct (String.eqb cred_type "service_account"); apply ends_print. }
      intros _. apply ends_ret. simpl. split; [eauto | discriminate].
    + apply ends_bind_any; [apply ends_print | intros _].
      apply ends_bind_any.
      { destruct (String.eqb cred_type "user"); [apply ends_print |].
        destruct (String.eqb cred_type "service_account");
          [apply ends_print | apply ends_ret; exact I]. }
      intros _. apply ends_ret. simpl. split; [discriminate |].
      intros _. right. rewrite (Hu eq_refl). reflexivity.
  - intros e _ _. apply ends_bind_any; [apply ends_print | intros _].
    apply ends_ret. simpl. split; [discriminate | tauto].
  - intros e [He | [He | He]] Hh; [exact He | |];
      rewrite He in Hh; try discriminate.
    rewrite orb_true_r in Hh. discriminate.
Qed.

Lemma ends_set_project_env_var project :
  ends (fun _ => True) (fun e => class e = EOFError) (fun _ => False)
    (set_project_env_var project).
Proof.
  unfold set_project_env_var.
  endings ltac:(first [ apply ends_input; reflexivity
                      | apply ends_permanent_hint | quiet ]).
Qed.

Lemma ask_region_cons line rest w :
  ask_region (line :: rest) w
  = let w1 :=
      World (fs w) (env w) rest
        (out w ++ [Input (nl +:+
                           "Enter your region (default: europe-west1): ")]) in
    if accepted line then (Ret (region_of line), w1)
    else
      (print_warning
         "Region format looks incorrect. Please use format like 'us-central1'" ;;
       ask_region rest)%py w1.
Proof. reflexivity. Qed.

Lemma region_of_nonempty line : nonempty (region_of line) = true.
Proof.
  unfold region_of. destruct (nonempty (strip line)) eqn:N; [exact N |].
  reflexivity.
Qed.

Lemma ends_ask_region lines :
  ends (fun r => nonempty r = true) (fun e => class e = EOFError)
    (fun _ => False) (ask_region lines).
Proof.
  induction lines as [| line rest IH]; intros w.
  - reflexivity.
  - rewrite ask_region_cons. cbv zeta.
    destruct (accepted line); [apply region_of_nonempty |].
    unfold bind. simpl. apply IH.
Qed.

Lemma ends_region_from_gcloud :
  ends (fun o => forall r, o = Some r -> nonempty r = true)
    (fun e => class e = EOFError) (fun _ => False)
    (region_from_gcloud H).
Proof.
  unfold region_from_gcloud.
  apply ends_bind_any; [apply ends_subprocess_run | intros result].
  destruct result as [result |]; [| apply ends_ret; discriminate].
  destruct (_ && _); [| apply ends_ret; discriminate].
  cbv zeta. destruct (_ && _) eqn:C; [| apply ends_ret; discriminate].
  apply andb_prop in C as [C _].
  apply ends_bind_any; [apply ends_print_success | intros _].
  apply ends_bind_any; [apply ends_input; reflexivity | intros response].
  destruct (_ || _); apply ends_ret; [| discriminate].
  intros r [= <-]. exact C.
Qed.

Lemma ends_get_region :
  ends (fun r => nonempty r = true) (fun e => class e = EOFError)
    (fun _ => False) (get_region H).
Proof.
  unfold get_region.
  apply ends_bind_any;
    [unfold region_from_env; endings quiet | intros region].
  assert (Rest : ends (fun r => nonempty r = true)
                   (fun e => class e = EOFError) (fun _ => False)
                   (accepted <- region_from_gcloud H ;;
                    match accepted with
                    | Some region => ret region
                    | None =>
                        print_info (nl +:+ "Common Vertex AI regions:") ;;
                        print_info "  us-central1    (Iowa)" ;;
                        print_info "  us-east4       (Virginia)" ;;
                        print_info "  europe-west1   (Belgium)" ;;
                        print_info "  europe-west4   (Netherlands)" ;;
                        print_info "  asia-southeast1 (Singapore)" ;;
                        print_info
                          (nl +:+ "For the full list, see: https://cloud.google.com/vertex-ai/docs/general/locations") ;;
                        region <- (fun w => ask_region (stdin w) w) ;;
                        setenv "GOOGLE_CLOUD_REGION" region ;;
                        print_success
                          ("Set GOOGLE_CLOUD_REGION=" +:+ region
                           +:+ " for this session") ;;
                        print_info
                          (nl +:+ "To make this permanent, add to your shell configuration:") ;;
                        permanent_hint "GOOGLE_CLOUD_REGION" region ;;
                        ret region
                    end)%py).
  { eapply ends_bind; [apply ends_region_from_gcloud | intros accepted Ha].
    destruct accepted as [region' |]; [apply ends_ret; auto |].
    do 7 (apply ends_bind_any; [apply ends_print_info | intros _]).
    eapply ends_bind.
    { intros w. apply ends_ask_region. }
    intros region' Hr.
    apply ends_bind_any; [apply ends_setenv | intros _].
    apply ends_bind_any; [apply ends_print_success | intros _].
    apply ends_bind_any; [apply ends_print_info | intros _].
    apply ends_bind_any; [apply ends_permanent_hint | intros _].
    apply ends_ret. exact Hr. }
  destruct region as [[| c r] |]; try exact Rest.
  apply ends_bind_any; [apply ends_print_success | intros _].
  apply ends_ret. reflexivity.
Qed.

Lemma ends_check_vertex_api_enabled E X project :
  ends (fun _ => True) E X (check_vertex_api_enabled H project).
Proof. unfold check_vertex_api_enabled. endings quiet. Qed.

Lemma ends_traced {A} (V : A -> Prop) E X n (tr : A -> bool) (m : M A) :
  ends V E X m -> ends V E X (traced n tr m).
Proof.
  intros Hm. unfold traced.
  apply ends_bind_any; [apply ends_emit | intros _].
  eapply ends_bind; [exact Hm | intros a Va].
  apply ends_bind_any; [apply ends_emit | intros _].
  apply ends_ret. exact Va.
Qed.

Lemma ends_escapes {A} (V : A -> Prop) (E : exn -> Prop) (m : M A) :
  (forall e, E e -> escapes e) ->
  ends V E (fun _ => False) m ->
  ends (fun _ => True) escapes (fun _ => False) m.
Proof.
  intros HE Hm w. specialize (Hm w).
  destruct (fst (m w)); auto.
Qed.

Lemma ends_main :
  ends (fun code => code = 0%Z \/ code = 1%Z) escapes (fun _ => False)
    (main H L).
Proof.
  unfold main.
  repeat first
    [ match goal with
      | |- ends _ _ _ (traced _ _ _) =>
          apply ends_traced;
          first
            [ apply ends_check_gcloud_installed
            | eapply ends_escapes; [| apply ends_check_adc];
              unfold escapes; tauto
            | eapply ends_weaken; [| apply ends_get_current_project]; auto
            | eapply ends_escapes; [| apply ends_set_project_env_var];
              unfold escapes; tauto
            | eapply ends_escapes; [| apply ends_get_region];
              unfold escapes; tauto
            | apply ends_check_vertex_api_enabled ]
      | |- ends _ _ _ (ret _) => apply ends_ret; tauto
      | |- ends _ _ _ (bind _ _) => apply ends_bind_any; [ | intros ? ]
      | |- ends _ _ _ (match ?x with _ => _ end) => destruct x
      end
    | progress cbv zeta
    | solve [ quiet ] ].
Qed.

(** X1: a region in the environment is taken as it is, without asking
    gcloud or the user: [GOOGLE_CLOUD_REGION] when it is set and not empty,
    and [GCP_REGION] when the first is unset or empty. *)
Theorem get_region_prefers_environment w r :
  env w !! "GOOGLE_CLOUD_REGION" = Some r \/
  ((env w !! "GOOGLE_CLOUD_REGION" = None \/
    env w !! "GOOGLE_CLOUD_REGION" = Some "") /\
   env w !! "GCP_REGION" = Some r) ->
  nonempty r = true ->
  get_region H w
  = (Ret r,
     World (fs w) (env w) (stdin w)
       (out w ++ [Print Success ("Using region from environment: " +:+ r)])).
Proof.
  intros Hr N. destruct r as [| c r]; [discriminate |].
  unfold get_region, region_from_env, bind, getenv. cbv beta.
  destruct Hr as [E | [[E | E] G]]; rewrite E; simpl; try rewrite G;
    reflexivity.
Qed.





(** X6: the prompt loop of [get_region] takes the first line that passes
    its format check (two hyphens, or one of the five regions it lists; an
    empty line stands for [europe-west1]), having prompted once per line
    read and warned once per line it turned down. *)
Theorem ask_region_takes_first_accepted rejected line rest w :
  forallb (fun l => negb (accepted l)) rejected = true ->
  accepted line = true ->
  exists t,
    ask_region (rejected ++ line :: rest) w
    = (Ret (region_of line), World (fs w) (env w) rest (out w ++ t)) /\
    length (List.filter is_input t) = S (length rejected) /\
    length (List.filter is_warning t) = length rejected.
Proof.
  intros Rej Acc. revert w.
  induction rejected as [| l rejected IH]; intros w.
  - simpl app. rewrite ask_region_cons. cbv zeta. rewrite Acc.
    eexists. split; [reflexivity |]. split; reflexivity.
  - simpl in Rej. apply andb_prop in Rej as [Rl Rej].
    apply negb_true_iff in Rl.
    simpl app. rewrite ask_region_cons. cbv zeta. rewrite Rl.
    unfold bind. simpl.
    match goal with
    | |- context [ask_region _ ?w1] =>
        destruct (IH Rej w1) as (t & E & I & W)
    end.
    rewrite E. simpl. eexists. split.
    + rewrite <- !app_assoc. reflexivity.
    + simpl. rewrite I, W. split; reflexivity.
Qed.

End Functions.

(** The theorems above on sample worlds. *)
Lemma get_region_prefers_environment_witness :
  let w := World ∅ {[ "GOOGLE_CLOUD_REGION" := "us-east4";
                      "GCP_REGION" := "europe-west4" ]} [] [] in
  (env w !! "GOOGLE_CLOUD_REGION" = Some "us-east4" /\
   nonempty "us-east4" = true) /\
  fst (get_region (Samples.Checker.linux "") w) = Ret "us-east4".
Proof.
  intros w.
  assert (H1 : env w !! "GOOGLE_CLOUD_REGION" = Some "us-east4")
    by (vm_compute; reflexivity).
  assert (H2 : nonempty "us-east4" = true) by reflexivity.
  split; [split; assumption |].
  rewrite (get_region_prefers_environment (Samples.Checker.linux "") w
             "us-east4" (or_introl H1) H2).
  reflexivity.
Defined.

Lemma ask_region_takes_first_accepted_witness :
  let w := World ∅ ∅ ["here"; "eu-west"; ""; "later"] [] in
  (forallb (fun l => negb (accepted l)) ["here"; "eu-west"] = true /\
   accepted "" = true) /\
  exists t,
    ask_region (["here"; "eu-west"] ++ "" :: ["later"]) w
    = (Ret "europe-west1", World (fs w) (env w) ["later"] (out w ++ t)) /\
    length (List.filter is_input t) = 3 /\
    length (List.filter is_warning t) = 2.
Proof.
  intros w.
  assert (H1 : forallb (fun l => negb (accepted l)) ["here"; "eu-west"]
               = true) by (vm_compute; reflexivity).
  assert (H2 : accepted "" = true) by (vm_compute; reflexivity).
  split; [split; assumption |].
  exact (ask_region_takes_first_accepted ["here"; "eu-west"] "" ["later"] w
           H1 H2).
Defined.

End GcloudSetupMore.

(** ** More of the fixture script *)

Module CheckEncodedStringsMore.
Import CheckEncodedStrings CheckEncodedStringsSpec CheckEncodedStringsMoreSpec.
Import CheckEncodedStringsFacts.

(** *** [sorted(set(...))] *)

Lemma In_insert_sorted s l x :
  In x (insert_sorted s l) <-> x = s \/ In x l.
Proof.
  induction l as [| y l IH]; simpl.
  - split; intros [-> | []]; auto.
  - destruct (String.compare s y) eqn:C; simpl.
    + apply String.compare_eq_iff in C. subst y. intuition auto.
    + intuition auto.
    + rewrite IH. intuition auto.
Qed.

Lemma In_sorted_set l x : In x (sorted_set l) <-> In x l.
Proof.
  induction l as [| y l IH]; simpl; [tauto |].
  unfold sorted_set in *. simpl. rewrite In_insert_sorted, IH.
  split; intros [-> | ?]; auto.
Qed.

Lemma ascending_cons x l :
  ascending (x :: l) = true <->
  match l with [] => True | y :: _ => String.compare x y = Lt end /\
  ascending l = true.
Proof.
  destruct l as [| y l]; simpl; [tauto |].
  destruct (String.compare x y); split; intros; try tauto;
    try discriminate; destruct H; try discriminate; auto.
Qed.

Lemma ascending_insert_sorted s l :
  ascending l = true -> ascending (insert_sorted s l) = true.
Proof.
  induction l as [| x l IH]; intros A; [reflexivity |].
  simpl insert_sorted. destruct (String.compare s x) eqn:C.
  - exact A.
  - apply ascending_cons. split; [exact C | exact A].
  - apply ascending_cons in A as [Hd A]. apply ascending_cons.
    split; [| apply IH; exact A].
    assert (Cx : String.compare x s = Lt).
    { rewrite String.compare_antisym, C. reflexivity. }
    destruct l as [| y l]; simpl; [exact Cx |].
    destruct (String.compare s y); auto.
Qed.

Lemma ascending_sorted_set l : ascending (sorted_set l) = true.
Proof.
  induction l as [| x l IH]; [reflexivity |].
  unfold sorted_set in *. simpl. apply ascending_insert_sorted. exact IH.
Qed.

Section Functions.

Variable L : library.

Lemma expand_patterns_eq patterns w :
  expand_patterns L patterns w
  = (Ret (List.concat (List.map (glob L (fs w)) patterns)),
     World (fs w) (env w) (stdin w)
       (out w ++ List.map no_match
                   (List.filter (unmatched L (fs w)) patterns))).
Proof.
  revert w. induction patterns as [| pattern rest IH]; intros w.
  - simpl. unfold ret. rewrite app_nil_r. destruct w; reflexivity.
  - simpl expand_patterns. unfold bind. cbv beta iota. simpl List.filter.
    unfold unmatched at 1.
    destruct (glob L (fs w) pattern) as [| f fl] eqn:G.
    + unfold print, emit. cbv beta iota. rewrite IH. simpl.
      rewrite G. simpl. rewrite <- app_assoc. reflexivity.
    + unfold ret at 1. cbv beta iota. rewrite IH. simpl. rewrite G.
      reflexivity.
Qed.

(** X7: [expand_glob_patterns] returns the paths [glob.glob] finds for the
    patterns, each of them once, in ascending order, and warns once, in
    the order of the patterns, for each pattern without a match; it changes
    nothing else. *)
Theorem expand_glob_patterns_sorted_union patterns w :
  exists files,
    expand_glob_patterns L patterns w
    = (Ret files,
       World (fs w) (env w) (stdin w)
         (out w ++ List.map no_match
                     (List.filter (unmatched L (fs w)) patterns))) /\
    ascending files = true /\
    forall p,
      In p files <->
      exists pattern, In pattern patterns /\ In p (glob L (fs w) pattern).
Proof.
  unfold expand_glob_patterns, bind. rewrite expand_patterns_eq.
  eexists. split; [reflexivity |]. split; [apply ascending_sorted_set |].
  intros p. rewrite In_sorted_set, in_concat. split.
  - intros (l & Hl & Hp). apply in_map_iff in Hl as (pattern & <- & Hpat).
    eauto.
  - intros (pattern & Hpat & Hp). exists (glob L (fs w) pattern).
    split; [apply in_map; exact Hpat | exact Hp].
Qed.

Lemma concat_unmatched files patterns :
  (forall pattern, In pattern patterns -> glob L files pattern = []) ->
  List.concat (List.map (glob L files) patterns) = [].
Proof.
  induction patterns as [| p rest IH]; intros Hn; [reflexivity |].
  simpl. rewrite (Hn p (or_introl eq_refl)). simpl. apply IH.
  intros q Hq. apply Hn. right. exact Hq.
Qed.

(** X8: when no pattern is given, or no pattern matches a file, [main]
    ends with [sys.exit(1)] having only printed: it opens no file, asks
    nothing and changes nothing. *)
Theorem main_without_files_exits_1 argv w :
  (forall pattern, In pattern (List.tl argv) ->
                   glob L (fs w) pattern = []) ->
  fst (main L argv w) = Exit 1 /\
  looks is_print w (snd (main L argv w)).
Proof.
  intros Hn. unfold main.
  destruct (Nat.ltb (List.length argv) 2).
  - split; [reflexivity |].
    unfold usage, bind, print, emit, sys_exit. simpl.
    repeat split. eexists. rewrite <- !app_assoc. split; reflexivity.
  - assert (E : forall k : list string -> M unit,
               (file_paths <- expand_glob_patterns L (List.tl argv) ;;
                match file_paths with
                | [] =>
                    print Error
                      "No files found matching the provided patterns" ;;
                    sys_exit 1
                | _ => k file_paths
                end)%py w
               = (Exit 1,
                  World (fs w) (env w) (stdin w)
                    ((out w ++ List.map no_match
                                 (List.filter (unmatched L (fs w))
                                    (List.tl argv)))
                     ++ [Print Error
                           "No files found matching the provided patterns"]))).
    { intros k. unfold expand_glob_patterns, bind.
      rewrite expand_patterns_eq, (concat_unmatched _ _ Hn). reflexivity. }
    rewrite E. split; [reflexivity |]. split; [reflexivity |].
    split; [reflexivity |]. split; [reflexivity |].
    eexists. rewrite <- app_assoc. split; [reflexivity |].
    rewrite forallb_app. simpl. rewrite andb_true_r.
    apply forallb_forall. intros e He.
    apply in_map_iff in He as (p & <- & _). reflexivity.
Qed.

(** *** What a run opens and writes *)

Lemma prints_open_nothing p t :
  forallb is_print t = true ->
  forallb (opens_only p) t = true /\ writes t = 0.
Proof.
  induction t as [| e t IH]; intros P; [split; reflexivity |].
  simpl in P. apply andb_prop in P as [Pe P]. destruct (IH P) as [O W].
  destruct e; try discriminate. simpl. rewrite O. split; [reflexivity |].
  exact W.
Qed.

Lemma writes_app t u : writes (t ++ u) = writes t + writes u.
Proof. unfold writes. rewrite List.filter_app, length_app. reflexivity. Qed.

Lemma confirm_trace p new c lines w :
  fs w !! p = Some (File c) ->
  exists t,
    out (snd (confirm p new lines w)) = out w ++ t /\
    forallb (opens_only p) t = true /\
    match fst (confirm p new lines w) with
    | Ret b => writes t = if b then 1 else 0
    | Raise e => class e = EOFError /\ writes t = 0
    | Exit code => code = 0%Z /\ writes t = 0
    end.
Proof.
  revert w. induction lines as [| line rest IH]; intros w F.
  - simpl. exists [Input question]. repeat split.
  - rewrite confirm_cons. cbv zeta.
    destruct (says ["y"; "yes"] line).
    { unfold bind, write_file, print, emit, ret. simpl. rewrite F. simpl.
      exists [Input question; OpenWrite p; Print Success ("Saved " +:+ p)].
      rewrite <- !app_assoc. simpl. rewrite String.eqb_refl.
      repeat split. }
    destruct (says ["n"; "no"] line).
    { unfold bind, print, emit, ret. simpl.
      exists [Input question; Print Error ("Skipped " +:+ p)].
      rewrite <- !app_assoc. repeat split. }
    destruct (says ["q"; "quit"] line).
    { unfold bind, print, emit, sys_exit. simpl.
      exists [Input question; Print Plain "Exiting..."].
      rewrite <- !app_assoc. repeat split. }
    match goal with
    | |- context [confirm p new rest ?w1] =>
        destruct (IH w1 F) as (t & O & P & R)
    end.
    exists (Input question :: t). rewrite O. simpl.
    rewrite <- app_assoc. split; [reflexivity |]. split; [exact P |].
    destruct (fst (confirm p new rest _)) as [b | e | code]; exact R.
Qed.

Lemma process_yaml_file_trace p w :
  exists t,
    out (snd (process_yaml_file L p w)) = out w ++ t /\
    forallb (opens_only p) t = true /\
    match fst (process_yaml_file L p w) with
    | Ret b => writes t = if b then 1 else 0
    | Raise e => writes t = 0
    | Exit code => code = 0%Z /\ writes t = 0
    end.
Proof.
  destruct (process_yaml_file L p w) as [r w'] eqn:E. simpl fst. simpl snd.
  unfold process_yaml_file in E. unfold bind at 1 in E.
  unfold read_file in E.
  destruct (fs w !! p) as [[c |] |] eqn:F; cbv beta iota zeta in E.
  2:{ injection E as <- <-. exists [OpenRead p]. simpl.
      rewrite String.eqb_refl. repeat split. }
  2:{ injection E as <- <-. exists [OpenRead p]. simpl.
      rewrite String.eqb_refl. repeat split. }
  destruct (safe_load L c) as [e | data].
  { unfold bind, print, emit, ret in E. simpl in E. injection E as <- <-.
    exists [OpenRead p; Print Plain ("Error parsing YAML: " +:+ e)].
    simpl. rewrite <- app_assoc. rewrite String.eqb_refl. repeat split. }
  set (w1 := World (fs w) (env w) (stdin w) (out w ++ [OpenRead p])) in E.
  unfold bind at 1 in E.
  pose proof (looks_process_data L p data w1) as (F1 & _ & _ & t1 & O1 & P1).
  pose proof (stays_process_data L p data w1) as S1.
  destruct (process_data L p data w1) as [[[data' modified] | e | code] w2];
    simpl in F1, O1, S1; cbv beta iota in E.
  3:{ exfalso. exact (S1 code eq_refl). }
  2:{ injection E as <- <-.
      destruct (prints_open_nothing p t1 P1) as [Q1 W1].
      exists (OpenRead p :: t1). simpl. rewrite O1, String.eqb_refl.
      subst w1. simpl. rewrite <- app_assoc. repeat split; auto. }
  destruct (prints_open_nothing p t1 P1) as [Q1 W1].
  assert (Wx : forall u, writes (OpenRead p :: t1 ++ u) = writes u).
  { intros u. change (writes (OpenRead p :: ?l)) with (writes l).
    rewrite writes_app, W1. reflexivity. }
  cbn [fst snd] in E.
  destruct modified; cbn [negb] in E; cbv beta iota in E.
  2:{ unfold bind, print, emit, ret in E. simpl in E. injection E as <- <-.
      exists (OpenRead p :: t1
              ++ [Print Plain ("No gzip bodies found in " +:+ p)]).
      simpl out. rewrite O1. subst w1. simpl out.
      rewrite <- !app_assoc. simpl app.
      split; [reflexivity |]. split.
      - simpl. rewrite String.eqb_refl, forallb_app, Q1. reflexivity.
      - rewrite Wx. reflexivity. }
  unfold bind, print, emit in E. cbv beta iota in E.
  cbn [fs env stdin out] in E.
  match type of E with
  | confirm p ?new ?lines ?w5 = _ =>
      destruct (confirm_trace p new c lines w5) as (t & O & P & R);
        [simpl; rewrite F1; subst w1; exact F |]
  end.
  rewrite E in O, R. simpl in O, R.
  exists (OpenRead p
          :: t1 ++ [Print Plain (nl +:+ rule);
                    Print Plain ("File: " +:+ p);
                    Print Plain (rule +:+ nl);
                    Print Plain
                      (unified_diff L c (dump L data')
                         (p +:+ " (original)") (p +:+ " (decompressed)"))]
                ++ t).
  rewrite O, O1. subst w1. simpl out. rewrite <- !app_assoc. simpl app.
  split; [reflexivity |]. split.
  - simpl. rewrite String.eqb_refl, forallb_app, Q1. simpl. exact P.
  - rewrite Wx.
    change (writes (Print Plain ?a :: Print Plain ?b :: Print Plain ?c'
                    :: Print Plain ?d :: t)) with (writes t).
    destruct r as [b | e | code]; [exact R | apply R | exact R].
Qed.

Lemma opens_only_yaml p t :
  is_yaml p = true ->
  forallb (opens_only p) t = true -> forallb opens_yaml t = true.
Proof.
  intros Y O. apply forallb_forall. intros e He.
  rewrite forallb_forall in O. specialize (O e He).
  destruct e; try reflexivity; simpl in *;
    apply String.eqb_eq in O; subst; exact Y.
Qed.

Lemma main_loop_trace files processed w :
  exists t,
    out (snd (main_loop L files processed w)) = out w ++ t /\
    forallb opens_yaml t = true /\
    match fst (main_loop L files processed w) with
    | Ret n => n = processed + writes t
    | Raise _ => False
    | Exit code => code = 0%Z
    end.
Proof.
  revert processed w. induction files as [| file rest IH];
    intros processed w.
  - exists []. simpl. rewrite app_nil_r. repeat split. unfold writes. simpl.
    lia.
  - destruct (main_loop L (file :: rest) processed w) as [r w'] eqn:E.
    simpl fst. simpl snd.
    rewrite main_loop_cons in E. unfold bind at 1 in E.
    unfold path_exists in E. cbv beta iota in E.
    set (w1 := World (fs w) (env w) (stdin w) (out w ++ [Probe (Path file)]))
      in E.
    assert (Skip :
      forall m s,
        (print m s ;; main_loop L rest processed)%py w1 = (r, w') ->
        exists t,
          out w' = out w ++ t /\ forallb opens_yaml t = true /\
          match r with
          | Ret n => n = processed + writes t
          | Raise _ => False
          | Exit code => code = 0%Z
          end).
    { intros m s E'. unfold bind, print, emit in E'. cbv beta iota in E'.
      match type of E' with
      | main_loop L rest processed ?w2 = _ =>
          destruct (IH processed w2) as (t & O & Y & R)
      end.
      rewrite E' in O, R. simpl in O, R.
      exists (Probe (Path file) :: Print m s :: t).
      rewrite O. subst w1. simpl. rewrite <- !app_assoc.
      split; [reflexivity |]. split; [exact Y |].
      destruct r as [n | e | code]; exact R. }
    destruct (bool_decide (is_Some (fs w !! Path file))); cbn [negb] in E;
      cbv beta iota in E.
    2:{ eapply Skip. exact E. }
    destruct (is_yaml (Path file)) eqn:Yf; cbn [negb] in E;
      cbv beta iota in E.
    2:{ eapply Skip. exact E. }
    clear Skip.
    unfold bind at 1 in E. unfold try_except in E. unfold bind at 1 in E.
    destruct (process_yaml_file_trace (Path file) w1) as (t1 & O1 & P1 & R1).
    apply (opens_only_yaml _ _ Yf) in P1.
    destruct (process_yaml_file L (Path file) w1) as [[saved | e | code] w2];
      simpl in O1, R1; cbv beta iota in E.
    + unfold ret at 1 in E. cbv beta iota in E.
      unfold bind, print, emit in E. cbv beta iota in E.
      match type of E with
      | main_loop L rest ?n ?w3 = _ =>
          destruct (IH n w3) as (t & O & Y & R)
      end.
      rewrite E in O, R. simpl in O, R.
      exists (Probe (Path file) :: t1 ++ Print Plain "" :: t).
      rewrite O, O1. subst w1. simpl out. rewrite <- !app_assoc. simpl app.
      split; [reflexivity |]. split.
      { simpl. rewrite forallb_app, P1. simpl. exact Y. }
      destruct r as [n | e | code]; try exact R.
      change (writes (Probe (Path file) :: ?l)) with (writes l).
      rewrite writes_app.
      change (writes (Print Plain "" :: t)) with (writes t).
      rewrite R1, R. destruct saved; lia.
    + unfold bind, print, emit, ret in E. cbv beta iota in E.
      match type of E with
      | main_loop L rest ?n ?w3 = _ =>
          destruct (IH n w3) as (t & O & Y & R)
      end.
      rewrite E in O, R. simpl in O, R.
      exists (Probe (Path file)
              :: t1 ++ Print Error
                         ("Error processing " +:+ file +:+ ": "
                          +:+ message e)
                 :: Print Plain "" :: t).
      rewrite O, O1. subst w1. simpl out. rewrite <- !app_assoc. simpl app.
      split; [reflexivity |]. split.
      { simpl. rewrite forallb_app, P1. simpl. exact Y. }
      destruct r as [n | e' | code]; try exact R.
      change (writes (Probe (Path file) :: ?l)) with (writes l).
      rewrite writes_app.
      change (writes (Print Error ?s :: Print Plain "" :: t))
        with (writes t).
      rewrite R1, R. lia.
    + injection E as <- <-.
      exists (Probe (Path file) :: t1). rewrite O1. subst w1. simpl out.
      rewrite <- app_assoc. split; [reflexivity |]. split; [exact P1 |].
      apply R1.
Qed.

Lemma writes_no_match l : writes (List.map no_match l) = 0.
Proof. induction l as [| p l IH]; [reflexivity | exact IH]. Qed.

Lemma main_trace argv w :
  exists t,
    out (snd (main L argv w)) = out w ++ t /\
    forallb opens_yaml t = true /\
    match fst (main L argv w) with
    | Ret _ =>
        exists t0,
          t = t0 ++ [Print Plain (nl +:+ rule);
                     Print Plain
                       ("Summary: " +:+ str_of_nat (writes t0)
                        +:+ " file(s) modified");
                     Print Plain rule]
    | Raise _ => False
    | Exit code => code = 0%Z \/ code = 1%Z
    end.
Proof.
  destruct (main L argv w) as [r w'] eqn:E. simpl fst. simpl snd.
  unfold main in E.
  destruct (Nat.ltb (List.length argv) 2).
  { unfold usage, bind, print, emit, sys_exit in E. simpl in E.
    injection E as <- <-. eexists. rewrite <- !app_assoc.
    split; [reflexivity |]. split; [reflexivity |]. right. reflexivity. }
  unfold expand_glob_patterns in E. unfold bind at 1 in E.
  unfold bind at 1 in E. rewrite expand_patterns_eq in E.
  unfold ret at 1 in E. cbv beta iota in E.
  set (warnings := List.map no_match _) in E.
  assert (Wq : forallb opens_yaml warnings = true).
  { apply forallb_forall. intros e He.
    apply in_map_iff in He as (p & <- & _). reflexivity. }
  assert (Ww : forall u, writes (warnings ++ u) = writes u).
  { intros u. rewrite writes_app. subst warnings.
    rewrite writes_no_match. reflexivity. }
  destruct (sorted_set _) as [| file files] eqn:Sf.
  { unfold bind, print, emit, sys_exit in E. simpl in E.
    injection E as <- <-.
    exists (warnings
            ++ [Print Error "No files found matching the provided patterns"]).
    rewrite <- app_assoc. split; [reflexivity |].
    rewrite forallb_app, Wq. split; [reflexivity |]. right. reflexivity. }
  unfold bind at 1 in E. unfold print at 1, emit in E. cbv beta iota in E.
  cbn [fs env stdin out] in E. unfold bind at 1 in E.
  match type of E with
  | context [main_loop L ?fl 0 ?w1] =>
      destruct (main_loop_trace fl 0 w1) as (t & O & Y & R);
      destruct (main_loop L fl 0 w1) as [[n | e | code] w2]
  end; simpl in O, R.
  - unfold bind, print, emit in E. simpl in E. injection E as <- <-.
    simpl out. rewrite O. subst n.
    match goal with
    | |- context [(out w ++ warnings) ++ [?found]] =>
        exists (warnings ++ found :: t
                ++ [Print Plain (nl +:+ rule);
                    Print Plain
                      ("Summary: " +:+ str_of_nat (writes t)
                       +:+ " file(s) modified");
                    Print Plain rule]);
        split; [rewrite <- !app_assoc; reflexivity |];
        split; [rewrite forallb_app, Wq; simpl; rewrite forallb_app, Y;
                reflexivity |];
        exists (warnings ++ found :: t)
    end.
    rewrite Ww. change (writes (Print Plain ?s :: t)) with (writes t).
    rewrite <- !app_assoc. reflexivity.
  - destruct R.
  - injection E as <- <-. rewrite O. subst code.
    match goal with
    | |- context [(out w ++ warnings) ++ [?found]] =>
        exists (warnings ++ found :: t)
    end.
    rewrite <- !app_assoc. split; [reflexivity |].
    rewrite forallb_app, Wq. simpl. split; [exact Y |]. left. reflexivity.
Qed.


(** X10: whatever the patterns match, the only files [main] opens, for
    reading or for writing, have the suffix [.yaml] or [.yml]. *)
Theorem main_opens_only_yaml argv w :
  exists t,
    out (snd (main L argv w)) = out w ++ t /\
    forall p, In (OpenRead p) t \/ In (OpenWrite p) t -> is_yaml p = true.
Proof.
  destruct (main_trace argv w) as (t & O & Y & _).
  exists t. split; [exact O |]. rewrite forallb_forall in Y.
  intros p [Hp | Hp]; exact (Y _ Hp).
Qed.


(** *** What the loop over the interactions changes *)

Ltac crack E :=
  repeat first
    [ discriminate E
    | progress (unfold bind, ret, raise, print, emit in E)
    | progress (cbn [fst snd negb py_in py_getitem py_slice10 py_pop
                     decompress_gzip_string] in E)
    | match type of E with
      | context [match ?x with _ => _ end] => destruct x eqn:?
      end ].

Lemma py_getitem_Ret v k x w w' :
  py_getitem v k w = (Ret x, w') ->
  exists d, v = YDict d /\ dict_get k d = Some x.
Proof.
  intros E. destruct v; try discriminate E. simpl in E.
  destruct (dict_get k entries) eqn:G; [| discriminate E].
  injection E as -> _. eauto.
Qed.

Lemma py_pop_Ret v k x w w' :
  py_pop v k w = (Ret x, w') ->
  exists d, v = YDict d /\ has_key k d = true /\ x = YDict (dict_del k d).
Proof.
  intros E. destruct v; try discriminate E. simpl in E.
  destruct (has_key k entries) eqn:G; [| discriminate E].
  injection E as <- _. eauto.
Qed.

Lemma decompress_gzip_string_Some data s w w' :
  decompress_gzip_string L data w = (Ret (Some s), w') ->
  gunzip L data = Some s.
Proof.
  unfold decompress_gzip_string, gunzip. intros E.
  destruct (gzip_decompress L data) as [e | raw]; [discriminate E |].
  destruct (decode_utf8 L raw) as [e | text]; [discriminate E |].
  injection E as -> _. reflexivity.
Qed.

(** An interaction the loop modifies, and what it makes of it. *)
Lemma process_interaction_modified p i i' w :
  fst (process_interaction L p i w) = Ret (i', true) ->
  exists e r b data text h,
    i = YDict e /\ dict_get "response" e = Some (YDict r) /\
    dict_get "body" r = Some (YDict b) /\
    dict_get "string" b = Some (YBytes data) /\
    gunzip L (strip_bytes data) = Some text /\ nonempty text = true /\
    dict_get "headers" r = Some (YDict h) /\
    has_key "Content-Encoding" h = true /\
    i' = YDict (dict_set "response"
                  (YDict (dict_set "headers"
                            (YDict (dict_del "Content-Encoding" h))
                            (dict_set "body"
                               (YDict (dict_set "string" (YStr text) b)) r)))
                  e).
Proof.
  intros E. unfold process_interaction in E. crack E.
  injection E as <-.
  match goal with
  | G : py_getitem i "response" _ = _ |- _ =>
      apply py_getitem_Ret in G as (e & -> & Ge)
  end.
  match goal with
  | G : py_getitem _ "body" _ = _ |- _ =>
      apply py_getitem_Ret in G as (r & -> & Gr)
  end.
  match goal with
  | G : decompress_gzip_string _ _ _ = _ |- _ =>
      apply decompress_gzip_string_Some in G
  end.
  match goal with
  | G : py_getitem _ "headers" _ = _ |- _ =>
      apply py_getitem_Ret in G as (r' & Er & Gh)
  end.
  match goal with
  | G : py_pop _ _ _ = _ |- _ =>
      apply py_pop_Ret in G as (h & -> & Kh & ->)
  end.
  simpl in Er. injection Er as <-.
  rewrite dict_get_set_ne in Gh by discriminate.
  do 6 eexists. repeat (split; [eassumption || reflexivity |]).
  reflexivity.
Qed.

Lemma process_interaction_unmodified p i i' w :
  fst (process_interaction L p i w) = Ret (i', false) -> i' = i.
Proof.
  intros E. unfold process_interaction in E. crack E.
  all: injection E as <-; reflexivity.
Qed.

Lemma dict_get_del_ne k k' d :
  k <> k' -> dict_get k (dict_del k' d) = dict_get k d.
Proof.
  intros N. induction d as [| [k0 v0] d IH]; [reflexivity |]. simpl.
  destruct (String.eqb k' k0) eqn:E1.
  - apply String.eqb_eq in E1. subst k0.
    destruct (String.eqb k k') eqn:E2; [| reflexivity].
    apply String.eqb_eq in E2. contradiction.
  - simpl. rewrite IH. reflexivity.
Qed.


(** *** A second run *)

Lemma pure_ret {A} (a : A) : pure_result (ret a).
Proof. intros w1 w2. reflexivity. Qed.

Lemma pure_raise {A} e : pure_result (@raise A e).
Proof. intros w1 w2. reflexivity. Qed.

Lemma pure_print m s : pure_result (print m s).
Proof. intros w1 w2. reflexivity. Qed.

Lemma pure_bind {A B} (m : M A) (k : A -> M B) :
  pure_result m -> (forall a, pure_result (k a)) -> pure_result (bind m k).
Proof.
  intros Hm Hk w1 w2. unfold bind. specialize (Hm w1 w2).
  destruct (m w1) as [[a | e | c] w1'], (m w2) as [[a' | e' | c'] w2'];
    simpl in Hm |- *; try discriminate Hm;
    try (injection Hm as ->; reflexivity).
  injection Hm as <-. apply Hk.
Qed.

Ltac pures :=
  repeat first
    [ match goal with
      | |- pure_result (ret _) => apply pure_ret
      | |- pure_result (raise _) => apply pure_raise
      | |- pure_result (print _ _) => apply pure_print
      | |- pure_result (bind _ _) => apply pure_bind; [ | intros ? ]
      | |- pure_result (match ?x with _ => _ end) => destruct x
      end
    | progress cbv zeta ].

Lemma pure_process_interaction p i : pure_result (process_interaction L p i).
Proof.
  unfold process_interaction, py_in, py_getitem, py_slice10, py_pop,
    decompress_gzip_string.
  pures.
Qed.

Lemma pure_process_interactions p l :
  pure_result (process_interactions L p l).
Proof.
  induction l as [| i l IH]; cbn [process_interactions]; pures.
  - apply pure_process_interaction.
  - exact IH.
Qed.

Lemma pure_process_data p data : pure_result (process_data L p data).
Proof.
  unfold process_data, py_iter. pures; apply pure_process_interactions.
Qed.

Lemma process_interaction_again p i i' m w w2 :
  fst (process_interaction L p i w) = Ret (i', m) ->
  fst (process_interaction L p i' w2) = Ret (i', false).
Proof.
  intros E. destruct m.
  - destruct (process_interaction_modified p i i' w E)
      as (e & r & b & data & text & h & -> & Ge & Gr & Gb & Gz & Ne & Gh
          & Kh & ->).
    unfold process_interaction, bind, py_in, py_getitem, py_slice10, print,
      emit, ret.
    cbn [negb fst snd]. unfold has_key. rewrite !dict_get_set_eq.
    cbn [negb]. rewrite (dict_get_set_ne "body" "headers") by discriminate.
    rewrite !dict_get_set_eq. reflexivity.
  - rewrite (process_interaction_unmodified p i i' w E).
    rewrite (pure_process_interaction p i w2 w).
    rewrite (process_interaction_unmodified p i i' w E) in E. exact E.
Qed.

Lemma process_interactions_again p l l' m w w2 :
  fst (process_interactions L p l w) = Ret (l', m) ->
  fst (process_interactions L p l' w2) = Ret (l', false).
Proof.
  revert l' m w w2. induction l as [| i l IH]; intros l' m w w2 E.
  - simpl in E. injection E as <- <-. reflexivity.
  - simpl in E. unfold bind in E.
    destruct (process_interaction L p i w) as [[[i1 m1] | e | c] w1] eqn:E1;
      try discriminate E.
    destruct (process_interactions L p l w1) as [[[l1 m2] | e | c] w3]
      eqn:E2; try discriminate E.
    simpl in E. injection E as <- <-.
    assert (A1 := process_interaction_again p i i1 m1 w w2).
    rewrite E1 in A1. specialize (A1 eq_refl).
    simpl. unfold bind.
    destruct (process_interaction L p i1 w2) as [r1 w4]. simpl in A1.
    subst r1.
    assert (A2 := IH l1 m2 w1 w4). rewrite E2 in A2.
    specialize (A2 eq_refl).
    destruct (process_interactions L p l1 w4) as [r2 w5]. simpl in A2.
    subst r2. reflexivity.
Qed.

(** Only an interaction that is a mapping is ever modified. *)
Lemma process_interactions_not_dicts p l l' m w :
  Forall (fun i => forall e, i <> YDict e) l ->
  fst (process_interactions L p l w) = Ret (l', m) -> m = false.
Proof.
  revert l' m w. induction l as [| i l IH]; intros l' m w Hn E.
  - simpl in E. injection E as <- <-. reflexivity.
  - inversion Hn as [| ? ? Hi Hl]; subst.
    simpl in E. unfold bind in E.
    destruct (process_interaction L p i w) as [[[i1 m1] | e | c] w1] eqn:E1;
      try discriminate E.
    destruct (process_interactions L p l w1) as [[[l1 m2] | e | c] w3]
      eqn:E2; try discriminate E.
    simpl in E. injection E as <- <-.
    assert (M2 : m2 = false).
    { apply (IH l1 m2 w1 Hl). rewrite E2. reflexivity. }
    destruct m1; [| exact M2].
    exfalso.
    destruct (process_interaction_modified p i i1 w) as (e & ? & ? & ? & ?
      & ? & -> & _); [rewrite E1; reflexivity |].
    exact (Hi e eq_refl).
Qed.

Lemma process_data_again p data data' m w w2 :
  fst (process_data L p data w) = Ret (data', m) ->
  fst (process_data L p data' w2) = Ret (data', false).
Proof.
  intros E.
  assert (Same : forall m', fst (process_data L p data w) = Ret (data, m') ->
                 m' = false ->
                 fst (process_data L p data w2) = Ret (data, false)).
  { intros m' E' ->. rewrite (pure_process_data p data w2 w). exact E'. }
  destruct data as [| | | | | | d];
    try (simpl in E; injection E as <- <-; reflexivity).
  unfold process_data in E, Same.
  destruct (dict_get "interactions" d) as [v |] eqn:G.
  2:{ simpl in E. injection E as <- <-. unfold process_data. rewrite G.
      reflexivity. }
  unfold bind in E, Same.
  destruct v as [| | | s | bs | items | d'];
    try (simpl in E; discriminate E).
  - (* a text: its characters *)
    simpl py_iter in E, Same. unfold ret at 1 in E. unfold ret at 1 in Same.
    cbv beta iota in E, Same.
    destruct (process_interactions L p (chars s) w)
      as [[[l1 m1] | e | c] w1] eqn:E1; try discriminate E.
    simpl in E. injection E as <- <-. simpl in Same.
    assert (M : m1 = false).
    { apply (process_interactions_not_dicts p (chars s) l1 m1 w).
      - clear. induction s; simpl; constructor; [discriminate | assumption].
      - rewrite E1. reflexivity. }
    subst m1. unfold process_data. rewrite G. unfold bind. simpl py_iter.
    unfold ret at 1. cbv beta iota. apply (Same false); reflexivity.
  - (* bytes: their values *)
    simpl py_iter in E, Same. unfold ret at 1 in E. unfold ret at 1 in Same.
    cbv beta iota in E, Same.
    destruct (process_interactions L p _ w)
      as [[[l1 m1] | e | c] w1] eqn:E1; try discriminate E.
    simpl in E. injection E as <- <-. simpl in Same.
    assert (M : m1 = false).
    { match type of E1 with
      | process_interactions L p ?l w = _ =>
          apply (process_interactions_not_dicts p l l1 m1 w)
      end.
      - clear. induction bs; simpl; constructor; [discriminate | assumption].
      - rewrite E1. reflexivity. }
    subst m1. unfold process_data. rewrite G. unfold bind. simpl py_iter.
    unfold ret at 1. cbv beta iota. apply (Same false); reflexivity.
  - (* a list: the interactions *)
    simpl py_iter in E. unfold ret at 1 in E. cbv beta iota in E.
    destruct (process_interactions L p items w)
      as [[[l1 m1] | e | c] w1] eqn:E1; try discriminate E.
    simpl in E. injection E as <- <-.
    unfold process_data. rewrite dict_get_set_eq. unfold bind.
    simpl py_iter. unfold ret at 1. cbv beta iota.
    assert (A := process_interactions_again p items l1 m1 w w2).
    rewrite E1 in A. specialize (A eq_refl).
    destruct (process_interactions L p l1 w2) as [r2 w3]. simpl in A.
    subst r2. simpl. rewrite dict_set_set. reflexivity.
  - (* a mapping: its keys *)
    simpl py_iter in E, Same. unfold ret at 1 in E. unfold ret at 1 in Same.
    cbv beta iota in E, Same.
    destruct (process_interactions L p _ w)
      as [[[l1 m1] | e | c] w1] eqn:E1; try discriminate E.
    simpl in E. injection E as <- <-. simpl in Same.
    assert (M : m1 = false).
    { match type of E1 with
      | process_interactions L p ?l w = _ =>
          apply (process_interactions_not_dicts p l l1 m1 w)
      end.
      - clear. induction d'; simpl; constructor; [discriminate | assumption].
      - rewrite E1. reflexivity. }
    subst m1. unfold process_data. rewrite G. unfold bind. simpl py_iter.
    unfold ret at 1. cbv beta iota. apply (Same false); reflexivity.
Qed.

(** X13: running the script again finds nothing to do.  If a file holds
    what [yaml.dump] wrote for a document as the loop of
    [process_yaml_file] left it, and [yaml.safe_load] reads that document
    back, then [process_yaml_file] returns [False] on the file: it prints,
    asks nothing and writes nothing. *)
Theorem second_run_finds_nothing p data data' m w0 w :
  fst (process_data L p data w0) = Ret (data', m) ->
  safe_load L (dump L data') = inr data' ->
  fs w !! p = Some (File (dump L data')) ->
  exists t,
    process_yaml_file L p w
    = (Ret false, World (fs w) (env w) (stdin w) (out w ++ t)) /\
    forallb no_prompt t = true.
Proof.
  intros E Rt F.
  pose proof (fun w2 => process_data_again p data data' m w0 w2 E) as E'.
  unfold process_yaml_file, bind, read_file. rewrite F. cbv beta iota zeta.
  rewrite Rt.
  set (w1 := World (fs w) (env w) (stdin w) (out w ++ [OpenRead p])).
  pose proof (looks_process_data L p data' w1) as (F1 & V1 & I1 & t1 & O1 & P1).
  specialize (E' w1).
  destruct (process_data L p data' w1) as [r w2]. simpl in *. subst r.
  simpl. unfold print, emit, ret. simpl.
  exists (OpenRead p :: t1
          ++ [Print Plain ("No gzip bodies found in " +:+ p)]).
  rewrite F1, V1, I1, O1. subst w1. simpl. rewrite <- !app_assoc.
  split; [reflexivity |].
  rewrite forallb_app. simpl. rewrite andb_true_r.
  apply forallb_forall. intros e He. rewrite forallb_forall in P1.
  specialize (P1 e He). destruct e; try discriminate; reflexivity.
Qed.

(** X14: a file that parses to something else than a mapping with an
    ['interactions'] key (an empty file gives [None]) is left alone:
    [process_yaml_file] reads it, prints that it found no gzip body and
    returns [False], without a prompt. *)
Theorem process_yaml_file_without_interactions p w content data :
  fs w !! p = Some (File content) ->
  safe_load L content = inr data ->
  no_interactions data = true ->
  process_yaml_file L p w
  = (Ret false,
     World (fs w) (env w) (stdin w)
       (out w ++ [OpenRead p;
                  Print Plain ("No gzip bodies found in " +:+ p)])).
Proof.
  intros F S N. unfold process_yaml_file, bind, read_file.
  rewrite F. cbv beta iota zeta. rewrite S.
  assert (D : forall w1, process_data L p data w1 = (Ret (data, false), w1)).
  { intros w1. destruct data as [| | | | | | d]; try reflexivity.
    simpl in N. unfold has_key in N. unfold process_data.
    destruct (dict_get "interactions" d); [discriminate N | reflexivity]. }
  rewrite D. simpl. unfold print, emit, ret. simpl.
  rewrite <- app_assoc. reflexivity.
Qed.

(** X15: at the prompt of [process_yaml_file], a line that is none of
    [y], [yes], [n], [no], [q], [quit] (in any case, with any space around
    it), an empty line among them, only makes the question come again: the
    lines after it are read as if it had not been typed. *)
Theorem confirm_skips_unrecognised p new skipped rest w :
  forallb unrecognised skipped = true ->
  confirm p new (skipped ++ rest) w
  = confirm p new rest
      (World (fs w) (env w) (stdin w)
         (out w ++ List.repeat (Input question) (List.length skipped))).
Proof.
  intros U. revert w. induction skipped as [| line skipped IH]; intros w.
  - simpl. rewrite app_nil_r. destruct w; reflexivity.
  - simpl in U. apply andb_prop in U as [Ul U].
    unfold unrecognised in Ul.
    apply andb_prop in Ul as [Ul Uq]. apply andb_prop in Ul as [Uy Un].
    apply negb_true_iff in Uy, Un, Uq.
    simpl app. rewrite confirm_cons. cbv zeta. rewrite Uy, Un, Uq.
    rewrite (IH U). simpl. rewrite <- app_assoc.
    destruct rest as [| r rest']; reflexivity.
Qed.

End Functions.

Lemma process_yaml_file_without_interactions_witness :
  let L := MoreSamples.rereading in
  let w := Samples.Script.a_yaml EmptyString ["y"] in
  (fs w !! "a.yaml" = Some (File EmptyString) /\
   safe_load L EmptyString = inr YNone /\
   no_interactions YNone = true) /\
  process_yaml_file L "a.yaml" w
  = (Ret false,
     World (fs w) (env w) (stdin w)
       (out w ++ [OpenRead "a.yaml";
                  Print Plain "No gzip bodies found in a.yaml"])).
Proof.
  intros L w.
  assert (H1 : fs w !! "a.yaml" = Some (File EmptyString))
    by (vm_compute; reflexivity).
  assert (H2 : safe_load L EmptyString = inr YNone) by reflexivity.
  assert (H3 : no_interactions YNone = true) by reflexivity.
  split; [split; [exact H1 | split; [exact H2 | exact H3]] |].
  exact (process_yaml_file_without_interactions L "a.yaml" w EmptyString
           YNone H1 H2 H3).
Defined.

Lemma confirm_skips_unrecognised_witness :
  let w := Samples.Script.a_yaml Samples.Script.hi_text [] in
  forallb unrecognised [EmptyString; "maybe"; "Y E S"] = true /\
  fst (confirm "a.yaml" "new" ([EmptyString; "maybe"; "Y E S"] ++ [" Yes "]) w)
  = Ret true.
Proof.
  intros w.
  assert (U : forallb unrecognised [EmptyString; "maybe"; "Y E S"] = true)
    by (vm_compute; reflexivity).
  split; [exact U |].
  rewrite (confirm_skips_unrecognised "a.yaml" "new"
             [EmptyString; "maybe"; "Y E S"] [" Yes "] w U).
  vm_compute. reflexivity.
Defined.

Lemma second_run_finds_nothing_witness :
  let L := MoreSamples.rereading in
  let data := Samples.Script.cassette
                (Samples.Script.interaction_with (YBytes Samples.gz_hi)
                   Samples.Script.content_encoding) in
  let data' := Samples.Script.hi_decompressed in
  let w0 := Samples.Script.a_yaml Samples.Script.hi_text ["y"] in
  let w := Samples.Script.a_yaml Samples.Script.hi_decompressed_text ["y"] in
  (fst (process_data L "a.yaml" data w0) = Ret (data', true) /\
   safe_load L (dump L data') = inr data' /\
   fs w !! "a.yaml" = Some (File (dump L data'))) /\
  exists t,
    process_yaml_file L "a.yaml" w
    = (Ret false, World (fs w) (env w) (stdin w) (out w ++ t)) /\
    forallb no_prompt t = true.
Proof.
  intros L data data' w0 w.
  assert (H1 : fst (process_data L "a.yaml" data w0) = Ret (data', true))
    by (vm_compute; reflexivity).
  assert (H2 : safe_load L (dump L data') = inr data')
    by (vm_compute; reflexivity).
  assert (H3 : fs w !! "a.yaml" = Some (File (dump L data')))
    by (vm_compute; reflexivity).
  split; [split; [exact H1 | split; [exact H2 | exact H3]] |].
  exact (second_run_finds_nothing L "a.yaml" data data' true w0 w
           H1 H2 H3).
Defined.



Lemma main_without_files_exits_1_witness :
  let L := Samples.Script.sample in
  let w := Samples.Script.a_yaml Samples.Script.hi_text ["y"] in
  let argv := ["script.py"; "b.yaml"; "c.yml"] in
  (forall pattern, In pattern (List.tl argv) ->
                   glob L (fs w) pattern = []) /\
  fst (main L argv w) = Exit 1 /\
  looks is_print w (snd (main L argv w)).
Proof.
  intros L w argv.
  assert (Hn : forall pattern, In pattern (List.tl argv) ->
                               glob L (fs w) pattern = []).
  { intros pattern [<- | [<- | []]]; vm_compute; reflexivity. }
  split; [exact Hn |].
  exact (main_without_files_exits_1 L argv w Hn).
Defined.

End CheckEncodedStringsMore.

(** ** A run without a terminal *)

Module GcloudSetupUnattended.
Import GcloudSetup GcloudSetupSpec GcloudSetupMoreSpec.
Import CheckEncodedStringsSpec CheckEncodedStringsFacts.

Section Rules.

Context {A B : Type}.

Lemma unattended_bind (P : gmap string string -> Prop)
    (Q : A -> gmap string string -> Prop)
    (R : B -> gmap string string -> Prop) (m : M A) (k : A -> M B) :
  unattended P m Q -> (forall a, unattended (Q a) (k a) R) ->
  unattended P (bind m k) R.
Proof.
  intros Hm Hk w Pw. unfold bind. destruct (Hm w Pw) as (S1 & G1 & Q1).
  destruct (m w) as [[a | e | c] w1]; simpl in *; auto.
  destruct (Hk a w1 Q1) as (S2 & G2 & Q2).
  split; [congruence |]. split; [| exact Q2].
  eapply grows_trans; eassumption.
Qed.

Lemma unattended_looks (P : gmap string string -> Prop) (m : M A) :
  keeps (looks not_input) m -> unattended P m (fun _ => P).
Proof.
  intros Hm w Pw. destruct (Hm w) as (_ & E & S & G).
  split; [exact S |]. split; [exact G |].
  destruct (fst (m w)); [rewrite E; exact Pw | exact I | exact I].
Qed.

Lemma unattended_weaken (P : gmap string string -> Prop)
    (Q Q' : A -> gmap string string -> Prop) (m : M A) :
  (forall a e, Q a e -> Q' a e) -> unattended P m Q -> unattended P m Q'.
Proof.
  intros HQ Hm w Pw. destruct (Hm w Pw) as (S & G & Qa).
  split; [exact S |]. split; [exact G |].
  destruct (fst (m w)); auto.
Qed.

End Rules.

Lemma quiet_emit e : not_input e = true -> keeps (looks not_input) (emit e).
Proof. intros N w. apply looks_event. exact N. Qed.

Lemma quiet_print m s : keeps (looks not_input) (print m s).
Proof. apply quiet_emit. reflexivity. Qed.

Lemma quiet_print_success s : keeps (looks not_input) (print_success s).
Proof. apply quiet_print. Qed.
Lemma quiet_print_warning s : keeps (looks not_input) (print_warning s).
Proof. apply quiet_print. Qed.
Lemma quiet_print_error s : keeps (looks not_input) (print_error s).
Proof. apply quiet_print. Qed.
Lemma quiet_print_info s : keeps (looks not_input) (print_info s).
Proof. apply quiet_print. Qed.

Lemma quiet_getenv k : keeps (looks not_input) (getenv k).
Proof. intros w. simpl. reflexivity. Qed.

Lemma quiet_path_exists p : keeps (looks not_input) (path_exists p).
Proof. intros w. apply looks_event. reflexivity. Qed.

Lemma quiet_read_file p : keeps (looks not_input) (read_file p).
Proof.
  intros w. unfold read_file.
  destruct (fs w !! p) as [[c |] |]; apply looks_event; reflexivity.
Qed.

Section Functions.

Variable H : host.
Variable L : library.

Lemma quiet_subprocess_run argv :
  keeps (looks not_input) (subprocess_run H argv).
Proof. intros w. apply looks_event. reflexivity. Qed.

Ltac hush :=
  auto using quiet_print, quiet_print_success, quiet_print_warning,
    quiet_print_error, quiet_print_info, quiet_getenv, quiet_path_exists,
    quiet_read_file, quiet_subprocess_run.

Lemma quiet_check_gcloud_installed :
  keeps (looks not_input) (check_gcloud_installed H).
Proof. unfold check_gcloud_installed. steps hush. Qed.

Lemma quiet_get_adc_path : keeps (looks not_input) (get_adc_path H).
Proof. unfold get_adc_path, default_adc_path. steps hush. Qed.

Lemma quiet_check_credential_expiry creds :
  keeps (looks not_input) (check_credential_expiry H L creds).
Proof.
  unfold check_credential_expiry. walk.
  - unfold creds_get. walk.
  - unfold py_replace. walk.
  - unfold py_fromisoformat. walk.
  - unfold before_now. walk.
Qed.

Lemma quiet_check_adc : keeps (looks not_input) (check_adc H L).
Proof.
  unfold check_adc.
  apply keeps_bind; [typeclasses eauto | apply quiet_get_adc_path |].
  intros [p |]; [| steps hush].
  apply keeps_bind; [typeclasses eauto | hush | intros _].
  apply keeps_try; [typeclasses eauto | | intros e; steps hush].
  apply keeps_bind; [typeclasses eauto | hush | intros text].
  steps ltac:(first [apply quiet_check_credential_expiry | hush]).
Qed.

Lemma quiet_get_current_project :
  keeps (looks not_input) (get_current_project H).
Proof. unfold get_current_project. steps hush. Qed.

Lemma quiet_check_vertex_api_enabled project :
  keeps (looks not_input) (check_vertex_api_enabled H project).
Proof. unfold check_vertex_api_enabled. steps hush. Qed.

Lemma quiet_permanent_hint n v : keeps (looks not_input) (permanent_hint n v).
Proof. unfold permanent_hint. steps hush. Qed.

Lemma quiet_traced {A} n (tr : A -> bool) (m : M A) :
  keeps (looks not_input) m -> keeps (looks not_input) (traced n tr m).
Proof.
  intros Hm. unfold traced.
  apply keeps_bind;
    [typeclasses eauto | apply quiet_emit; reflexivity | intros _].
  apply keeps_bind; [typeclasses eauto | exact Hm | intros result].
  apply keeps_bind;
    [typeclasses eauto | apply quiet_emit; reflexivity | intros _].
  apply keeps_ret. typeclasses eauto.
Qed.

Lemma unattended_traced {A} P (Q : A -> gmap string string -> Prop) n
    (tr : A -> bool) (m : M A) :
  unattended P m Q -> unattended P (traced n tr m) Q.
Proof.
  intros Hm. unfold traced.
  eapply unattended_bind;
    [apply unattended_looks, quiet_emit; reflexivity | intros ?; cbv beta].
  eapply unattended_bind; [exact Hm | intros result; cbv beta].
  eapply unattended_bind;
    [apply unattended_looks, quiet_emit; reflexivity | intros ?; cbv beta].
  intros w Qa. simpl. split; [reflexivity |].
  split; [apply grows_refl | exact Qa].
Qed.

(** With no project exported yet, [set_project_env_var] has nothing to
    ask. *)
Lemma unattended_set_project_env_var r project :
  unattended (ready r) (set_project_env_var project)
    (fun _ => has_region r).
Proof.
  intros w (Pj & Rg & Nr).
  unfold set_project_env_var.
  set (tail := (setenv _ _ ;; _)%py).
  assert (U : unattended (has_region r) tail (fun _ => has_region r)).
  { subst tail.
    eapply unattended_bind with (Q := fun _ => has_region r).
    - intros w1 (R1 & N1). simpl. split; [reflexivity |].
      split; [eexists; split; [reflexivity | reflexivity] |].
      split; [| exact N1].
      rewrite lookup_insert_ne by discriminate. exact R1.
    - intros ?; cbv beta.
      eapply unattended_bind;
        [apply unattended_looks, quiet_print_success
        | intros ?; cbv beta].
      eapply unattended_bind;
        [apply unattended_looks, quiet_print_info | intros ?; cbv beta].
      eapply unattended_bind;
        [apply unattended_looks, quiet_permanent_hint
        | intros ?; cbv beta].
      intros w1 P1. simpl. split; [reflexivity |].
      split; [apply grows_refl | exact P1]. }
  clearbody tail.
  assert (T : stdin (snd (tail w)) = stdin w /\
              grows not_input w (snd (tail w)) /\
              match fst (tail w) with
              | Ret _ => has_region r (env (snd (tail w)))
              | _ => True
              end).
  { apply U. split; assumption. }
  unfold bind, getenv. cbv beta iota.
  destruct (env w !! "GOOGLE_CLOUD_PROJECT") as [[| c existing] |] eqn:G;
    simpl in Pj; try discriminate Pj; simpl; exact T.
Qed.

(** With a region in the environment, [get_region] has nothing to ask. *)
Lemma unattended_get_region r :
  unattended (has_region r) (get_region H) (fun _ _ => True).
Proof.
  intros w (Rg & Nr). destruct r as [| c r]; [discriminate Nr |].
  unfold get_region, region_from_env, bind, getenv. cbv beta.
  rewrite Rg. simpl. split; [reflexivity |]. split; [| exact I].
  eexists. split; reflexivity.
Qed.

Ltac quietly t :=
  eapply unattended_bind; [apply unattended_looks; t | intros ?; cbv beta ].

Lemma unattended_closing {A} P (m : M A) :
  keeps (looks not_input) m -> unattended P m (fun _ _ => True).
Proof.
  intros Hm. eapply unattended_weaken; [| apply unattended_looks; exact Hm].
  intros; exact I.
Qed.

Lemma unattended_main r :
  unattended (ready r) (main H L) (fun _ _ => True).
Proof.
  unfold main.
  quietly hush.
  eapply unattended_bind;
    [apply unattended_traced, unattended_looks, quiet_check_gcloud_installed
    | intros installed; cbv beta].
  destruct installed; cbn [negb];
    [| apply unattended_closing; steps hush].
  quietly hush.
  eapply unattended_bind;
    [apply unattended_traced, unattended_looks, quiet_check_adc
    | intros adc; cbv beta].
  cbv zeta. destruct (fst adc); cbn [negb];
    [| apply unattended_closing; steps hush].
  quietly hush.
  eapply unattended_bind;
    [apply unattended_traced, unattended_looks, quiet_get_current_project
    | intros project; cbv beta].
  destruct (truthy_opt project); cbn [negb];
    [| apply unattended_closing; steps hush].
  cbv zeta.
  quietly hush.
  eapply unattended_bind;
    [apply unattended_traced, unattended_set_project_env_var
    | intros exported; cbv beta].
  destruct exported; cbn [negb];
    [| apply unattended_closing; steps hush].
  quietly hush.
  eapply unattended_bind;
    [apply unattended_traced, unattended_get_region
    | intros region; cbv beta].
  destruct (nonempty region); cbn [negb];
    [| apply unattended_closing; steps hush].
  apply unattended_closing.
  steps ltac:(first [apply quiet_traced, quiet_check_vertex_api_enabled
                    | hush]).
Qed.

(** X16: the checker can run without a terminal.  When
    [GOOGLE_CLOUD_PROJECT] is unset or empty and [GOOGLE_CLOUD_REGION] holds
    a region, [main] never prompts and takes nothing from the standard
    input, however its checks turn out. *)
Theorem main_runs_unattended w r :
  default "" (env w !! "GOOGLE_CLOUD_PROJECT") = "" ->
  env w !! "GOOGLE_CLOUD_REGION" = Some r ->
  nonempty r = true ->
  stdin (snd (main H L w)) = stdin w /\
  exists t,
    out (snd (main H L w)) = out w ++ t /\
    forall prompt, ~ In (Input prompt) t.
Proof.
  intros Pj Rg Nr.
  destruct (unattended_main r w) as (S & (t & O & N) & _).
  { split; [exact Pj | split; [exact Rg | exact Nr]]. }
  split; [exact S |]. exists t. split; [exact O |].
  intros prompt Hin. rewrite forallb_forall in N.
  specialize (N _ Hin). discriminate N.
Qed.

End Functions.

Lemma main_runs_unattended_witness :
  let H := Samples.Checker.linux "aiplatform.googleapis.com" in
  let L := Samples.Checker.sample in
  let w := World {[ Samples.Checker.adc
                    := File Samples.Checker.service_account_text ]}
             {[ "GOOGLE_CLOUD_REGION" := "us-east4" ]} ["n"; "no"] [] in
  (default "" (env w !! "GOOGLE_CLOUD_PROJECT") = "" /\
   env w !! "GOOGLE_CLOUD_REGION" = Some "us-east4" /\
   nonempty "us-east4" = true) /\
  fst (main H L w) = Ret 0%Z /\
  stdin (snd (main H L w)) = ["n"; "no"].
Proof.
  intros H L w.
  assert (H1 : default "" (env w !! "GOOGLE_CLOUD_PROJECT") = "")
    by (vm_compute; reflexivity).
  assert (H2 : env w !! "GOOGLE_CLOUD_REGION" = Some "us-east4")
    by (vm_compute; reflexivity).
  assert (H3 : nonempty "us-east4" = true) by reflexivity.
  split; [split; [exact H1 | split; [exact H2 | exact H3]] |].
  split; [vm_compute; reflexivity |].
  exact (proj1 (main_runs_unattended H L w "us-east4" H1 H2 H3)).
Defined.

End GcloudSetupUnattended.
